(** * PRSMTECH theme compiler: a shallow embedding of [themes/prsmtech/build.js]
    and of the read-path accessor [getCSSVariables] of the core module.

    The token document is the value [JSON.parse] returns.  A JavaScript
    object is an association list with unique keys, kept in own-property
    enumeration order; an exception is an explicit completion; the clock a
    generator reads and the file system [build] writes to are explicit
    arguments.  Console output, the creation of the output directory and
    the loading of the token file are left out: [build] starts from the
    loaded document.

    Of the core module the development also embeds the framework router
    [selectFramework] with the capabilities matrix, the recommendation
    [parseContent] draws from the features it detects, the token cache
    [getDesignTokens], the theme accessors [getThemePath] and
    [getThemeCSS], and [getInlineStyles]. *)

From Stdlib Require Import String Ascii List Bool Arith NArith ZArith Lia.
From Stdlib Require Import DecimalString.
Import ListNotations.
Open Scope list_scope.
Open Scope string_scope.

Set Implicit Arguments.

(** ** Strings *)

(** The one-character string holding the double quote (code point 34). *)
Definition dquote : string := String (ascii_of_nat 34) EmptyString.

(** [String.prototype.startsWith]. *)
Definition startsWith (s search : string) : bool := String.prefix search s.

(** [String.prototype.includes] for a non-empty needle. *)
Definition includes (s search : string) : bool :=
match String.index 0 search s with
| Some _ => true
| None => false
end.

(** [Array.prototype.join] on an array of strings. *)
Fixpoint join (sep : string) (parts : list string) : string :=
match parts with
| [] => EmptyString
| [p] => p
| p :: rest => p ++ sep ++ join sep rest
end.

(** Decimal rendering of an array position, as [Object.entries] names it. *)
Definition index_key (i : nat) : string :=
NilZero.string_of_uint (Nat.to_uint i).

(** [String.prototype.toLowerCase] on the letters A to Z; the other bytes of
    the UTF-8 text are kept. *)
Definition lower_ascii (c : ascii) : ascii :=
let n := nat_of_ascii c in
if Nat.leb 65 n && Nat.leb n 90 then ascii_of_nat (n + 32) else c.

Fixpoint toLowerCase (s : string) : string :=
match s with
| EmptyString => EmptyString
| String c r => String (lower_ascii c) (toLowerCase r)
end.

(** ** Exceptions *)

Inductive exn : Type :=
| TypeError     (* raised by the language: call of a non-function, property
                 read on null or undefined, failed ToPrimitive *)
| SystemError.  (* raised by [writeFileSync] *)

Inductive completion (A : Type) : Type :=
| Normal (a : A)
| Throw (e : exn).

Arguments Normal {A} a.
Arguments Throw {A} e.

Definition bind {A B : Type} (c : completion A) (k : A -> completion B)
: completion B :=
match c with
| Normal a => k a
| Throw e => Throw e
end.

Notation "x <- c ;; k" := (bind c (fun x => k))
(at level 61, c at next level, right associativity).

Definition succeeded {A : Type} (c : completion A) : bool :=
match c with
| Normal _ => true
| Throw _ => false
end.

(** [xs.reduce(f, init)] / [xs.forEach] with a callback that may throw. *)
Fixpoint reduce {A B : Type} (f : B -> A -> completion B) (xs : list A)
(init : B) : completion B :=
match xs with
| [] => Normal init
| x :: rest => acc <- f init x ;; reduce f rest acc
end.

(** [xs.map(f)] with a callback that may throw. *)
Fixpoint map_c {A B : Type} (f : A -> completion B) (xs : list A)
: completion (list B) :=
match xs with
| [] => Normal []
| x :: rest => y <- f x ;; ys <- map_c f rest ;; Normal (y :: ys)
end.

(** ** JavaScript numbers

  A JSON number is an IEEE double.  The development needs three of its
  operations only and is parametric in them. *)
Class JSNumber (number : Type) : Type := {
number_to_string : number -> string;  (* Number::toString *)
number_falsy : number -> bool;        (* ToBoolean is false: 0, -0, NaN *)
number_json : number -> string        (* JSON.stringify of the number *)
}.

(** ** Own-property tables

  Keys are unique.  Enumeration order is the language's: array-index keys
  first, ascending, then the other keys in insertion order. *)

Definition is_digit (c : ascii) : bool :=
let n := nat_of_ascii c in Nat.leb 48 n && Nat.leb n 57.

Fixpoint digits_value (s : string) (acc : N) : option N :=
match s with
| EmptyString => Some acc
| String c r =>
    if is_digit c
    then digits_value r (10 * acc + N.of_nat (nat_of_ascii c - 48))%N
    else None
end.

(** An array index is a canonical numeric string below 2^32 - 1. *)
Definition array_index (s : string) : option N :=
match s with
| EmptyString => None
| String c r =>
    if Nat.eqb (nat_of_ascii c) 48 && negb (String.eqb r EmptyString) then None
    else match digits_value s 0%N with
         | Some n => if (n <? 4294967295)%N then Some n else None
         | None => None
         end
end.

Section Table.
Variable V : Type.

Definition table : Type := list (string * V).

(** [o[k]] for an own key; [None] is [undefined]. *)
Fixpoint obj_get (o : table) (k : string) : option V :=
  match o with
  | [] => None
  | (k', v) :: r => if String.eqb k' k then Some v else obj_get r k
  end.

(** [k in o] for a key the prototypes do not define. *)
Definition obj_has (o : table) (k : string) : bool :=
  match obj_get o k with
  | Some _ => true
  | None => false
  end.

Fixpoint obj_update (o : table) (k : string) (v : V) : table :=
  match o with
  | [] => []
  | (k', v') :: r =>
      if String.eqb k' k then (k, v) :: r
      else (k', v') :: obj_update r k v
  end.

Fixpoint obj_insert_index (o : table) (n : N) (k : string) (v : V) : table :=
  match o with
  | [] => [(k, v)]
  | (k', v') :: r =>
      match array_index k' with
      | Some m =>
          if (m <? n)%N then (k', v') :: obj_insert_index r n k v
          else (k, v) :: (k', v') :: r
      | None => (k, v) :: (k', v') :: r
      end
  end.

(** [o[k] = v]: an existing key keeps its place, a new one is created. *)
Definition obj_set (o : table) (k : string) (v : V) : table :=
  if obj_has o k then obj_update o k v
  else match array_index k with
       | Some n => obj_insert_index o n k v
       | None => (o ++ [(k, v)])%list
       end.

(** [o[k] = v] on an object that inherits from [Object.prototype], as the
    accumulators of [flattenObject] do: the assignment to [__proto__] goes
    to the inherited setter, which creates no property (it changes the
    prototype when [v] is an object or [null], and nothing in the program
    reads an accumulator through its prototype); any other key is set. *)
Definition obj_put (o : table) (k : string) (v : V) : table :=
  if String.eqb k "__proto__" then o else obj_set o k v.

(** [Object.assign(target, source)]: one assignment per property. *)
Definition obj_assign (target source : table) : table :=
  fold_left (fun acc kv => obj_put acc (fst kv) (snd kv)) source target.

Definition keys (o : table) : list string := map fst o.
End Table.

(** ** Framework router

    The constants and [selectFramework] of the core module. *)

Module FRAMEWORKS.
Definition SLIDEV : string := "slidev".
Definition REVEAL : string := "reveal".
Definition WEBSLIDES : string := "webslides".
End FRAMEWORKS.

Module CONTENT_TYPES.
Definition TECHNICAL : string := "technical".
Definition MARKETING : string := "marketing".
Definition PORTFOLIO : string := "portfolio".
Definition TRAINING : string := "training".
Definition CORPORATE : string := "corporate".
End CONTENT_TYPES.

(** A slide dimension of the matrix: a number of pixels or a CSS length. *)
Inductive dimension : Type :=
| Pixels (n : nat)
| Length (s : string).

Record capabilities : Type := mkCapabilities {
  name : string;
  fileExtensions : list string;
  liveCode : bool;
  vueComponents : bool;
  animations : bool;
  pdfExport : bool;
  mermaidDiagrams : bool;
  latexMath : bool;
  codeHighlight : string;
  dimensions : dimension * dimension   (* width, height *)
}.

Definition FRAMEWORK_CAPABILITIES : table capabilities :=
  [(FRAMEWORKS.SLIDEV,
    mkCapabilities "Slidev" [".md"] true true true true true true "shiki"
      (Pixels 980, Pixels 552));
   (FRAMEWORKS.REVEAL,
    mkCapabilities "Reveal.js" [".html"; ".md"] false false true true false true
      "highlight.js" (Pixels 960, Pixels 700));
   (FRAMEWORKS.WEBSLIDES,
    mkCapabilities "WebSlides" [".html"] false false true false false false
      "prism" (Length "100vw", Length "100vh"))].

(** The content characteristics [selectFramework] destructures, with the
    types its documentation gives them; [exportFormat] is [None] for
    [null]. *)
Record options : Type := mkOptions {
  contentType : string;
  hasLiveCode : bool;
  hasMermaid : bool;
  hasLatex : bool;
  exportFormat : option string;
  needsVueComponents : bool;
  responsive : bool
}.

(** The defaults of the destructuring: what [selectFramework({})] reads. *)
Definition default_options : options :=
  mkOptions CONTENT_TYPES.TECHNICAL false false false None false false.

(** [exportFormat === 'pdf'] *)
Definition is_pdf (exportFormat : option string) : bool :=
  match exportFormat with
  | Some f => String.eqb f "pdf"
  | None => false
  end.

Definition selectFramework (o : options) : string :=
  if hasLiveCode o then FRAMEWORKS.SLIDEV
  else if needsVueComponents o then FRAMEWORKS.SLIDEV
  else if hasMermaid o then FRAMEWORKS.SLIDEV
  else if String.eqb (contentType o) CONTENT_TYPES.MARKETING && responsive o
  then FRAMEWORKS.WEBSLIDES
  else if is_pdf (exportFormat o) then FRAMEWORKS.REVEAL
  else if hasLatex o then FRAMEWORKS.SLIDEV
  else if String.eqb (contentType o) CONTENT_TYPES.CORPORATE
  then FRAMEWORKS.REVEAL
  else FRAMEWORKS.SLIDEV.

(** The [recommendedFramework] [parseContent] computes for a Markdown file
    from the four features it detected in the body: the other options are
    left to their defaults. *)
Definition markdown_recommendation
  (hasLiveCode hasMermaid hasLatex hasVueComponents : bool) : string :=
  selectFramework
    (mkOptions (contentType default_options) hasLiveCode hasMermaid hasLatex
       (exportFormat default_options) hasVueComponents
       (responsive default_options)).

(** The [characteristics] and the [recommendedFramework] [parseContent]
    computes for an HTML file from the number of [<section>] matches and the
    WebSlides test. *)
Definition html_isReveal (isWebSlides : bool) (slideMatches : nat) : bool :=
  negb isWebSlides && Nat.ltb 0 slideMatches.

Definition html_recommendation (isWebSlides : bool) : string :=
  if isWebSlides then FRAMEWORKS.WEBSLIDES else FRAMEWORKS.REVEAL.

(** ** The token document *)

Section Compiler.
Context {number : Type} {NUM : JSNumber number}.

Unset Elimination Schemes.
Inductive value : Type :=
| VNull
| VBool (b : bool)
| VNum (n : number)
| VStr (s : string)
| VArr (items : list value)
| VObj (props : list (string * value)).
Set Elimination Schemes.

Definition object : Type := list (string * value).

(** The flat map, an object whose properties hold token values as read. *)
Definition flat : Type := list (string * value).

(** [ToString], as a template literal and [join] apply it.  An object
    answers through [Object.prototype.toString] unless an own [toString]
    property, never callable in parsed JSON, shadows it; [valueOf] then
    yields no primitive either and the conversion throws. *)
Fixpoint ToString (v : value) : completion string :=
  match v with
  | VNull => Normal "null"
  | VBool true => Normal "true"
  | VBool false => Normal "false"
  | VNum n => Normal (number_to_string n)
  | VStr s => Normal s
  | VArr items =>
      parts <- map_c (fun e => match e with
                               | VNull => Normal EmptyString
                               | _ => ToString e
                               end) items ;;
      Normal (join "," parts)
  | VObj props =>
      if obj_has props "toString" then Throw TypeError
      else Normal "[object Object]"
  end.

(** [Array.prototype.includes(' ')] on a parsed array. *)
Definition array_includes_space (items : list value) : bool :=
  existsb (fun e => match e with
                    | VStr s => String.eqb s " "
                    | _ => false
                    end) items.

(** The callback [f => f.includes(' ') ? `"${f}"` : f]. *)
Definition quote_font (f : value) : completion value :=
  match f with
  | VStr s => Normal (VStr (if includes s " " then dquote ++ s ++ dquote else s))
  | VArr items =>
      if array_includes_space items
      then s <- ToString f ;; Normal (VStr (dquote ++ s ++ dquote))
      else Normal f
  | _ => Throw TypeError
  end.

(** [xs.join(sep)] on an array of values. *)
Definition join_values (sep : string) (xs : list value) : completion string :=
  parts <- map_c (fun e => match e with
                           | VNull => Normal EmptyString
                           | _ => ToString e
                           end) xs ;;
  Normal (join sep parts).

(** The right-hand side of the assignment in the font loop. *)
Definition font_entry (fonts : value) : completion value :=
  match fonts with
  | VArr items =>
      quoted <- map_c quote_font items ;;
      s <- join_values ", " quoted ;;
      Normal (VStr s)
  | _ => Normal fonts
  end.

(** [prefix.length ? `${prefix}-` : ''] *)
Definition pre_of (prefix : string) : string :=
  match prefix with
  | EmptyString => EmptyString
  | _ => prefix ++ "-"
  end.

(** The reducer of [flattenObject]; [self] is the recursive call.  Every
    entry is created by an assignment [acc[path] = v] on the accumulator, a
    plain object: at the path [__proto__] (the key [__proto__] under the
    empty prefix) it creates none. *)
Definition flatten_callback (self : value -> string -> completion flat)
  (prefix : string) (acc : flat) (entry : string * value) : completion flat :=
  let key := fst entry in
  let value := snd entry in
  let pre := pre_of prefix in
  match value with
  | VObj props =>
      if startsWith key "$" then Normal acc
      else
        match obj_get props "value" with
        | Some (VStr s) => Normal (obj_put acc (pre ++ key) (VStr s))
        | _ =>
            match obj_get props "DEFAULT" with
            | Some d =>
                sub <- self value (pre ++ key) ;;
                Normal (obj_assign (obj_put acc (pre ++ key) d) sub)
            | None =>
                if String.eqb key "fontFamily" then
                  reduce (fun a fe =>
                            v <- font_entry (snd fe) ;;
                            Normal (obj_put a (pre ++ key ++ "-" ++ fst fe) v))
                         props acc
                else
                  sub <- self value (pre ++ key) ;;
                  Normal (obj_assign acc sub)
            end
        end
  | VStr _ | VNum _ => Normal (obj_put acc (pre ++ key) value)
  | VNull | VBool _ | VArr _ => Normal acc
  end.

Fixpoint flatten_value (v : value) (prefix : string) : completion flat :=
  match v with
  | VObj props =>
      (fix go (entries : list (string * value)) (acc : flat)
         : completion flat :=
         match entries with
         | [] => Normal acc
         | e :: rest =>
             acc' <- flatten_callback flatten_value prefix acc e ;;
             go rest acc'
         end) props []
  | _ => Normal []
  end.

(** [flattenObject(obj, prefix)]; [obj] is a plain object. *)
Definition flattenObject (obj : object) (prefix : string) : completion flat :=
  flatten_value (VObj obj) prefix.

(** ** Property reads on the document

    [None] is [undefined].  The generators read fixed property names, none
    of which a prototype defines, so a read on a string, number, boolean
    or array yields [undefined]. *)
Definition jsval : Type := option value.

(** [v.k]: throws on [null] and [undefined]. *)
Definition prop (v : jsval) (k : string) : completion jsval :=
  match v with
  | None | Some VNull => Throw TypeError
  | Some (VObj props) => Normal (obj_get props k)
  | Some _ => Normal None
  end.

(** [v?.k] *)
Definition opt_prop (v : jsval) (k : string) : jsval :=
  match v with
  | Some (VObj props) => obj_get props k
  | _ => None
  end.

(** [ToBoolean] *)
Definition truthy (v : jsval) : bool :=
  match v with
  | None | Some VNull => false
  | Some (VBool b) => b
  | Some (VNum n) => negb (number_falsy n)
  | Some (VStr s) => negb (String.eqb s EmptyString)
  | Some (VArr _) | Some (VObj _) => true
  end.

(** The interpolation [${v || fallback}], [fallback] already rendered. *)
Definition or_default (v : jsval) (fallback : string) : completion string :=
  match v with
  | Some x => if truthy v then ToString x else Normal fallback
  | None => Normal fallback
  end.

(** ** Base stylesheet *)

Definition newline : string := String (ascii_of_nat 10) EmptyString.

Record categories : Type := mkCategories {
  colors : list string;
  typography : list string;
  spacing : list string;
  borders : list string;
  shadows : list string;
  transitions : list string;
  other : list string
}.

Definition empty_categories : categories :=
  mkCategories [] [] [] [] [] [] [].

(** [`  --prsm-${key}: ${value};`] *)
Definition css_var (key : string) (v : value) : completion string :=
  s <- ToString v ;;
  Normal ("  --prsm-" ++ key ++ ": " ++ s ++ ";").

(** The body of the [forEach] over [Object.entries(flat)]. *)
Definition categorize_entry (c : categories) (entry : string * value)
  : completion categories :=
  let key := fst entry in
  cssVar <- css_var key (snd entry) ;;
  if startsWith key "colors" || startsWith key "slide" || startsWith key "dark"
  then Normal (mkCategories (colors c ++ [cssVar]) (typography c) (spacing c)
                 (borders c) (shadows c) (transitions c) (other c))
  else if startsWith key "typography" || startsWith key "font"
  then Normal (mkCategories (colors c) (typography c ++ [cssVar]) (spacing c)
                 (borders c) (shadows c) (transitions c) (other c))
  else if startsWith key "spacing"
  then Normal (mkCategories (colors c) (typography c) (spacing c ++ [cssVar])
                 (borders c) (shadows c) (transitions c) (other c))
  else if startsWith key "border" || startsWith key "shadow"
  then Normal (mkCategories (colors c) (typography c) (spacing c)
                 (borders c ++ [cssVar]) (shadows c) (transitions c) (other c))
  else if startsWith key "transition"
  then Normal (mkCategories (colors c) (typography c) (spacing c)
                 (borders c) (shadows c) (transitions c ++ [cssVar]) (other c))
  else Normal (mkCategories (colors c) (typography c) (spacing c)
                 (borders c) (shadows c) (transitions c) (other c ++ [cssVar])).

Definition categorize (fl : flat) : completion categories :=
  reduce categorize_entry fl empty_categories.

Definition base_head : string :=
  "/**
 * PRSMTECH Design Tokens - Base CSS Variables
 * Generated from variables.json
 *
 * @generated ".

Definition base_open : string :=
  "
 */

:root {
".

Definition base_header (now : string) : string :=
  base_head ++ now ++ base_open.

Definition base_sections (c : categories) : string :=
  ("  /* Colors */" ++ newline ++ join newline (colors c) ++ newline ++ newline)
  ++ ("  /* Typography */" ++ newline ++ join newline (typography c) ++ newline ++ newline)
  ++ ("  /* Spacing */" ++ newline ++ join newline (spacing c) ++ newline ++ newline)
  ++ ("  /* Borders & Shadows */" ++ newline ++ join newline (borders c) ++ newline ++ newline)
  ++ ("  /* Transitions */" ++ newline ++ join newline (transitions c) ++ newline ++ newline)
  ++ (if Nat.ltb 0 (List.length (other c))
      then "  /* Other */" ++ newline ++ join newline (other c) ++ newline ++ newline
      else EmptyString).

Definition base_dark_mode : string :=
  "}

/* Dark mode */
[data-theme=" ++ dquote ++ "dark" ++ dquote ++ "],
.dark,
:root.dark {
  --prsm-slide-background: var(--prsm-dark-background);
  --prsm-slide-backgroundAlt: var(--prsm-dark-backgroundAlt);
  --prsm-slide-text: var(--prsm-dark-text);
  --prsm-slide-textMuted: var(--prsm-dark-textMuted);
  --prsm-slide-heading: var(--prsm-dark-heading);
  --prsm-slide-link: var(--prsm-dark-link);
  --prsm-slide-linkHover: var(--prsm-dark-linkHover);
  --prsm-slide-border: var(--prsm-dark-border);
  --prsm-slide-codeBg: var(--prsm-dark-codeBg);
  --prsm-slide-codeText: var(--prsm-dark-codeText);
}
".

(** [generateBaseCSS(variables)]; [now] is what
    [new Date().toISOString()] returns during the call. *)
Definition generateBaseCSS (now : string) (variables : object)
  : completion string :=
  fl <- flattenObject variables EmptyString ;;
  let css := base_header now in
  c <- categorize fl ;;
  let css := css ++ base_sections c in
  let css := css ++ base_dark_mode in
  Normal css.

(** ** Framework stylesheets *)

(** The template of [generateSlidevCSS], up to the clock reading. *)
Definition slidev_head : string :=
  "/**
 * PRSMTECH Slidev Theme
 *
 * @generated ".

(** The template after the clock reading, around its interpolations. *)
Definition slidev_body (width height padding borderWidth : string) : string :=
  "
 */

@import './base.css';

/* Slidev-specific overrides */
.slidev-layout {
  --slidev-theme-primary: var(--prsm-colors-primary-500);
  --slidev-theme-secondary: var(--prsm-colors-secondary-500);
  --slidev-theme-accent: var(--prsm-colors-primary-600);

  --slidev-slide-width: "
  ++ width
  ++ "px;
  --slidev-slide-height: "
  ++ height
  ++ "px;

  font-family: var(--prsm-typography-fontFamily-sans);
  background: var(--prsm-slide-background);
  color: var(--prsm-slide-text);
  padding: "
  ++ padding
  ++ ";
}

.slidev-layout h1,
.slidev-layout h2,
.slidev-layout h3 {
  font-family: var(--prsm-typography-fontFamily-heading);
  color: var(--prsm-slide-heading);
  font-weight: var(--prsm-typography-fontWeight-bold);
}

.slidev-layout h1 {
  font-size: var(--prsm-typography-fontSize-5xl);
  line-height: var(--prsm-typography-lineHeight-tight);
  margin-bottom: var(--prsm-spacing-lg);
}

.slidev-layout h2 {
  font-size: var(--prsm-typography-fontSize-3xl);
  margin-bottom: var(--prsm-spacing-md);
}

.slidev-layout h3 {
  font-size: var(--prsm-typography-fontSize-2xl);
  margin-bottom: var(--prsm-spacing-sm);
}

.slidev-layout p {
  font-size: var(--prsm-typography-fontSize-lg);
  line-height: var(--prsm-typography-lineHeight-relaxed);
  color: var(--prsm-slide-text);
}

.slidev-layout a {
  color: var(--prsm-slide-link);
  text-decoration: none;
  transition: color var(--prsm-transitions-duration-fast);
}

.slidev-layout a:hover {
  color: var(--prsm-slide-linkHover);
  text-decoration: underline;
}

.slidev-layout code:not(.shiki) {
  font-family: var(--prsm-typography-fontFamily-mono);
  font-size: var(--prsm-components-code-fontSize);
  background: var(--prsm-slide-codeBg);
  color: var(--prsm-slide-codeText);
  padding: var(--prsm-components-code-padding);
  border-radius: var(--prsm-components-code-borderRadius);
}

.slidev-layout blockquote {
  border-left: "
  ++ borderWidth
  ++ " solid var(--prsm-components-blockquote-borderColor);
  background: var(--prsm-colors-primary-50);
  padding: var(--prsm-components-blockquote-padding);
  margin: var(--prsm-spacing-md) 0;
  font-style: italic;
}

.slidev-layout ul,
.slidev-layout ol {
  padding-left: var(--prsm-components-list-indentation);
  margin: var(--prsm-spacing-sm) 0;
}

.slidev-layout li {
  margin-bottom: var(--prsm-spacing-2);
}

.slidev-layout li::marker {
  color: var(--prsm-components-list-bulletColor);
}

/* Cover slide */
.slidev-layout.cover {
  background: var(--prsm-gradients-primary);
  color: var(--prsm-colors-neutral-50);
}

.slidev-layout.cover h1 {
  color: var(--prsm-colors-neutral-50);
}

/* Two-column layout */
.slidev-layout.two-column {
  display: grid;
  grid-template-columns: 1fr 1fr;
  gap: var(--prsm-spacing-xl);
}

/* PRSMTECH brand footer */
.slidev-layout::after {
  content: 'PRSMTECH';
  position: fixed;
  bottom: 20px;
  right: 40px;
  font-family: var(--prsm-typography-fontFamily-heading);
  font-size: var(--prsm-typography-fontSize-sm);
  font-weight: var(--prsm-typography-fontWeight-bold);
  color: var(--prsm-colors-primary-500);
  opacity: 0.6;
}
".

(** [generateSlidevCSS(variables)] *)
Definition generateSlidevCSS (now : string) (variables : object)
  : completion string :=
  width <-
    or_default (opt_prop (opt_prop (opt_prop (obj_get variables "slide") "dimensions") "slidev") "width") "980" ;;
  height <-
    or_default (opt_prop (opt_prop (opt_prop (obj_get variables "slide") "dimensions") "slidev") "height") "552" ;;
  padding <-
    or_default (opt_prop (opt_prop (obj_get variables "slide") "padding") "slidev") "40px" ;;
  borderWidth <-
    or_default (opt_prop (opt_prop (obj_get variables "components") "blockquote") "borderWidth") "4px" ;;
  Normal (slidev_head ++ now ++ slidev_body width height padding borderWidth).

(** The template of [generateRevealCSS], up to the clock reading. *)
Definition reveal_head : string :=
  "/**
 * PRSMTECH Reveal.js Theme
 *
 * @generated ".

(** The template after the clock reading, around its interpolations. *)
Definition reveal_body (padding borderWidth : string) : string :=
  "
 */

@import './base.css';

/* Reveal.js theme registration */
section.has-light-background,
section.has-light-background h1,
section.has-light-background h2,
section.has-light-background h3,
section.has-light-background h4,
section.has-light-background h5,
section.has-light-background h6 {
  color: var(--prsm-slide-text);
}

.reveal {
  font-family: var(--prsm-typography-fontFamily-sans);
  font-size: var(--prsm-typography-fontSize-xl);
  font-weight: var(--prsm-typography-fontWeight-normal);
  color: var(--prsm-slide-text);
}

.reveal .slides {
  text-align: left;
}

.reveal .slides section {
  padding: "
  ++ padding
  ++ ";
}

.reveal h1,
.reveal h2,
.reveal h3,
.reveal h4,
.reveal h5,
.reveal h6 {
  margin: 0 0 var(--prsm-spacing-md) 0;
  font-family: var(--prsm-typography-fontFamily-heading);
  font-weight: var(--prsm-typography-fontWeight-bold);
  line-height: var(--prsm-typography-lineHeight-tight);
  color: var(--prsm-slide-heading);
  text-transform: none;
  word-wrap: break-word;
}

.reveal h1 {
  font-size: var(--prsm-typography-fontSize-5xl);
  text-shadow: none;
}

.reveal h2 {
  font-size: var(--prsm-typography-fontSize-4xl);
}

.reveal h3 {
  font-size: var(--prsm-typography-fontSize-3xl);
}

.reveal h4 {
  font-size: var(--prsm-typography-fontSize-2xl);
}

.reveal p {
  margin: var(--prsm-spacing-md) 0;
  line-height: var(--prsm-typography-lineHeight-relaxed);
}

.reveal a {
  color: var(--prsm-slide-link);
  text-decoration: none;
  transition: color var(--prsm-transitions-duration-fast) var(--prsm-transitions-timing-ease);
}

.reveal a:hover {
  color: var(--prsm-slide-linkHover);
  text-shadow: none;
  border: none;
}

.reveal pre {
  display: block;
  position: relative;
  width: 100%;
  margin: var(--prsm-spacing-md) auto;
  text-align: left;
  font-size: var(--prsm-components-code-fontSize);
  font-family: var(--prsm-typography-fontFamily-mono);
  line-height: var(--prsm-components-code-lineHeight);
  word-wrap: break-word;
  box-shadow: var(--prsm-shadows-md);
  background: var(--prsm-slide-codeBg);
  border-radius: var(--prsm-borderRadius-md);
}

.reveal code {
  font-family: var(--prsm-typography-fontFamily-mono);
  text-transform: none;
  tab-size: 2;
}

.reveal pre code {
  display: block;
  padding: var(--prsm-spacing-md);
  overflow: auto;
  max-height: 400px;
  word-wrap: normal;
}

.reveal blockquote {
  display: block;
  position: relative;
  width: 95%;
  margin: var(--prsm-spacing-md) auto;
  padding: var(--prsm-components-blockquote-padding);
  background: var(--prsm-colors-primary-50);
  border-left: "
  ++ borderWidth
  ++ " solid var(--prsm-colors-primary-500);
  font-style: italic;
}

.reveal blockquote p:first-child,
.reveal blockquote p:last-child {
  display: inline-block;
}

.reveal ul,
.reveal ol {
  display: inline-block;
  text-align: left;
  margin: 0 0 0 var(--prsm-components-list-indentation);
}

.reveal ul li,
.reveal ol li {
  margin-bottom: var(--prsm-spacing-2);
}

.reveal ul li::marker,
.reveal ol li::marker {
  color: var(--prsm-components-list-bulletColor);
}

.reveal table {
  margin: auto;
  border-collapse: collapse;
  border-spacing: 0;
}

.reveal table th {
  font-weight: var(--prsm-typography-fontWeight-bold);
  background: var(--prsm-components-table-headerBackground);
}

.reveal table th,
.reveal table td {
  text-align: left;
  padding: var(--prsm-components-table-cellPadding);
  border-bottom: 1px solid var(--prsm-components-table-borderColor);
}

/* Title slide */
.reveal .slides > section.title-slide {
  background: var(--prsm-gradients-primary);
  color: var(--prsm-colors-neutral-50);
}

.reveal .slides > section.title-slide h1,
.reveal .slides > section.title-slide h2 {
  color: var(--prsm-colors-neutral-50);
}

/* Progress bar */
.reveal .progress {
  background: rgba(0, 0, 0, 0.2);
  color: var(--prsm-colors-primary-500);
}

.reveal .progress span {
  background: var(--prsm-colors-primary-500);
  transition: width var(--prsm-transitions-duration-normal) var(--prsm-transitions-timing-ease);
}

/* Controls */
.reveal .controls {
  color: var(--prsm-colors-primary-500);
}

/* Slide number */
.reveal .slide-number {
  font-family: var(--prsm-typography-fontFamily-mono);
  font-size: var(--prsm-typography-fontSize-sm);
  color: var(--prsm-slide-textMuted);
  background-color: transparent;
}
".

(** [generateRevealCSS(variables)] *)
Definition generateRevealCSS (now : string) (variables : object)
  : completion string :=
  padding <-
    or_default (opt_prop (opt_prop (obj_get variables "slide") "padding") "reveal") "40px 80px" ;;
  borderWidth <-
    or_default (opt_prop (opt_prop (obj_get variables "components") "blockquote") "borderWidth") "4px" ;;
  Normal (reveal_head ++ now ++ reveal_body padding borderWidth).

(** The template of [generateWebSlidesCSS], up to the clock reading. *)
Definition webslides_head : string :=
  "/**
 * PRSMTECH WebSlides Theme
 *
 * @generated ".

(** The template after the clock reading, around its interpolations. *)
Definition webslides_body (padding borderWidth : string) : string :=
  "
 */

@import './base.css';

/* WebSlides base overrides */
#webslides {
  font-family: var(--prsm-typography-fontFamily-sans);
  font-size: var(--prsm-typography-fontSize-lg);
  color: var(--prsm-slide-text);
}

#webslides section {
  background: var(--prsm-slide-background);
  padding: "
  ++ padding
  ++ ";
}

#webslides h1,
#webslides h2,
#webslides h3,
#webslides h4 {
  font-family: var(--prsm-typography-fontFamily-heading);
  font-weight: var(--prsm-typography-fontWeight-bold);
  color: var(--prsm-slide-heading);
  margin-bottom: var(--prsm-spacing-md);
}

#webslides h1 {
  font-size: var(--prsm-typography-fontSize-6xl);
  line-height: var(--prsm-typography-lineHeight-tight);
}

#webslides h2 {
  font-size: var(--prsm-typography-fontSize-4xl);
}

#webslides h3 {
  font-size: var(--prsm-typography-fontSize-3xl);
}

#webslides p {
  line-height: var(--prsm-typography-lineHeight-relaxed);
  margin-bottom: var(--prsm-spacing-md);
}

#webslides a {
  color: var(--prsm-slide-link);
  text-decoration: none;
  border-bottom: 2px solid transparent;
  transition: all var(--prsm-transitions-duration-fast);
}

#webslides a:hover {
  color: var(--prsm-slide-linkHover);
  border-bottom-color: var(--prsm-slide-linkHover);
}

#webslides code,
#webslides pre {
  font-family: var(--prsm-typography-fontFamily-mono);
  font-size: var(--prsm-components-code-fontSize);
}

#webslides code {
  background: var(--prsm-slide-codeBg);
  color: var(--prsm-slide-codeText);
  padding: var(--prsm-components-code-padding);
  border-radius: var(--prsm-components-code-borderRadius);
}

#webslides pre {
  background: var(--prsm-slide-codeBg);
  padding: var(--prsm-spacing-md);
  border-radius: var(--prsm-borderRadius-md);
  overflow-x: auto;
  margin: var(--prsm-spacing-md) 0;
}

#webslides pre code {
  background: transparent;
  padding: 0;
}

#webslides blockquote {
  border-left: "
  ++ borderWidth
  ++ " solid var(--prsm-colors-primary-500);
  background: var(--prsm-colors-primary-50);
  padding: var(--prsm-components-blockquote-padding);
  margin: var(--prsm-spacing-lg) 0;
  font-style: italic;
}

#webslides ul,
#webslides ol {
  padding-left: var(--prsm-components-list-indentation);
  margin: var(--prsm-spacing-md) 0;
}

#webslides li {
  margin-bottom: var(--prsm-spacing-2);
  line-height: var(--prsm-typography-lineHeight-relaxed);
}

#webslides li::marker {
  color: var(--prsm-components-list-bulletColor);
}

/* WebSlides components */

/* Background variations */
.bg-prsm-primary {
  background-color: var(--prsm-colors-primary-500);
  color: var(--prsm-colors-neutral-50);
}

.bg-prsm-secondary {
  background-color: var(--prsm-colors-secondary-500);
  color: var(--prsm-colors-neutral-50);
}

.bg-prsm-gradient {
  background: var(--prsm-gradients-primary);
  color: var(--prsm-colors-neutral-50);
}

.bg-prsm-dark {
  background: var(--prsm-dark-background);
  color: var(--prsm-dark-text);
}

/* Text colors */
.text-prsm-primary {
  color: var(--prsm-colors-primary-500);
}

.text-prsm-secondary {
  color: var(--prsm-colors-secondary-500);
}

/* Card component */
.prsm-card {
  background: var(--prsm-slide-background);
  border: 1px solid var(--prsm-slide-border);
  border-radius: var(--prsm-borderRadius-lg);
  padding: var(--prsm-spacing-lg);
  box-shadow: var(--prsm-shadows-md);
}

/* Grid layouts */
.prsm-grid-2 {
  display: grid;
  grid-template-columns: repeat(2, 1fr);
  gap: var(--prsm-spacing-xl);
}

.prsm-grid-3 {
  display: grid;
  grid-template-columns: repeat(3, 1fr);
  gap: var(--prsm-spacing-lg);
}

/* Navigation */
#navigation {
  background: var(--prsm-slide-background);
  border-top: 1px solid var(--prsm-slide-border);
}

#navigation a {
  color: var(--prsm-slide-text);
}

#navigation a:hover {
  color: var(--prsm-colors-primary-500);
}

/* Counter */
#counter {
  font-family: var(--prsm-typography-fontFamily-mono);
  font-size: var(--prsm-typography-fontSize-sm);
  color: var(--prsm-slide-textMuted);
}
".

(** [generateWebSlidesCSS(variables)] *)
Definition generateWebSlidesCSS (now : string) (variables : object)
  : completion string :=
  padding <-
    or_default (opt_prop (opt_prop (obj_get variables "slide") "padding") "webslides") "80px" ;;
  borderWidth <-
    or_default (opt_prop (opt_prop (obj_get variables "components") "blockquote") "borderWidth") "4px" ;;
  Normal (webslides_head ++ now ++ webslides_body padding borderWidth).

(** ** Utility-framework configuration *)

(** The string keys of the characters of a primitive string. *)
Fixpoint chars_from (i : nat) (s : string) : list (string * value) :=
  match s with
  | EmptyString => []
  | String c r => (index_key i, VStr (String c EmptyString)) :: chars_from (S i) r
  end.

Fixpoint items_from (i : nat) (items : list value) : list (string * value) :=
  match items with
  | [] => []
  | x :: r => (index_key i, x) :: items_from (S i) r
  end.

(** The own enumerable string-keyed properties of a value. *)
Definition own_entries (v : value) : list (string * value) :=
  match v with
  | VObj props => props
  | VArr items => items_from 0 items
  | VStr s => chars_from 0 s
  | VNull | VBool _ | VNum _ => []
  end.

(** [Object.entries(v)] *)
Definition Object_entries (v : jsval) : completion (list (string * value)) :=
  match v with
  | None | Some VNull => Throw TypeError
  | Some x => Normal (own_entries x)
  end.

(** What an object spread [...v] copies. *)
Definition spread_entries (v : jsval) : list (string * value) :=
  match v with
  | None => []
  | Some x => own_entries x
  end.

(** A value under construction: token values, [undefined], and the object
    literals of the generator. *)
Unset Elimination Schemes.
Inductive cfg : Type :=
| CVal (v : jsval)
| CObj (props : list (string * cfg)).
Set Elimination Schemes.

(** [typeof val === 'object' ? val.value : val] *)
Definition font_size_value (val : value) : completion jsval :=
  match val with
  | VNull => Throw TypeError
  | VObj props => Normal (obj_get props "value")
  | VArr _ => Normal None
  | VBool _ | VNum _ | VStr _ => Normal (Some val)
  end.

(** [Object.fromEntries] *)
Definition Object_fromEntries (entries : list (string * cfg))
  : list (string * cfg) :=
  fold_left (fun acc kv => obj_set acc (fst kv) (snd kv)) entries [].

Definition hex_digit (n : nat) : string :=
  String (ascii_of_nat (if Nat.ltb n 10 then 48 + n else 87 + n)) EmptyString.

Definition backslash : string := String (ascii_of_nat 92) EmptyString.

(** One code unit of [QuoteJSONString]. *)
Definition quote_json_char (c : ascii) : string :=
  let n := nat_of_ascii c in
  if Nat.eqb n 8 then backslash ++ "b"
  else if Nat.eqb n 9 then backslash ++ "t"
  else if Nat.eqb n 10 then backslash ++ "n"
  else if Nat.eqb n 12 then backslash ++ "f"
  else if Nat.eqb n 13 then backslash ++ "r"
  else if Nat.eqb n 34 then backslash ++ dquote
  else if Nat.eqb n 92 then backslash ++ backslash
  else if Nat.ltb n 32
       then backslash ++ "u00" ++ hex_digit (n / 16) ++ hex_digit (n mod 16)
       else String c EmptyString.

Fixpoint quote_json_body (s : string) : string :=
  match s with
  | EmptyString => EmptyString
  | String c r => quote_json_char c ++ quote_json_body r
  end.

Definition quote_json (s : string) : string :=
  dquote ++ quote_json_body s ++ dquote.

Definition gap : string := "  ".

(** [JSON.stringify(v, null, 2)] below the indentation [indent]. *)
Fixpoint stringify_value (indent : string) (v : value) : string :=
  match v with
  | VNull => "null"
  | VBool true => "true"
  | VBool false => "false"
  | VNum n => number_json n
  | VStr s => quote_json s
  | VArr items =>
      match items with
      | [] => "[]"
      | _ =>
          let inner := indent ++ gap in
          "[" ++ newline ++ inner
          ++ join ("," ++ newline ++ inner) (map (stringify_value inner) items)
          ++ newline ++ indent ++ "]"
      end
  | VObj props =>
      match props with
      | [] => "{}"
      | _ =>
          let inner := indent ++ gap in
          "{" ++ newline ++ inner
          ++ join ("," ++ newline ++ inner)
               (map (fun kv => quote_json (fst kv) ++ ": "
                               ++ stringify_value inner (snd kv)) props)
          ++ newline ++ indent ++ "}"
      end
  end.

(** The same for a value under construction; [None] is [undefined], and a
    property that serialises to [undefined] is left out. *)
Fixpoint stringify_cfg (indent : string) (c : cfg) : option string :=
  match c with
  | CVal None => None
  | CVal (Some v) => Some (stringify_value indent v)
  | CObj props =>
      let inner := indent ++ gap in
      let partial :=
        flat_map (fun kv =>
                    match stringify_cfg inner (snd kv) with
                    | Some strP => [quote_json (fst kv) ++ ": " ++ strP]
                    | None => []
                    end) props in
      match partial with
      | [] => Some "{}"
      | _ => Some ("{" ++ newline ++ inner
                   ++ join ("," ++ newline ++ inner) partial
                   ++ newline ++ indent ++ "}")
      end
  end.

Definition tailwind_head : string :=
  "/**
 * PRSMTECH Tailwind CSS Configuration
 *
 * Import this in your tailwind.config.js:
 *
 * const prsmTheme = require('./themes/prsmtech/dist/tailwind.config.js');
 *
 * module.exports = {
 *   theme: {
 *     extend: {
 *       ...prsmTheme.theme.extend
 *     }
 *   }
 * }
 *
 * @generated ".

Definition tailwind_exports : string :=
  "
 */

module.exports = ".

Definition tailwind_header (now : string) : string :=
  tailwind_head ++ now ++ tailwind_exports.

(** The [config] object literal of [generateTailwindConfig]. *)
Definition tailwind_config (variables : object) : completion cfg :=
  let colors := obj_get variables "colors" in
  let typography := obj_get variables "typography" in
  primary <- prop colors "primary" ;;
  secondary <- prop colors "secondary" ;;
  neutral <- prop colors "neutral" ;;
  semantic <- prop colors "semantic" ;;
  let prsm :=
    fold_left (fun acc kv => obj_set acc (fst kv) (CVal (Some (snd kv))))
      (spread_entries semantic)
      [("primary", CVal primary); ("secondary", CVal secondary);
       ("neutral", CVal neutral)] in
  fontFamily <- prop typography "fontFamily" ;;
  sans <- prop fontFamily "sans" ;;
  heading <- prop fontFamily "heading" ;;
  mono <- prop fontFamily "mono" ;;
  display <- prop fontFamily "display" ;;
  fontSize <- prop typography "fontSize" ;;
  sizes <- Object_entries fontSize ;;
  pairs <- map_c (fun kv => v <- font_size_value (snd kv) ;;
                            Normal (fst kv, CVal v)) sizes ;;
  Normal
    (CObj [("theme", CObj [("extend", CObj [
       ("colors", CObj [("prsm", CObj prsm)]);
       ("fontFamily", CObj [("sans", CVal sans); ("heading", CVal heading);
                            ("mono", CVal mono); ("display", CVal display)]);
       ("fontSize", CObj (Object_fromEntries pairs));
       ("borderRadius", CVal (obj_get variables "borderRadius"));
       ("boxShadow", CVal (obj_get variables "shadows"))])])]).

(** [generateTailwindConfig(variables)] *)
Definition generateTailwindConfig (now : string) (variables : object)
  : completion string :=
  config <- tailwind_config variables ;;
  let json := match stringify_cfg EmptyString config with
              | Some s => s
              | None => "undefined"
              end in
  Normal (tailwind_header now ++ json ++ ";
").

(** ** Orchestrator *)

(** What [build] finds around it: the clock reading each generator gets,
    where [join(CONFIG.outputDir, name)] points, and which destinations
    [writeFileSync] can write. *)
Record environment : Type := mkEnvironment {
  clock : nat -> string;
  output_path : string -> string;
  writable : string -> bool
}.

(** The files written so far, by path. *)
Definition files : Type := list (string * string).

Definition writeFileSync (env : environment) (fs : files)
  (path content : string) : completion files :=
  if writable env path then Normal (obj_set fs path content)
  else Throw SystemError.

Record artifact : Type := mkArtifact {
  framework : string;
  success : bool;
  path : option string;
  error : option exn
}.

Definition generator : Type := string -> object -> completion string.

(** The [generators] table, in its enumeration order. *)
Definition generators : list (string * generator) :=
  [("base", generateBaseCSS);
   ("slidev", generateSlidevCSS);
   ("reveal", generateRevealCSS);
   ("webslides", generateWebSlidesCSS);
   ("tailwind", generateTailwindConfig)].

(** One turn of the [forEach]: the [try] block and its [catch]. *)
Definition run_generator (env : environment) (variables : object)
  (i : nat) (entry : string * generator) (state : list artifact * files)
  : list artifact * files :=
  let framework := fst entry in
  let extension :=
    if String.eqb framework "tailwind" then ".config.js" else ".css" in
  let outputPath := output_path env (framework ++ extension) in
  let attempt :=
    content <- snd entry (clock env i) variables ;;
    writeFileSync env (snd state) outputPath content in
  match attempt with
  | Normal fs' =>
      ((fst state ++ [mkArtifact framework true (Some outputPath) None])%list, fs')
  | Throw e =>
      ((fst state ++ [mkArtifact framework false None (Some e)])%list, snd state)
  end.

Fixpoint run_generators (env : environment) (variables : object)
  (i : nat) (gens : list (string * generator))
  (state : list artifact * files) : list artifact * files :=
  match gens with
  | [] => state
  | g :: rest =>
      run_generators env variables (S i) rest
        (run_generator env variables i g state)
  end.

(** The [results] array and the files on disk once the loop is over. *)
Definition build_results (env : environment) (variables : object)
  (fs : files) : list artifact * files :=
  run_generators env variables 0 generators ([], fs).

(** [build()], after [loadVariables()] returned [variables]. *)
Definition build (env : environment) (variables : object) (fs : files)
  : bool :=
  forallb success (fst (build_results env variables fs)).

(** ** Read path: [getCSSVariables] *)

(** The body of the [forEach] in the inner [flatten]; [self] is the
    recursive call, [variables] the object the closure fills. *)
Definition css_flatten_entry (self : value -> string -> flat -> flat)
  (prefix : string) (variables : flat) (entry : string * value) : flat :=
  let key := fst entry in
  let value := snd entry in
  if startsWith key "$" then variables
  else
    let varName := "--" ++ prefix ++ "-" ++ key in
    match value with
    | VObj props =>
        let variables :=
          match obj_get props "DEFAULT" with
          | Some d => obj_set variables varName d
          | None => variables
          end in
        let variables :=
          match obj_get props "value" with
          | Some w => obj_set variables varName w
          | None => variables
          end in
        self value (prefix ++ "-" ++ key) variables
    | VArr _ => self value (prefix ++ "-" ++ key) variables
    | VStr _ | VNum _ => obj_set variables varName value
    | VNull | VBool _ => variables
    end.

Fixpoint css_flatten (obj : value) (prefix : string) (variables : flat)
  : flat :=
  match obj with
  | VObj props =>
      (fix each (entries : list (string * value)) (variables : flat) : flat :=
         match entries with
         | [] => variables
         | e :: rest =>
             each rest (css_flatten_entry css_flatten prefix variables e)
         end) props variables
  | VArr items =>
      (fix each (i : nat) (entries : list value) (variables : flat) : flat :=
         match entries with
         | [] => variables
         | x :: rest =>
             each (S i) rest
               (css_flatten_entry css_flatten prefix variables (index_key i, x))
         end) 0 items variables
  | _ => variables
  end.

(** [getCSSVariables()]; [tokens] is what [getDesignTokens()] returns,
    [None] when the token file is absent. *)
Definition getCSSVariables (tokens : option object) : flat :=
  match tokens with
  | None => []
  | Some t => css_flatten (VObj t) "prsm" []
  end.

(** ** Theme files: [getThemePath] and [getThemeCSS]

    [dist] is where [join(__dirname, '../themes/prsmtech/dist/' + name)]
    points; [fs] holds the files that exist.  The warning printed for a
    missing file is left out. *)
Definition getThemePath (dist : string -> string) (fs : files)
  (framework : string) : option string :=
  let frameworkKey := toLowerCase framework in
  let cssPath := dist (frameworkKey ++ ".css") in
  if negb (obj_has fs cssPath) then None
  else Some cssPath.

Definition getThemeCSS (dist : string -> string) (fs : files)
  (framework : string) : option string :=
  match getThemePath dist fs framework with
  | None => None
  | Some themePath =>
      if String.eqb themePath EmptyString then None
      else obj_get fs themePath
  end.

(** ** The token cache: [getDesignTokens]

    [designTokens] is the module variable before the call, [VNull] at
    start; [disk] is [None] when the token file does not exist and
    otherwise what [JSON.parse(readFileSync(...))] gives.  The result is
    the value returned and the module variable after the call; an
    exception leaves the variable as it was. *)
Definition getDesignTokens (designTokens : value)
  (disk : option (completion value)) : completion (value * value) :=
  if negb (truthy (Some designTokens))
  then match disk with
       | Some parsed => tokens <- parsed ;; Normal (tokens, tokens)
       | None => Normal (designTokens, designTokens)
       end
  else Normal (designTokens, designTokens).

(** Successive calls, each meeting its own state of the disk. *)
Fixpoint token_calls (designTokens : value)
  (disks : list (option (completion value))) : list (completion value) :=
  match disks with
  | [] => []
  | disk :: later =>
      match getDesignTokens designTokens disk with
      | Normal (returned, cached) => Normal returned :: token_calls cached later
      | Throw e => Throw e :: token_calls designTokens later
      end
  end.

(** ** Inline styles: [getInlineStyles]

    [tokens] is what [getDesignTokens()] returns.  A property of the style
    object holds a token value, [undefined], or, where the colour scheme
    is a string, the method [link] that strings inherit. *)
Inductive style_value : Type :=
| Token (v : jsval)
| StringMethod (name : string).

(** [colorScheme.link] *)
Definition link_of (colorScheme : jsval) : completion style_value :=
  match colorScheme with
  | Some (VStr _) => Normal (StringMethod "link")
  | _ => v <- prop colorScheme "link" ;; Normal (Token v)
  end.

(** [getInlineStyles({ dark })]; the result lists the properties of the
    style object in the order of the literal, [[]] being [{}]. *)
Definition getInlineStyles (tokens : value) (dark : bool)
  : completion (list (string * style_value)) :=
  if negb (truthy (Some tokens)) then Normal []
  else
    colors <- prop (Some tokens) "colors" ;;
    colorScheme <- (if dark then prop colors "dark" else prop colors "slide") ;;
    typography <- prop (Some tokens) "typography" ;;
    fontFamily <- prop typography "fontFamily" ;;
    sans <- prop fontFamily "sans" ;;
    joined <- match sans with
              | Some (VArr items) => join_values ", " items
              | _ => Throw TypeError
              end ;;
    background <- prop colorScheme "background" ;;
    text <- prop colorScheme "text" ;;
    heading <- prop colorScheme "heading" ;;
    link <- link_of colorScheme ;;
    Normal [("fontFamily", Token (Some (VStr joined)));
            ("backgroundColor", Token background);
            ("color", Token text);
            ("--heading-color", Token heading);
            ("--link-color", link)].

(** ** Vocabulary of the specification *)

(** The reduce of [flattenObject], resumed from an accumulator: what the
    remaining keys [entries] of the object do to [acc]. *)
Definition flatten_entries (prefix : string) (acc : flat) (entries : object)
  : completion flat :=
  reduce (flatten_callback flatten_value prefix) entries acc.

(** A scalar token value: a string or a number. *)
Definition is_scalar (v : value) : bool :=
  match v with
  | VStr _ | VNum _ => true
  | VNull | VBool _ | VArr _ | VObj _ => false
  end.

Definition is_string (v : value) : bool :=
  match v with
  | VStr _ => true
  | _ => false
  end.

(** Every array inside [v] is a sequence of strings. *)
Fixpoint strings_only (v : value) : bool :=
  match v with
  | VArr items => forallb is_string items
  | VObj props => forallb (fun kv => strings_only (snd kv)) props
  | VNull | VBool _ | VNum _ | VStr _ => true
  end.

(** The test of the first special case: a [value] property holding a string. *)
Definition string_valued (props : object) : bool :=
  match obj_get props "value" with
  | Some (VStr _) => true
  | _ => false
  end.

(** The FontFamilyGroup property, in the words of the specification: a name
    with a space is wrapped in quotes, the others are left as they are, and
    the sequence is joined with a comma and a space. *)
Definition quote_name (name : string) : string :=
  if includes name " " then dquote ++ name ++ dquote else name.

Definition font_list (names : list string) : string :=
  join ", " (map quote_name names).

(** A font-family group: font-name sequences by role. *)
Definition font_group (g : list (string * list string)) : object :=
  map (fun e => (fst e, VArr (map VStr (snd e)))) g.

(** The six buckets and the classification order, in the words of the
    specification. *)
Inductive bucket : Type :=
| Colors | Typography | Spacing | BordersShadows | Transitions | Other.

Definition bucket_eqb (a b : bucket) : bool :=
  match a, b with
  | Colors, Colors | Typography, Typography | Spacing, Spacing
  | BordersShadows, BordersShadows | Transitions, Transitions
  | Other, Other => true
  | _, _ => false
  end.

Definition all_buckets : list bucket :=
  [Colors; Typography; Spacing; BordersShadows; Transitions; Other].

Definition starts_with_any (key : string) (prefixes : list string) : bool :=
  existsb (startsWith key) prefixes.

Definition bucket_of (key : string) : bucket :=
  if starts_with_any key ["colors"; "slide"; "dark"] then Colors
  else if starts_with_any key ["typography"; "font"] then Typography
  else if starts_with_any key ["spacing"] then Spacing
  else if starts_with_any key ["border"; "shadow"] then BordersShadows
  else if starts_with_any key ["transition"] then Transitions
  else Other.

(** Where the generator keeps each bucket. *)
Definition bucket_lines (c : categories) (b : bucket) : list string :=
  match b with
  | Colors => colors c
  | Typography => typography c
  | Spacing => spacing c
  | BordersShadows => borders c
  | Transitions => transitions c
  | Other => other c
  end.

(** The line of an entry whose value renders. *)
Definition line_of (entry : string * value) : string :=
  match css_var (fst entry) (snd entry) with
  | Normal line => line
  | Throw _ => EmptyString
  end.

(** The entries of [fl] the specification sends to bucket [b]. *)
Definition entries_of_bucket (fl : flat) (b : bucket) : flat :=
  filter (fun e => bucket_eqb (bucket_of (fst e)) b) fl.

(** The outcome of generator number [i] on a document. *)
Definition generator_outcome (env : environment) (variables : object)
  (i : nat) : completion string :=
  match nth_error generators i with
  | Some g => snd g (clock env i) variables
  | None => Throw TypeError
  end.

Definition failed (a : artifact) : bool := negb (success a).

(** A generator's artifact is one text around the clock reading, or one
    exception, whatever the clock reads. *)
Definition stamped (g : generator) (variables : object) : Prop :=
  (exists e, forall now, g now variables = Throw e) \/
  (exists before after,
     forall now, g now variables = Normal (before ++ now ++ after)).

(** Two runs of a generator agree exactly when their clock readings do. *)
Definition agree_with_clock (g : generator) (variables : object) : Prop :=
  forall now1 now2 a1 a2,
    g now1 variables = Normal a1 -> g now2 variables = Normal a2 ->
    (a1 = a2 <-> now1 = now2).

(** What the read path holds is what the build path holds, over what was
    there before. *)
Definition overlays (vars vars0 acc : flat) : Prop :=
  (forall K, obj_get vars ("--prsm-" ++ K) =
             match obj_get acc K with
             | Some w => Some w
             | None => obj_get vars0 ("--prsm-" ++ K)
             end)
  /\ (forall K, startsWith K "--prsm-" = false ->
                obj_get vars K = obj_get vars0 K).

(** The documents on which the two flatteners go through the same cases:
    no array, no metadata key, no empty key, no [__proto__] key, no [value]
    property in a nested object, and no [fontFamily] object without a
    [DEFAULT]. *)
Fixpoint plain (v : value) : bool :=
  match v with
  | VArr _ => false
  | VObj props =>
      forallb (fun kv =>
                 negb (startsWith (fst kv) "$")
                 && negb (String.eqb (fst kv) EmptyString)
                 && negb (String.eqb (fst kv) "__proto__")
                 && match snd kv with
                    | VObj g =>
                        negb (obj_has g "value")
                        && (obj_has g "DEFAULT"
                            || negb (String.eqb (fst kv) "fontFamily"))
                    | _ => true
                    end
                 && plain (snd kv)) props
  | VNull | VBool _ | VNum _ | VStr _ => true
  end.

(** The flat map of the build path under the names of the read path. *)
Definition as_custom_properties (fl : flat) : flat :=
  map (fun kv => ("--prsm-" ++ fst kv, snd kv)) fl.

(** The names of the five artifacts, in the order [build] makes them, and
    the file each goes to. *)
Definition artifact_names : list string :=
  ["base"; "slidev"; "reveal"; "webslides"; "tailwind"].

Definition output_file (framework : string) : string :=
  framework ++ (if String.eqb framework "tailwind" then ".config.js" else ".css").

Definition destination (env : environment) (i : nat) : string :=
  output_path env (output_file (nth i artifact_names EmptyString)).

(** The record [build] keeps for generator number [i], read off the
    generator's outcome and its destination alone. *)
Definition expected_artifact (env : environment) (variables : object)
  (i : nat) : artifact :=
  let name := nth i artifact_names EmptyString in
  match generator_outcome env variables i with
  | Normal _ =>
      if writable env (destination env i)
      then mkArtifact name true (Some (destination env i)) None
      else mkArtifact name false None (Some SystemError)
  | Throw e => mkArtifact name false None (Some e)
  end.

(** [null] or [undefined]: what a property read throws on. *)
Definition nullish (v : jsval) : bool :=
  match v with
  | None | Some VNull => true
  | Some _ => false
  end.

Definition is_null (v : value) : bool :=
  match v with
  | VNull => true
  | _ => false
  end.

(** What the configuration generator needs of a document: [colors],
    [typography], [typography.fontFamily] and [typography.fontSize] are
    there, and no font size is [null]. *)
Definition tailwind_ready (variables : object) : bool :=
  let typography := obj_get variables "typography" in
  negb (nullish (obj_get variables "colors"))
  && negb (nullish typography)
  && negb (nullish (opt_prop typography "fontFamily"))
  && negb (nullish (opt_prop typography "fontSize"))
  && forallb (fun kv => negb (is_null (snd kv)))
       (spread_entries (opt_prop typography "fontSize")).

(** No object inside [v] has a property named [toString]. *)
Fixpoint printable (v : value) : bool :=
  match v with
  | VArr items => forallb printable items
  | VObj props =>
      negb (obj_has props "toString")
      && forallb (fun kv => printable (snd kv)) props
  | VNull | VBool _ | VNum _ | VStr _ => true
  end.


(** What [getInlineStyles] needs of the tokens for the scheme it is asked:
    [colors] and the scheme under it, [typography.fontFamily], and an array
    at [sans] whose elements render. *)
Definition inline_ready (tokens : value) (dark : bool) : bool :=
  let colors := opt_prop (Some tokens) "colors" in
  let fontFamily :=
    opt_prop (opt_prop (Some tokens) "typography") "fontFamily" in
  negb (nullish colors)
  && negb (nullish (opt_prop colors (if dark then "dark" else "slide")))
  && negb (nullish (opt_prop (Some tokens) "typography"))
  && negb (nullish fontFamily)
  && match opt_prop fontFamily "sans" with
     | Some (VArr items) => succeeded (join_values ", " items)
     | _ => false
     end.

(** The values with an [includes] method: strings and arrays. *)
Definition has_includes (v : value) : bool :=
  match v with
  | VStr _ | VArr _ => true
  | VNull | VBool _ | VNum _ | VObj _ => false
  end.

(** A state of the disk from which [getDesignTokens] loads nothing: the
    token file is missing, or reading it throws; and what the call answers
    while the module variable is still [null]. *)
Definition unloaded (disk : option (completion value)) : bool :=
  match disk with
  | None | Some (Throw _) => true
  | Some (Normal _) => false
  end.

Definition unloaded_answer (disk : option (completion value))
  : completion value :=
  match disk with
  | Some (Throw e) => Throw e
  | _ => Normal VNull
  end.

(** [c.k] on a value under construction. *)
Definition cfg_prop (c : option cfg) (k : string) : option cfg :=
  match c with
  | Some (CObj props) => obj_get props k
  | _ => None
  end.

End Compiler.

(** ** Integers as numbers, for the worked examples *)

Definition Z_number : JSNumber Z := {|
  number_to_string z := NilZero.string_of_int (Z.to_int z);
  number_falsy z := Z.eqb z 0;
  number_json z := NilZero.string_of_int (Z.to_int z)
|}.

(** ** Worked documents *)

(** The colour ramp of the specification's example, and the document that
    holds it. *)
Definition primary_ramp : @object Z :=
  [("500", VStr "#0057e6"); ("DEFAULT", VStr "#0057e6")].

Definition ramp_document : @object Z :=
  [("colors", VObj [("primary", VObj primary_ramp)])].


(** The font list of the specification's example. *)
Definition font_document : @object Z :=
  [("typography",
    VObj [("fontFamily",
           VObj [("sans", VArr [VStr "Inter"; VStr "system-ui"])])])].

(** A document every generator accepts. *)
Definition theme_document : @object Z :=
  [("colors",
    VObj [("primary", VObj [("500", VStr "#0057e6");
                            ("DEFAULT", VStr "#0057e6")]);
          ("semantic", VObj [("success", VObj [("DEFAULT", VStr "#28a745")])])]);
   ("typography",
    VObj [("fontFamily", VObj [("sans", VArr [VStr "Inter"; VStr "Space Grotesk"])]);
          ("fontSize", VObj [("base", VObj [("value", VStr "1rem")])]);
          ("lineHeight", VObj [("tight", VNum 1%Z)])]);
   ("spacing", VObj [("sm", VStr "8px")])].

(** A document with colours only: the configuration generator reads
    [variables.typography.fontFamily] and throws. *)
Definition colors_only_document : @object Z :=
  [("colors", VObj [("primary", VObj [("500", VStr "#0057e6")])])].

(** A shadow list under a token path. *)
Definition shadow_list_document : @object Z :=
  [("elevation", VObj [("card", VArr [VNum 0%Z; VNum 4%Z; VNum 12%Z])]);
   ("spacing", VObj [("sm", VStr "8px")])].

(** A metadata key holding a scalar. *)
Definition versioned_document : @object Z :=
  [("$version", VStr "1.0.0");
   ("$meta", VObj [("author", VStr "PRSMTECH")]);
   ("spacing", VObj [("sm", VStr "8px")])].

(** A wrapper holding a number. *)
Definition number_wrapper_document : @object Z :=
  [("zIndex", VObj [("modal", VObj [("value", VNum 50%Z)])])].


(** A font-family group with a [DEFAULT] entry. *)
Definition default_font_document : @object Z :=
  [("typography",
    VObj [("fontFamily",
           VObj [("DEFAULT", VArr [VStr "Inter"]);
                 ("sans", VArr [VStr "Inter"; VStr "system-ui"])])])].

(** The tokens of a theme that keeps its colour schemes under [colors]. *)
Definition inline_document : @value Z :=
  VObj
    [("colors",
      VObj [("slide", VObj [("background", VStr "#ffffff");
                            ("text", VStr "#1a1a1a");
                            ("heading", VStr "#0057e6");
                            ("link", VStr "#0046b3")])]);
     ("typography",
      VObj [("fontFamily",
             VObj [("sans", VArr [VStr "Inter"; VStr "Space Grotesk"])])])].

(** A font list with a number in it. *)
Definition numbered_font_group : @object Z :=
  [("sans", VArr [VStr "Inter"; VNum 1%Z])].


(** A theme with a semantic colour called [primary]. *)
Definition semantic_primary_document : @object Z :=
  [("colors",
    VObj [("primary", VObj [("500", VStr "#0057e6")]);
          ("semantic", VObj [("primary", VStr "#28a745")])]);
   ("typography",
    VObj [("fontFamily", VObj [("sans", VArr [VStr "Inter"])]);
          ("fontSize", VObj [("base", VStr "1rem")])])].

(** Two readings of the clock, a run apart. *)
Definition first_run : string := "2025-12-30T01:21:55.091Z".
Definition second_run : string := "2025-12-30T01:22:03.417Z".

(** A build environment whose destinations can all be written. *)
Definition dist_environment : environment :=
  mkEnvironment (fun _ => first_run) (fun name => "dist/" ++ name)
    (fun _ => true).

(** A build environment in which [base.css] cannot be written. *)
Definition readonly_base_environment : environment :=
  mkEnvironment (fun _ => first_run) (fun name => "dist/" ++ name)
    (fun path => negb (String.eqb path "dist/base.css")).

(** * Properties *)

Unset Implicit Arguments.

(** ** Strings *)

Lemma append_assoc (a b c : string) : (a ++ b) ++ c = a ++ b ++ c.
Proof. induction a as [|x a IH]; simpl; [reflexivity | now rewrite IH]. Qed.

Lemma append_length (a b : string) :
  String.length (a ++ b) = String.length a + String.length b.
Proof. induction a as [|x a IH]; simpl; [reflexivity | now rewrite IH]. Qed.

Lemma append_inv_head (a b c : string) : a ++ b = a ++ c -> b = c.
Proof.
  induction a as [|x a IH]; simpl; intros H; [assumption|].
  injection H as H. auto.
Qed.

Lemma append_inv_tail (a b c : string) : a ++ c = b ++ c -> a = b.
Proof.
  revert b. induction a as [|x a IH]; intros [|y b] H; simpl in H.
  - reflexivity.
  - apply (f_equal String.length) in H. simpl in H.
    rewrite append_length in H. lia.
  - apply (f_equal String.length) in H. simpl in H.
    rewrite append_length in H. lia.
  - injection H as -> H. f_equal. auto.
Qed.

(** [__proto__] has no dash in it. *)
Lemma dashed_not_proto (a b : string) : a ++ "-" ++ b <> "__proto__".
Proof.
  intros E.
  do 10 (destruct a as [|? a]; simpl in E; try discriminate;
         injection E as _ E).
Qed.

Lemma startsWith_append (p s : string) : startsWith (p ++ s) p = true.
Proof.
  unfold startsWith. induction p as [|c p IH]; simpl.
  - now destruct s.
  - destruct (ascii_dec c c); [assumption | congruence].
Qed.

Lemma startsWith_inv (s p : string) :
  startsWith s p = true -> exists r, s = p ++ r.
Proof.
  unfold startsWith. revert s. induction p as [|c p IH]; intros s H.
  - exists s. reflexivity.
  - destruct s as [|d s]; simpl in H; [discriminate|].
    destruct (ascii_dec c d) as [->|]; [|discriminate].
    destruct (IH _ H) as [r ->]. exists r. reflexivity.
Qed.

Lemma startsWith_trans (s p q : string) :
  startsWith s p = true -> startsWith p q = true -> startsWith s q = true.
Proof.
  intros H1 H2. apply startsWith_inv in H1 as [r ->].
  apply startsWith_inv in H2 as [r' ->].
  rewrite append_assoc. apply startsWith_append.
Qed.

(** ** Own-property tables *)

Section TableFacts.
Variable V : Type.
Implicit Types (o : table V) (k : string) (v : V).

Lemma obj_get_update_same o k v :
  obj_has o k = true -> obj_get (obj_update o k v) k = Some v.
Proof.
  unfold obj_has. induction o as [|[k' v'] o IH]; simpl; [discriminate|].
  destruct (String.eqb k' k) eqn:E; simpl.
  - now rewrite String.eqb_refl.
  - rewrite E. exact IH.
Qed.

Lemma obj_get_update_other o k v k' :
  k' <> k -> obj_get (obj_update o k v) k' = obj_get o k'.
Proof.
  intros Hne. induction o as [|[k0 v0] o IH]; simpl; [reflexivity|].
  destruct (String.eqb k0 k) eqn:E; simpl.
  - apply String.eqb_eq in E. subst k0.
    destruct (String.eqb k k') eqn:E'; [|reflexivity].
    apply String.eqb_eq in E'. congruence.
  - now rewrite IH.
Qed.

Lemma obj_get_insert_index_same o n k v :
  obj_has o k = false -> obj_get (obj_insert_index o n k v) k = Some v.
Proof.
  unfold obj_has. induction o as [|[k' v'] o IH]; simpl; intros H.
  - now rewrite String.eqb_refl.
  - destruct (String.eqb k' k) eqn:E; [discriminate|].
    destruct (array_index k') as [m|]; [destruct (m <? n)%N|]; simpl;
      rewrite ?E, ?String.eqb_refl; auto.
Qed.

Lemma obj_get_insert_index_other o n k v k' :
  k' <> k -> obj_get (obj_insert_index o n k v) k' = obj_get o k'.
Proof.
  intros Hne. assert (String.eqb k k' = false) as Hk
    by (apply String.eqb_neq; congruence).
  induction o as [|[k0 v0] o IH]; simpl; [now rewrite Hk|].
  destruct (array_index k0) as [m|]; [destruct (m <? n)%N|]; simpl;
    rewrite ?Hk, ?IH; reflexivity.
Qed.

Lemma obj_get_app o o' k :
  obj_get (o ++ o')%list k =
  match obj_get o k with Some v => Some v | None => obj_get o' k end.
Proof.
  induction o as [|[k' v'] o IH]; simpl; [reflexivity|].
  destruct (String.eqb k' k); [reflexivity | exact IH].
Qed.

Lemma obj_get_set_same o k v : obj_get (obj_set o k v) k = Some v.
Proof.
  unfold obj_set. destruct (obj_has o k) eqn:H.
  - now apply obj_get_update_same.
  - destruct (array_index k).
    + now apply obj_get_insert_index_same.
    + rewrite obj_get_app. unfold obj_has in H.
      destruct (obj_get o k); [discriminate|].
      simpl. now rewrite String.eqb_refl.
Qed.

Lemma obj_get_set_other o k v k' :
  k' <> k -> obj_get (obj_set o k v) k' = obj_get o k'.
Proof.
  intros Hne. unfold obj_set. destruct (obj_has o k).
  - now apply obj_get_update_other.
  - destruct (array_index k).
    + now apply obj_get_insert_index_other.
    + rewrite obj_get_app. destruct (obj_get o k'); [reflexivity|].
      simpl. destruct (String.eqb k k') eqn:E; [|reflexivity].
      apply String.eqb_eq in E. congruence.
Qed.

Lemma obj_get_In o k v : obj_get o k = Some v -> In (k, v) o.
Proof.
  induction o as [|[k' v'] o IH]; simpl; [discriminate|].
  destruct (String.eqb k' k) eqn:E.
  - apply String.eqb_eq in E. intros [= ->]. subst. now left.
  - intros H. right. auto.
Qed.

Lemma obj_get_None o k : obj_get o k = None <-> ~ In k (keys o).
Proof.
  unfold keys. induction o as [|[k' v'] o IH]; simpl.
  - tauto.
  - destruct (String.eqb k' k) eqn:E.
    + apply String.eqb_eq in E. split; [discriminate | intros H; tauto].
    + apply String.eqb_neq in E. rewrite IH. tauto.
Qed.

(** Assignment creates no key other than its own. *)
Lemma keys_obj_set o k v k' :
  In k' (keys (obj_set o k v)) -> k' = k \/ In k' (keys o).
Proof.
  intros H. destruct (string_dec k' k) as [|Hne]; [now left | right].
  destruct (in_dec string_dec k' (keys o)) as [|Hn]; [assumption | exfalso].
  apply obj_get_None in Hn.
  rewrite <- (obj_get_set_other o k v k' Hne) in Hn.
  apply obj_get_None in Hn. contradiction.
Qed.

(** The same for an assignment through the prototype chain, which sets
    every key but [__proto__]. *)
Lemma obj_put_set o k v : k <> "__proto__" -> obj_put o k v = obj_set o k v.
Proof.
  intros Hk. unfold obj_put. destruct (String.eqb k "__proto__") eqn:E;
    [|reflexivity].
  apply String.eqb_eq in E. contradiction.
Qed.

Lemma obj_put_proto o v : obj_put o "__proto__" v = o.
Proof. reflexivity. Qed.

Lemma obj_get_put_same o k v :
  k <> "__proto__" -> obj_get (obj_put o k v) k = Some v.
Proof. intros Hk. rewrite (obj_put_set o k v Hk). apply obj_get_set_same. Qed.

Lemma obj_get_put_other o k v k' :
  k' <> k -> obj_get (obj_put o k v) k' = obj_get o k'.
Proof.
  intros Hne. unfold obj_put. destruct (String.eqb k "__proto__");
    [reflexivity | now apply obj_get_set_other].
Qed.

Lemma keys_obj_put o k v k' :
  In k' (keys (obj_put o k v)) -> k' = k \/ In k' (keys o).
Proof.
  unfold obj_put. destruct (String.eqb k "__proto__");
    [now right | apply keys_obj_set].
Qed.

Lemma obj_get_assign_frame (src : table V) o k :
  ~ In k (keys src) -> obj_get (obj_assign o src) k = obj_get o k.
Proof.
  unfold obj_assign, keys. revert o.
  induction src as [|[k0 v0] src IH]; simpl; intros o Hn; [reflexivity|].
  rewrite IH by tauto. apply obj_get_put_other. intros ->. tauto.
Qed.

Lemma obj_get_assign_source (src : table V) o k v :
  k <> "__proto__" ->
  NoDup (keys src) -> obj_get src k = Some v ->
  obj_get (obj_assign o src) k = Some v.
Proof.
  intros Hk. unfold obj_assign, keys. revert o.
  induction src as [|[k0 v0] src IH]; simpl; intros o Hnd H; [discriminate|].
  inversion Hnd as [|? ? Hni Hnd']; subst.
  destruct (String.eqb k0 k) eqn:E.
  - apply String.eqb_eq in E. subst k0. injection H as ->.
    change (obj_get (obj_assign (obj_put o k v) src) k = Some v).
    rewrite obj_get_assign_frame by exact Hni. now apply obj_get_put_same.
  - now apply IH.
Qed.

Lemma keys_obj_assign (src : table V) o k :
  In k (keys (obj_assign o src)) -> In k (keys o) \/ In k (keys src).
Proof.
  unfold obj_assign. revert o.
  induction src as [|[k0 v0] src IH]; simpl; intros o H; [now left|].
  apply IH in H as [H|H].
  - apply keys_obj_put in H as [->|H]; [right; now left | now left].
  - right. now right.
Qed.

End TableFacts.

(** Assignment keeps the keys unique. *)
Section TableKeys.
Variable V : Type.
Implicit Types (o : table V) (k : string) (v : V).

Lemma keys_obj_update o k v : keys (obj_update o k v) = keys o.
Proof.
  unfold keys. induction o as [|[k' v'] o IH]; simpl; [reflexivity|].
  destruct (String.eqb k' k) eqn:E; simpl.
  - apply String.eqb_eq in E. now subst.
  - now rewrite IH.
Qed.

Lemma keys_obj_insert_index o n k v :
  Add k (keys o) (keys (obj_insert_index o n k v)).
Proof.
  unfold keys. induction o as [|[k' v'] o IH]; simpl.
  - constructor.
  - destruct (array_index k') as [m|]; [destruct (m <? n)%N|]; simpl;
      constructor; assumption.
Qed.

Lemma keys_obj_set_Add o k v :
  obj_has o k = false -> Add k (keys o) (keys (obj_set o k v)).
Proof.
  intros H. unfold obj_set. rewrite H. destruct (array_index k).
  - apply keys_obj_insert_index.
  - unfold keys. rewrite map_app. simpl.
    rewrite <- (app_nil_r (map fst o)) at 1. apply Add_app.
Qed.

Lemma NoDup_keys_obj_set o k v :
  NoDup (keys o) -> NoDup (keys (obj_set o k v)).
Proof.
  intros Hnd. destruct (obj_has o k) eqn:H.
  - unfold obj_set. rewrite H. now rewrite keys_obj_update.
  - apply (NoDup_Add (keys_obj_set_Add o k v H)). split; [assumption|].
    unfold obj_has in H. apply obj_get_None.
    destruct (obj_get o k); [discriminate | reflexivity].
Qed.

Lemma NoDup_keys_obj_put o k v :
  NoDup (keys o) -> NoDup (keys (obj_put o k v)).
Proof.
  unfold obj_put. destruct (String.eqb k "__proto__");
    [trivial | apply NoDup_keys_obj_set].
Qed.

Lemma NoDup_keys_obj_assign (src : table V) o :
  NoDup (keys o) -> NoDup (keys (obj_assign o src)).
Proof.
  unfold obj_assign. revert o.
  induction src as [|[k0 v0] src IH]; simpl; intros o H; [assumption|].
  apply IH. now apply NoDup_keys_obj_put.
Qed.

Lemma obj_set_nil k v : obj_set (@nil (string * V)) k v = [(k, v)].
Proof. unfold obj_set. simpl. now destruct (array_index k). Qed.

Lemma obj_put_nil k v :
  k <> "__proto__" -> obj_put (@nil (string * V)) k v = [(k, v)].
Proof. intros Hk. rewrite (obj_put_set _ _ _ _ Hk). apply obj_set_nil. Qed.

End TableKeys.

(** A property of the values held is kept by assignment. *)
Section TableValues.
Variable V : Type.
Variable Q : V -> Prop.
Implicit Types (o : table V) (k : string) (v : V).

Lemma Forall_obj_update o k v :
  Q v -> Forall (fun kv => Q (snd kv)) o ->
  Forall (fun kv => Q (snd kv)) (obj_update o k v).
Proof.
  intros Hv. induction 1 as [|[k' v'] o Hh Ht IH]; cbn [obj_update];
    [constructor|].
  destruct (String.eqb k' k); constructor; assumption.
Qed.

Lemma Forall_obj_insert_index o n k v :
  Q v -> Forall (fun kv => Q (snd kv)) o ->
  Forall (fun kv => Q (snd kv)) (obj_insert_index o n k v).
Proof.
  intros Hv. induction 1 as [|[k' v'] o Hh Ht IH]; cbn [obj_insert_index].
  - now repeat constructor.
  - destruct (array_index k') as [m|]; [destruct (m <? n)%N|];
      repeat constructor; assumption.
Qed.

Lemma Forall_obj_set o k v :
  Q v -> Forall (fun kv => Q (snd kv)) o ->
  Forall (fun kv => Q (snd kv)) (obj_set o k v).
Proof.
  intros Hv Ho. unfold obj_set. destruct (obj_has o k).
  - now apply Forall_obj_update.
  - destruct (array_index k) as [n|].
    + now apply Forall_obj_insert_index.
    + apply Forall_app. split; [assumption | now repeat constructor].
Qed.

Lemma Forall_obj_put o k v :
  Q v -> Forall (fun kv => Q (snd kv)) o ->
  Forall (fun kv => Q (snd kv)) (obj_put o k v).
Proof.
  intros Hv Ho. unfold obj_put. destruct (String.eqb k "__proto__");
    [assumption | now apply Forall_obj_set].
Qed.

Lemma Forall_obj_assign (src : table V) o :
  Forall (fun kv => Q (snd kv)) src -> Forall (fun kv => Q (snd kv)) o ->
  Forall (fun kv => Q (snd kv)) (obj_assign o src).
Proof.
  unfold obj_assign. intros Hsrc. revert o.
  induction Hsrc as [|[k v] src Hh Ht IH]; intros o Ho; [assumption|].
  cbn [fold_left fst snd]. apply IH. now apply Forall_obj_put.
Qed.

End TableValues.

(** Assignments of converted values, one per property of the source. *)
Section TableSpread.
Variables V W : Type.

Lemma obj_get_fold_set (f : W -> V) (src : table W) :
  NoDup (keys src) ->
  forall (o : table V) k,
  obj_get (fold_left (fun acc kv => obj_set acc (fst kv) (f (snd kv))) src o) k =
  match obj_get src k with
  | Some w => Some (f w)
  | None => obj_get o k
  end.
Proof.
  induction src as [|[k0 w0] src IH]; intros Hnd o k; [reflexivity|].
  cbn [keys map fst] in Hnd. apply NoDup_cons_iff in Hnd as [Hfresh Hnd].
  cbn [fold_left fst snd obj_get]. rewrite (IH Hnd).
  destruct (String.eqb k0 k) eqn:E.
  - apply String.eqb_eq in E. subst k0.
    assert (obj_get src k = None) as -> by now apply obj_get_None.
    apply obj_get_set_same.
  - destruct (obj_get src k); [reflexivity|].
    apply obj_get_set_other. intros ->. now rewrite String.eqb_refl in E.
Qed.

End TableSpread.

(** ** Reductions *)

Lemma reduce_invariant {A B : Type} (f : B -> A -> completion B)
  (I : B -> Prop) (xs : list A) :
  (forall a x a', In x xs -> f a x = Normal a' -> I a -> I a') ->
  forall init r, I init -> reduce f xs init = Normal r -> I r.
Proof.
  induction xs as [|x xs IH]; simpl; intros Hstep init r Hinit Hr.
  - injection Hr as <-. assumption.
  - destruct (f init x) as [a'|e] eqn:E; simpl in Hr; [|discriminate].
    apply (IH (fun a y a' Hy => Hstep a y a' (or_intror Hy)) a' r); eauto.
Qed.

Lemma reduce_total {A B : Type} (f : B -> A -> completion B) (xs : list A) :
  (forall a x, In x xs -> exists a', f a x = Normal a') ->
  forall init, exists r, reduce f xs init = Normal r.
Proof.
  induction xs as [|x xs IH]; simpl; intros Hstep init; [eauto|].
  destruct (Hstep init x (or_introl eq_refl)) as [a' ->]. simpl.
  apply IH. intros a y Hy. apply Hstep. now right.
Qed.

Lemma reduce_ext {A B : Type} (f g : B -> A -> completion B) (xs : list A) :
  (forall a x, f a x = g a x) ->
  forall init, reduce f xs init = reduce g xs init.
Proof.
  intros Hfg. induction xs as [|x xs IH]; intros init; [reflexivity|].
  cbn [reduce]. rewrite Hfg. destruct (g init x); cbn [bind]; auto.
Qed.

(** What a reduction or a map throws, one of its callbacks threw; and a
    callback that always throws on an element stops the loop. *)
Lemma reduce_throws {A B : Type} (f : B -> A -> completion B) (P : exn -> Prop)
  (xs : list A) :
  (forall a x e, In x xs -> f a x = Throw e -> P e) ->
  forall init e, reduce f xs init = Throw e -> P e.
Proof.
  induction xs as [|x xs IH]; intros Hf init e H; [discriminate|].
  cbn [reduce] in H. destruct (f init x) as [a|e'] eqn:E; cbn [bind] in H.
  - apply (IH (fun a x e Hin => Hf a x e (or_intror Hin)) a e H).
  - injection H as <-. apply (Hf init x e' (or_introl eq_refl) E).
Qed.

Lemma reduce_stops {A B : Type} (f : B -> A -> completion B) (xs : list A) x :
  In x xs -> (forall a, exists e, f a x = Throw e) ->
  forall init, exists e, reduce f xs init = Throw e.
Proof.
  induction xs as [|y xs IH]; intros Hin Hx init; [destruct Hin|].
  cbn [reduce]. destruct Hin as [->|Hin].
  - destruct (Hx init) as [e ->]. now exists e.
  - destruct (f init y) as [a|e]; cbn [bind]; [now apply IH | now exists e].
Qed.

Lemma map_c_throws {A B : Type} (f : A -> completion B) (P : exn -> Prop)
  (xs : list A) :
  (forall x e, In x xs -> f x = Throw e -> P e) ->
  forall e, map_c f xs = Throw e -> P e.
Proof.
  induction xs as [|x xs IH]; intros Hf e H; [discriminate|].
  cbn [map_c] in H. destruct (f x) as [y|e'] eqn:E; cbn [bind] in H.
  - destruct (map_c f xs) as [ys|e''] eqn:E'; cbn [bind] in H; [discriminate|].
    injection H as <-.
    apply (IH (fun x e Hin => Hf x e (or_intror Hin)) e'' eq_refl).
  - injection H as <-. apply (Hf x e' (or_introl eq_refl) E).
Qed.

Lemma map_c_stops {A B : Type} (f : A -> completion B) (xs : list A) x e :
  In x xs -> f x = Throw e -> exists e', map_c f xs = Throw e'.
Proof.
  induction xs as [|y xs IH]; intros Hin Hx; [destruct Hin|].
  cbn [map_c]. destruct Hin as [->|Hin].
  - rewrite Hx. now exists e.
  - destruct (f y) as [b|e0]; cbn [bind]; [|now exists e0].
    destruct (IH Hin Hx) as [e' ->]. now exists e'.
Qed.


Lemma map_c_total {A B : Type} (f : A -> completion B) (xs : list A) :
  (forall x, In x xs -> exists y, f x = Normal y) ->
  exists ys, map_c f xs = Normal ys.
Proof.
  induction xs as [|x xs IH]; intros Hf; [now exists []|].
  cbn [map_c]. destruct (Hf x (or_introl eq_refl)) as [y ->].
  destruct (IH (fun x Hin => Hf x (or_intror Hin))) as [ys ->].
  now exists (y :: ys).
Qed.

Lemma map_c_succeeded {A B : Type} (f : A -> completion B) (xs : list A) :
  succeeded (map_c f xs) = forallb (fun x => succeeded (f x)) xs.
Proof.
  induction xs as [|x xs IH]; [reflexivity|].
  cbn [map_c forallb]. destruct (f x); cbn [bind succeeded andb];
    [|reflexivity].
  rewrite <- IH. now destruct (map_c f xs).
Qed.


Lemma succeeded_bind {A B : Type} (c : completion A) (k : A -> completion B) :
  succeeded (bind c k) =
  match c with
  | Normal a => succeeded (k a)
  | Throw _ => false
  end.
Proof. now destruct c. Qed.


Lemma bind_Normal_inv {A B : Type} (c : completion A) (k : A -> completion B) b :
  bind c k = Normal b -> exists a, c = Normal a /\ k a = Normal b.
Proof. destruct c as [a|e]; [|discriminate]. intros H. now exists a. Qed.


(** ** The Flattener *)

Section Flattener.
Context {number : Type} {NUM : JSNumber number}.
Implicit Types (v d x : @value number) (obj g props rest : @object number).
Implicit Types (acc m sub : @flat number) (prefix k key s : string).

(** Induction over a token tree, with the hypothesis for every element of
    an array and every property of an object. *)
Lemma value_induction (P : @value number -> Prop) :
  P VNull ->
  (forall b, P (VBool b)) ->
  (forall n, P (VNum n)) ->
  (forall s, P (VStr s)) ->
  (forall items, Forall P items -> P (VArr items)) ->
  (forall props, Forall (fun kv => P (snd kv)) props -> P (VObj props)) ->
  forall v, P v.
Proof.
  intros Hnull Hbool Hnum Hstr Harr Hobj.
  fix IH 1. intros [| b | n | s | items | props].
  - exact Hnull.
  - apply Hbool.
  - apply Hnum.
  - apply Hstr.
  - apply Harr. induction items as [|y items IHitems]; constructor.
    + apply IH.
    + exact IHitems.
  - apply Hobj. induction props as [|[k0 y] props IHprops]; constructor.
    + apply IH.
    + exact IHprops.
Qed.

(** [flattenObject] is the reduce of its callback over the properties. *)
Lemma flattenObject_reduce obj prefix :
  flattenObject obj prefix = flatten_entries prefix [] obj.
Proof.
  unfold flattenObject, flatten_entries. simpl.
  generalize (@nil (string * @value number)).
  induction obj as [|e obj IH]; intros acc; simpl; [reflexivity|].
  destruct (flatten_callback flatten_value prefix acc e); simpl; auto.
Qed.

Lemma flatten_value_obj props prefix :
  flatten_value (VObj props) prefix = flattenObject props prefix.
Proof. reflexivity. Qed.

Lemma flatten_entries_nil prefix acc :
  flatten_entries prefix acc [] = Normal acc.
Proof. reflexivity. Qed.

Lemma flatten_entries_cons prefix acc e rest :
  flatten_entries prefix acc (e :: rest) =
  (acc' <- flatten_callback flatten_value prefix acc e ;;
   flatten_entries prefix acc' rest).
Proof. reflexivity. Qed.

Lemma flatten_entries_app prefix acc obj rest :
  flatten_entries prefix acc (obj ++ rest)%list =
  (acc' <- flatten_entries prefix acc obj ;; flatten_entries prefix acc' rest).
Proof.
  revert acc. induction obj as [|e obj IH]; intros acc; [reflexivity|].
  simpl app. rewrite !flatten_entries_cons.
  destruct (flatten_callback flatten_value prefix acc e); simpl; auto.
Qed.

(** *** The callback, case by case *)

Lemma callback_scalar self prefix acc k v :
  is_scalar v = true ->
  flatten_callback self prefix acc (k, v) =
  Normal (obj_put acc (pre_of prefix ++ k) v).
Proof. destruct v; simpl; intros H; try discriminate; reflexivity. Qed.

Lemma callback_array self prefix acc k items :
  flatten_callback self prefix acc (k, VArr items) = Normal acc.
Proof. reflexivity. Qed.

Lemma callback_metadata self prefix acc k g :
  startsWith k "$" = true ->
  flatten_callback self prefix acc (k, VObj g) = Normal acc.
Proof. intros H. unfold flatten_callback. simpl. now rewrite H. Qed.

Lemma callback_wrapper self prefix acc k g s :
  startsWith k "$" = false ->
  obj_get g "value" = Some (VStr s) ->
  flatten_callback self prefix acc (k, VObj g) =
  Normal (obj_put acc (pre_of prefix ++ k) (VStr s)).
Proof. intros H1 H2. unfold flatten_callback. simpl. now rewrite H1, H2. Qed.

Lemma callback_default self prefix acc k g d :
  startsWith k "$" = false ->
  string_valued g = false ->
  obj_get g "DEFAULT" = Some d ->
  flatten_callback self prefix acc (k, VObj g) =
  (sub <- self (VObj g) (pre_of prefix ++ k) ;;
   Normal (obj_assign (obj_put acc (pre_of prefix ++ k) d) sub)).
Proof.
  intros H1 H2 H3. unfold flatten_callback, string_valued in *. simpl.
  rewrite H1, H3.
  destruct (obj_get g "value") as [[| | | |  | ]|]; try reflexivity; discriminate.
Qed.

(** A path through [fontFamily] has a dash in it: the assignment sets it. *)
Lemma font_path_not_proto prefix fk :
  pre_of prefix ++ "fontFamily" ++ "-" ++ fk <> "__proto__".
Proof. rewrite <- append_assoc. apply dashed_not_proto. Qed.

Lemma callback_fonts self prefix acc g :
  string_valued g = false ->
  obj_get g "DEFAULT" = None ->
  flatten_callback self prefix acc ("fontFamily", VObj g) =
  reduce (fun a fe =>
            v <- font_entry (snd fe) ;;
            Normal (obj_set a (pre_of prefix ++ "fontFamily" ++ "-" ++ fst fe) v))
         g acc.
Proof.
  intros H2 H3.
  transitivity
    (reduce (fun a fe =>
               v <- font_entry (snd fe) ;;
               Normal (obj_put a (pre_of prefix ++ "fontFamily" ++ "-" ++ fst fe) v))
            g acc).
  - unfold flatten_callback, string_valued in *. simpl. rewrite H3.
    destruct (obj_get g "value") as [[| | | |  | ]|];
      try reflexivity; discriminate.
  - apply reduce_ext. intros a fe.
    destruct (font_entry (snd fe)) as [w|e]; [|reflexivity]. cbn [bind].
    now rewrite (obj_put_set _ _ _ _ (font_path_not_proto prefix (fst fe))).
Qed.

Lemma callback_generic self prefix acc k g :
  startsWith k "$" = false ->
  string_valued g = false ->
  obj_get g "DEFAULT" = None ->
  String.eqb k "fontFamily" = false ->
  flatten_callback self prefix acc (k, VObj g) =
  (sub <- self (VObj g) (pre_of prefix ++ k) ;; Normal (obj_assign acc sub)).
Proof.
  intros H1 H2 H3 H4. unfold flatten_callback, string_valued in *. simpl.
  rewrite H1, H3, H4.
  destruct (obj_get g "value") as [[| | | |  | ]|]; try reflexivity; discriminate.
Qed.

(** *** Font lists *)

Lemma map_c_quote_font (names : list string) :
  map_c quote_font (map (@VStr number) names) =
  Normal (map (fun n => VStr (quote_name n)) names).
Proof.
  induction names as [|n names IH]; simpl; [reflexivity|].
  rewrite IH. reflexivity.
Qed.

Lemma join_values_strings sep (parts : list string) :
  join_values sep (map (@VStr number) parts) = Normal (join sep parts).
Proof.
  unfold join_values.
  assert (map_c (fun e : @value number =>
                   match e with
                   | VNull => Normal EmptyString
                   | _ => ToString e
                   end) (map (@VStr number) parts) = Normal parts) as ->.
  { induction parts as [|q parts IH]; simpl; [reflexivity|].
    rewrite IH. reflexivity. }
  reflexivity.
Qed.

(** The code's rendering of a font-name sequence is the specification's. *)
Lemma font_entry_names (names : list string) :
  font_entry (VArr (map (@VStr number) names)) = Normal (VStr (font_list names)).
Proof.
  unfold font_entry, font_list. rewrite map_c_quote_font. simpl.
  rewrite <- (map_map quote_name (@VStr number)).
  rewrite join_values_strings. reflexivity.
Qed.

Lemma strings_are_names (items : list (@value number)) :
  forallb is_string items = true -> exists names, items = map (@VStr number) names.
Proof.
  induction items as [|[| | | n | |] items IH]; simpl; intros H;
    try discriminate.
  - now exists [].
  - destruct (IH H) as [names ->]. now exists (n :: names).
Qed.

Lemma font_entry_total v :
  strings_only v = true -> exists w, font_entry v = Normal w.
Proof.
  destruct v as [| | | | items |]; intros H; try (simpl; eauto; fail).
  simpl in H. apply strings_are_names in H as [names ->].
  rewrite font_entry_names. eauto.
Qed.

(** *** Paths *)

Lemma pre_of_nonempty prefix :
  prefix <> EmptyString -> pre_of prefix = prefix ++ "-".
Proof. destruct prefix; [congruence | reflexivity]. Qed.

Lemma pre_of_extends prefix k : startsWith (pre_of (prefix ++ k)) prefix = true.
Proof.
  destruct (string_dec (prefix ++ k) EmptyString) as [E|E].
  - rewrite E. destruct prefix; [reflexivity | discriminate].
  - rewrite (pre_of_nonempty _ E), append_assoc. apply startsWith_append.
Qed.

Lemma startsWith_app_cancel a b c :
  startsWith (a ++ b) (a ++ c) = startsWith b c.
Proof.
  unfold startsWith. induction a as [|x a IH]; simpl; [reflexivity|].
  destruct (ascii_dec x x); [assumption | congruence].
Qed.

Lemma startsWith_longer a b :
  b <> EmptyString -> startsWith a (a ++ b) = false.
Proof.
  intros Hb. destruct (startsWith a (a ++ b)) eqn:E; [|reflexivity].
  apply startsWith_inv in E as [r E]. exfalso.
  apply (f_equal String.length) in E. rewrite !append_length in E.
  destruct b; [congruence | simpl in E; lia].
Qed.

Lemma string_valued_inv g :
  string_valued g = true -> exists s, obj_get g "value" = Some (VStr s).
Proof.
  unfold string_valued.
  destruct (obj_get g "value") as [[| | | s | |]|]; try discriminate. eauto.
Qed.

(** The case analysis of the callback on an object-valued property. *)
Ltac callback_cases k g :=
  let Hmeta := fresh "Hmeta" in
  let Hsv := fresh "Hsv" in
  let Hval := fresh "Hval" in
  let Hdef := fresh "Hdef" in
  let Hff := fresh "Hff" in
  let s := fresh "s" in
  let d := fresh "d" in
  destruct (startsWith k "$") eqn:Hmeta;
  [ rewrite (callback_metadata _ _ _ _ _ Hmeta) in *
  | destruct (string_valued g) eqn:Hsv;
    [ destruct (string_valued_inv _ Hsv) as [s Hval];
      rewrite (callback_wrapper _ _ _ _ _ _ Hmeta Hval) in *
    | destruct (obj_get g "DEFAULT") as [d|] eqn:Hdef;
      [ rewrite (callback_default _ _ _ _ _ _ Hmeta Hsv Hdef) in *
      | destruct (String.eqb k "fontFamily") eqn:Hff;
        [ apply String.eqb_eq in Hff; subst k;
          rewrite (callback_fonts _ _ _ _ Hsv Hdef) in *
        | rewrite (callback_generic _ _ _ _ _ Hmeta Hsv Hdef Hff) in * ] ] ] ].

(** Every path the Flattener emits extends the accumulated prefix. *)
Lemma flatten_keys_prefix v :
  forall prefix m, flatten_value v prefix = Normal m ->
  forall K, In K (keys m) -> startsWith K (pre_of prefix) = true.
Proof.
  induction v as [| | | | items _ | props IH] using value_induction;
    try (simpl; intros prefix m [= <-] K []).
  intros prefix m. rewrite flatten_value_obj, flattenObject_reduce.
  unfold flatten_entries.
  apply (reduce_invariant _
           (fun a => forall K, In K (keys a) ->
                               startsWith K (pre_of prefix) = true));
    [| intros K []].
  intros acc [k x] acc' Hin Hstep Hacc K HK.
  rewrite Forall_forall in IH. specialize (IH _ Hin). simpl in IH.
  assert (forall w, In K (keys (obj_put acc (pre_of prefix ++ k) w)) ->
                    startsWith K (pre_of prefix) = true) as Hset.
  { intros w Hw. apply keys_obj_put in Hw as [->|Hw]; auto.
    apply startsWith_append. }
  assert (forall sub, flatten_value x (pre_of prefix ++ k) = Normal sub ->
                      In K (keys sub) ->
                      startsWith K (pre_of prefix) = true) as Hsub.
  { intros sub Hs Hk. apply (IH _ _ Hs) in Hk.
    apply (startsWith_trans _ _ _ Hk). apply pre_of_extends. }
  destruct x as [| b | n | s | items | g].
  - injection Hstep as <-. auto.
  - injection Hstep as <-. auto.
  - injection Hstep as <-. eauto.
  - injection Hstep as <-. eauto.
  - injection Hstep as <-. auto.
  - callback_cases k g.
    + injection Hstep as <-. auto.
    + injection Hstep as <-. eauto.
    + destruct (flatten_value (VObj g) (pre_of prefix ++ k)) as [sub|] eqn:Es;
        simpl in Hstep; [|discriminate].
      injection Hstep as <-. apply keys_obj_assign in HK as [HK|HK]; eauto.
    + clear Hset Hsub. revert K HK.
      refine (reduce_invariant _
                (fun a => forall K, In K (keys a) ->
                                    startsWith K (pre_of prefix) = true)
                g _ acc acc' Hacc Hstep).
      intros a fe a' _ Hfe Ha K HK.
      destruct (font_entry (snd fe)) as [w|]; simpl in Hfe; [|discriminate].
      injection Hfe as <-. apply keys_obj_set in HK as [->|HK]; auto.
      apply startsWith_append.
    + destruct (flatten_value (VObj g) (pre_of prefix ++ k)) as [sub|] eqn:Es;
        simpl in Hstep; [|discriminate].
      injection Hstep as <-. apply keys_obj_assign in HK as [HK|HK]; eauto.
Qed.

(** The flat map never holds a path twice. *)
Lemma flatten_entries_NoDup prefix obj :
  forall acc m, NoDup (keys acc) ->
  flatten_entries prefix acc obj = Normal m -> NoDup (keys m).
Proof.
  unfold flatten_entries.
  apply (reduce_invariant _ (fun a => NoDup (keys a))).
  intros acc [k x] acc' _ Hstep Hacc.
  destruct x as [| b | n | s | items | g];
    try (injection Hstep as <-; auto using NoDup_keys_obj_put; fail).
  callback_cases k g.
  - injection Hstep as <-. assumption.
  - injection Hstep as <-. now apply NoDup_keys_obj_put.
  - destruct (flatten_value (VObj g) (pre_of prefix ++ k)) as [sub|];
      simpl in Hstep; [|discriminate].
    injection Hstep as <-.
    now apply NoDup_keys_obj_assign, NoDup_keys_obj_put.
  - refine (reduce_invariant _ (fun a => NoDup (keys a)) g _ acc acc' Hacc Hstep).
    intros a fe a' _ Hfe Ha.
    destruct (font_entry (snd fe)) as [w|]; simpl in Hfe; [|discriminate].
    injection Hfe as <-. now apply NoDup_keys_obj_set.
  - destruct (flatten_value (VObj g) (pre_of prefix ++ k)) as [sub|];
      simpl in Hstep; [|discriminate].
    injection Hstep as <-. now apply NoDup_keys_obj_assign.
Qed.

Lemma flattenObject_NoDup obj prefix m :
  flattenObject obj prefix = Normal m -> NoDup (keys m).
Proof.
  rewrite flattenObject_reduce. apply flatten_entries_NoDup. constructor.
Qed.

(** A document whose arrays are sequences of strings flattens without
    an exception. *)
Lemma flatten_total v :
  strings_only v = true ->
  forall prefix, exists m, flatten_value v prefix = Normal m.
Proof.
  induction v as [| | | | items _ | props IH] using value_induction;
    try (simpl; eauto; fail).
  intros Hs prefix. rewrite flatten_value_obj, flattenObject_reduce.
  unfold flatten_entries. apply reduce_total.
  intros acc [k x] Hin. simpl in Hs. rewrite forallb_forall in Hs.
  rewrite Forall_forall in IH.
  specialize (Hs _ Hin). specialize (IH _ Hin). simpl in Hs, IH.
  destruct x as [| b | n | s | items | g]; try (eexists; reflexivity).
  destruct (IH Hs (pre_of prefix ++ k)) as [sub Hsub].
  callback_cases k g; try rewrite Hsub; simpl; eauto.
  apply reduce_total. intros a fe Hfe.
  simpl in Hs. rewrite forallb_forall in Hs.
  destruct (font_entry_total (snd fe) (Hs _ Hfe)) as [w ->]. simpl. eauto.
Qed.




(** *** Metadata keys *)

(** A metadata key holding an object is left out, with all it holds. *)
Lemma metadata_object_skipped prefix obj k g rest :
  startsWith k "$" = true ->
  flattenObject (obj ++ (k, VObj g) :: rest)%list prefix =
  flattenObject (obj ++ rest)%list prefix.
Proof.
  intros Hmeta. rewrite !flattenObject_reduce, !flatten_entries_app.
  destruct (flatten_entries prefix [] obj) as [acc|e]; [|reflexivity].
  simpl. rewrite flatten_entries_cons, (callback_metadata _ _ _ _ _ Hmeta).
  reflexivity.
Qed.

(** A metadata key holding a scalar is emitted like any other key. *)
Lemma metadata_scalar_emitted prefix acc k v rest :
  is_scalar v = true ->
  flatten_entries prefix acc ((k, v) :: rest) =
  flatten_entries prefix (obj_put acc (pre_of prefix ++ k) v) rest.
Proof.
  intros Hv. rewrite flatten_entries_cons, callback_scalar by assumption.
  reflexivity.
Qed.

(** *** Arrays met at a token path *)

(** C2, as amended.  A property of the object being reduced that holds an
    array raises nothing: the step on it leaves the accumulator as it is,
    whatever the array holds, so flattening the object gives what
    flattening it without that property gives (the same flat map, or the
    same exception of another property). *)
Theorem array_token_skipped prefix obj k items rest :
  flattenObject (obj ++ (k, VArr items) :: rest)%list prefix =
  flattenObject (obj ++ rest)%list prefix.
Proof.
  rewrite !flattenObject_reduce, !flatten_entries_app.
  destruct (flatten_entries prefix [] obj) as [acc|e]; [|reflexivity].
  simpl. rewrite flatten_entries_cons, callback_array. reflexivity.
Qed.

(** *** Value wrappers *)

(** C5, as amended.  Under a key that is no metadata key, at a parent path
    other than [__proto__], a nested object whose [value] property holds a
    string is collapsed to that string at the parent path and not descended
    into: wherever the reduction stands, the step is the one assignment at
    the parent path, and the object alone flattens to that single entry. *)
Theorem string_wrapper_collapses prefix k g s :
  startsWith k "$" = false ->
  pre_of prefix ++ k <> "__proto__" ->
  obj_get g "value" = Some (VStr s) ->
  (forall acc rest,
     flatten_entries prefix acc ((k, VObj g) :: rest) =
     flatten_entries prefix (obj_set acc (pre_of prefix ++ k) (VStr s)) rest)
  /\ flattenObject [(k, VObj g)] prefix =
     Normal [(pre_of prefix ++ k, VStr s)].
Proof.
  intros Hmeta Hproto Hval. split.
  - intros acc rest. rewrite flatten_entries_cons.
    rewrite (callback_wrapper _ _ _ _ _ _ Hmeta Hval).
    rewrite (obj_put_set _ _ _ _ Hproto). reflexivity.
  - rewrite flattenObject_reduce, flatten_entries_cons.
    rewrite (callback_wrapper _ _ _ _ _ _ Hmeta Hval). simpl.
    rewrite (obj_put_nil _ _ _ Hproto). reflexivity.
Qed.

(** *** Groups with a DEFAULT *)

Lemma path_nonempty prefix k :
  k <> EmptyString -> prefix ++ k <> EmptyString.
Proof.
  intros Hk H. destruct prefix; simpl in H; [contradiction | discriminate].
Qed.


(** Below a path that is not empty every path has a dash in it. *)
Lemma below_not_proto p s : p <> EmptyString -> pre_of p ++ s <> "__proto__".
Proof.
  intros Hp. rewrite (pre_of_nonempty _ Hp), append_assoc.
  apply dashed_not_proto.
Qed.

Lemma path_not_proto prefix k :
  k <> "__proto__" -> pre_of prefix ++ k <> "__proto__".
Proof.
  intros Hk. destruct (string_dec prefix EmptyString) as [->|Hp];
    [exact Hk | now apply below_not_proto].
Qed.

Lemma flatten_below_no_proto p g sub :
  p <> EmptyString -> flattenObject g p = Normal sub ->
  obj_get sub "__proto__" = None.
Proof.
  intros Hp Hsub. apply obj_get_None. intros Hin.
  apply (flatten_keys_prefix _ _ _ Hsub) in Hin.
  apply startsWith_inv in Hin as [r E].
  exact (below_not_proto p r Hp (eq_sym E)).
Qed.







(** *** Font families *)

Lemma digits_value_digits t :
  forall start n, digits_value t start = Some n ->
  forall a c b, t = a ++ String c b -> is_digit c = true.
Proof.
  induction t as [|c0 t IH]; intros start n H a c b E.
  - destruct a; discriminate.
  - simpl in H. destruct (is_digit c0) eqn:D; [|discriminate].
    destruct a as [|c1 a]; simpl in E; injection E as E1 E2.
    + now subst.
    + exact (IH _ _ H _ _ _ E2).
Qed.

Lemma array_index_digits t n :
  array_index t = Some n ->
  forall a c b, t = a ++ String c b -> is_digit c = true.
Proof.
  unfold array_index. destruct t as [|c0 t]; [discriminate|].
  destruct (Nat.eqb (nat_of_ascii c0) 48 && negb (String.eqb t EmptyString));
    [discriminate|].
  destruct (digits_value (String c0 t) 0) as [m|] eqn:E; [|discriminate].
  intros _. exact (digits_value_digits _ _ _ E).
Qed.

Lemma font_path_no_index prefix fk :
  array_index (prefix ++ "fontFamily" ++ "-" ++ fk) = None.
Proof.
  destruct (array_index (prefix ++ "fontFamily" ++ "-" ++ fk)) eqn:E;
    [exfalso | reflexivity].
  pose proof (array_index_digits _ _ E prefix "f"%char
                ("ontFamily" ++ "-" ++ fk) eq_refl) as H.
  discriminate H.
Qed.

Lemma obj_set_fresh acc key v :
  obj_get acc key = None -> array_index key = None ->
  obj_set acc key v = (acc ++ [(key, v)])%list.
Proof. intros H1 H2. unfold obj_set, obj_has. now rewrite H1, H2. Qed.

(** The path and the rendered value of a font-name sequence. *)
Lemma font_reduce prefix (fg : list (string * list string)) :
  forall acc,
  reduce (fun a fe =>
            v <- font_entry (snd fe) ;;
            Normal (obj_set a (pre_of prefix ++ "fontFamily" ++ "-" ++ fst fe) v))
         (font_group fg) acc =
  Normal (fold_left
            (fun a e => obj_set a (pre_of prefix ++ "fontFamily" ++ "-" ++ fst e)
                          (VStr (font_list (snd e))))
            fg acc).
Proof.
  induction fg as [|[fk names] fg IH]; intros acc; [reflexivity|].
  unfold font_group. simpl map. unfold reduce; fold @reduce.
  simpl snd. rewrite font_entry_names. simpl bind. apply IH.
Qed.

Lemma font_fold_fresh prefix (fg : list (string * list string)) :
  NoDup (map fst fg) ->
  forall acc,
  (forall e, In e fg ->
     obj_get acc (pre_of prefix ++ "fontFamily" ++ "-" ++ fst e) = None) ->
  fold_left
    (fun a e => obj_set a (pre_of prefix ++ "fontFamily" ++ "-" ++ fst e)
                  (VStr (font_list (snd e))))
    fg acc =
  app acc (map (fun e => (pre_of prefix ++ "fontFamily" ++ "-" ++ fst e,
                          @VStr number (font_list (snd e)))) fg).
Proof.
  induction fg as [|[fk names] fg IH]; intros Hnd acc Hacc.
  - simpl. now rewrite app_nil_r.
  - simpl map in *. inversion Hnd as [|? ? Hni Hnd']; subst.
    unfold fold_left; fold (@fold_left (@flat number) (string * list string)).
    rewrite obj_set_fresh;
      [| apply (Hacc (fk, names)); now left | apply font_path_no_index].
    rewrite IH; [now rewrite <- app_assoc | assumption |].
    intros e He. rewrite obj_get_app, Hacc by now right.
    simpl. destruct (String.eqb _ _) eqn:E; [|reflexivity].
    apply String.eqb_eq in E. apply append_inv_head in E.
    injection E as E. exfalso. apply Hni.
    rewrite E. now apply in_map.
Qed.

Lemma font_group_get (fg : list (string * list string)) key :
  obj_get (font_group fg) key =
  option_map (fun names => VArr (map (@VStr number) names)) (obj_get fg key).
Proof.
  induction fg as [|[fk names] fg IH]; simpl; [reflexivity|].
  destruct (String.eqb fk key); [reflexivity | exact IH].
Qed.

(** C7, as amended.  A font-family group with no [DEFAULT] entry, met under
    the [fontFamily] key, gives the flat map one entry per entry-key, at the
    path of that key, holding the font-name sequence joined with a comma and
    a space, the names with a space wrapped in double quotes and the others
    left as they are.  Wherever the reduction stands, the step on the
    [fontFamily] key is those assignments, one per entry-key in order.  The
    last conjunct is the example of the specification. *)
Theorem font_family_joined prefix (fg : list (string * list string)) :
  ~ In "DEFAULT" (map fst fg) ->
  NoDup (map fst fg) ->
  flattenObject [("fontFamily", VObj (font_group fg))] prefix =
  Normal (map (fun e => (pre_of prefix ++ "fontFamily" ++ "-" ++ fst e,
                         VStr (font_list (snd e)))) fg)
  /\ (forall acc rest,
        flatten_entries prefix acc (("fontFamily", VObj (font_group fg)) :: rest) =
        flatten_entries prefix
          (fold_left
             (fun a e => obj_set a (pre_of prefix ++ "fontFamily" ++ "-" ++ fst e)
                           (VStr (font_list (snd e))))
             fg acc)
          rest)
  /\ flattenObject
       [("typography",
         VObj [("fontFamily",
                VObj [("sans", VArr [VStr "Inter"; VStr "system-ui"])])])]
       EmptyString
     = Normal [("typography-fontFamily-sans", VStr "Inter, system-ui")].
Proof.
  intros Hdef Hnd.
  assert (string_valued (@font_group number fg) = false) as Hsv.
  { unfold string_valued. rewrite font_group_get.
    now destruct (obj_get fg "value"). }
  assert (obj_get (@font_group number fg) "DEFAULT" = None) as Hnone.
  { rewrite font_group_get.
    destruct (obj_get fg "DEFAULT") as [names|] eqn:E; [|reflexivity].
    exfalso. apply Hdef. apply obj_get_In in E.
    apply in_map_iff. now exists ("DEFAULT", names). }
  split; [|split; [|reflexivity]].
  - rewrite flattenObject_reduce, flatten_entries_cons.
    rewrite (callback_fonts _ _ _ _ Hsv Hnone), font_reduce. simpl bind.
    rewrite flatten_entries_nil. f_equal. now apply font_fold_fresh.
  - intros acc rest. rewrite flatten_entries_cons.
    rewrite (callback_fonts _ _ _ _ Hsv Hnone), font_reduce. reflexivity.
Qed.

(** *** Paths below a group *)

(** X1.  Under a key that is no metadata key, at a path that is not empty,
    a nested object that has no string [value] and no [DEFAULT] emits
    nothing at its own path: taken alone, it flattens to entries that all
    lie strictly below, at a path that starts with the object's path and a
    dash. *)
Theorem nested_group_emits_below_its_path prefix k g m :
  startsWith k "$" = false ->
  string_valued g = false ->
  obj_get g "DEFAULT" = None ->
  pre_of prefix ++ k <> EmptyString ->
  flattenObject [(k, VObj g)] prefix = Normal m ->
  obj_get m (pre_of prefix ++ k) = None /\
  forall K, In K (keys m) -> startsWith K (pre_of prefix ++ k ++ "-") = true.
Proof.
  intros Hmeta Hsv Hdef Hpath H.
  assert (forall K, In K (keys m) ->
                    startsWith K (pre_of prefix ++ k ++ "-") = true) as Hkeys.
  { rewrite flattenObject_reduce, flatten_entries_cons in H.
    destruct (String.eqb k "fontFamily") eqn:Hff.
    - apply String.eqb_eq in Hff. subst k.
      rewrite (callback_fonts _ _ _ _ Hsv Hdef) in H.
      match type of H with
      | context [bind ?c _] => destruct c as [acc|e] eqn:E
      end; cbn [bind] in H; [|discriminate].
      rewrite flatten_entries_nil in H. injection H as <-.
      refine (reduce_invariant _
                (fun a => forall K, In K (keys a) ->
                   startsWith K (pre_of prefix ++ "fontFamily" ++ "-") = true)
                g _ [] acc _ E); [|intros K []].
      intros a [fk fv] a' _ Hstep Ha K HK. cbn [fst snd] in Hstep.
      destruct (font_entry fv) as [w|e]; cbn [bind] in Hstep; [|discriminate].
      injection Hstep as <-.
      apply keys_obj_set in HK as [->|HK]; [|now apply Ha].
      rewrite !startsWith_app_cancel. exact (startsWith_append "-" fk).
    - rewrite (callback_generic _ _ _ _ _ Hmeta Hsv Hdef Hff) in H.
      destruct (flatten_value (VObj g) (pre_of prefix ++ k)) as [sub|e] eqn:E;
        cbn [bind] in H; [|discriminate].
      rewrite flatten_entries_nil in H. injection H as <-.
      intros K HK. apply keys_obj_assign in HK as [[]|HK].
      pose proof (flatten_keys_prefix _ _ _ E K HK) as Hp.
      rewrite (pre_of_nonempty _ Hpath), append_assoc in Hp. exact Hp. }
  split; [|exact Hkeys].
  apply obj_get_None. intros Hin. specialize (Hkeys _ Hin).
  rewrite <- append_assoc in Hkeys.
  rewrite startsWith_longer in Hkeys; discriminate.
Qed.


(** X3.  Flat paths do not tell a dash in a key from a nesting: where [k1]
    is no metadata key and its path is not empty, and [k2] is neither
    [value] nor [DEFAULT], a scalar under the key [k1-k2] and the same
    scalar under [k2] inside an object under [k1] flatten to the same map,
    in any enclosing object. *)
Theorem dashed_key_is_nested_path prefix obj rest k1 k2 v :
  startsWith k1 "$" = false ->
  pre_of prefix ++ k1 <> EmptyString ->
  String.eqb k2 "value" = false ->
  String.eqb k2 "DEFAULT" = false ->
  is_scalar v = true ->
  flattenObject (app obj ((k1, VObj [(k2, v)]) :: rest)) prefix =
  flattenObject (app obj ((k1 ++ "-" ++ k2, v) :: rest)) prefix.
Proof.
  intros Hmeta Hpath Hval Hdef Hv.
  rewrite !flattenObject_reduce, !flatten_entries_app.
  destruct (flatten_entries prefix [] obj) as [acc|e]; cbn [bind];
    [|reflexivity].
  rewrite !flatten_entries_cons. f_equal.
  rewrite (callback_scalar _ _ _ _ _ Hv).
  assert (string_valued [(k2, v)] = false) as Hsv.
  { unfold string_valued. cbn [obj_get]. rewrite Hval.
    destruct (String.eqb "value" k2) eqn:E; [|reflexivity].
    apply String.eqb_eq in E. subst k2. discriminate. }
  assert (obj_get [(k2, v)] "DEFAULT" = None) as Hnodef.
  { cbn [obj_get]. destruct (String.eqb k2 "DEFAULT"); [discriminate|reflexivity]. }
  destruct (String.eqb k1 "fontFamily") eqn:Hff.
  - apply String.eqb_eq in Hff. subst k1.
    rewrite (callback_fonts _ _ _ _ Hsv Hnodef). cbn [reduce fst snd].
    assert (font_entry v = Normal v) as ->
      by (destruct v; try discriminate; reflexivity).
    cbn [bind].
    now rewrite (obj_put_set _ _ _ _ (font_path_not_proto prefix k2)).
  - rewrite (callback_generic _ _ _ _ _ Hmeta Hsv Hnodef Hff).
    rewrite flatten_value_obj, flattenObject_reduce, flatten_entries_cons.
    rewrite (callback_scalar _ _ _ _ _ Hv). cbn [bind].
    rewrite flatten_entries_nil. cbn [bind].
    rewrite (obj_put_nil _ _ _ (below_not_proto _ k2 Hpath)).
    cbn [obj_assign fold_left fst snd].
    rewrite (pre_of_nonempty _ Hpath). now rewrite !append_assoc.
Qed.


(** *** Errors

    Nothing but a [TypeError] leaves [flattenObject]. *)
Lemma ToString_throws v : forall e, ToString v = Throw e -> e = TypeError.
Proof.
  induction v as [|b|n|s|items IH|props IH] using value_induction; intros e H;
    try discriminate.
  - destruct b; discriminate.
  - cbn [ToString] in H.
    destruct (map_c _ items) as [parts|e'] eqn:E; cbn [bind] in H;
      [discriminate|].
    injection H as <-.
    refine (map_c_throws _ (fun e => e = TypeError) items _ _ E).
    intros x e Hin Hx. rewrite Forall_forall in IH.
    destruct x; try discriminate; apply (IH _ Hin _ Hx).
  - cbn [ToString] in H. destruct (obj_has props "toString"); [|discriminate].
    now injection H as <-.
Qed.

Lemma join_values_throws sep (xs : list (@value number)) e :
  join_values sep xs = Throw e -> e = TypeError.
Proof.
  unfold join_values. intros H.
  destruct (map_c _ xs) as [parts|e'] eqn:E; cbn [bind] in H; [discriminate|].
  injection H as <-.
  refine (map_c_throws _ (fun e => e = TypeError) xs _ _ E).
  intros x e Hin Hx. destruct x; try discriminate; apply (ToString_throws _ _ Hx).
Qed.

Lemma quote_font_throws x e : quote_font x = Throw e -> e = TypeError.
Proof.
  destruct x as [|b|n|s|items|props]; cbn [quote_font]; intros H;
    try (now injection H as <-); try discriminate.
  destruct (array_includes_space items); [|discriminate].
  destruct (ToString (VArr items)) as [s|e'] eqn:E; cbn [bind] in H;
    [discriminate|].
  injection H as <-. apply (ToString_throws _ _ E).
Qed.

Lemma font_entry_throws x e : font_entry x = Throw e -> e = TypeError.
Proof.
  destruct x as [|b|n|s|items|props]; cbn [font_entry]; intros H;
    try discriminate.
  destruct (map_c quote_font items) as [quoted|e'] eqn:E; cbn [bind] in H.
  - destruct (join_values ", " quoted) as [s|e''] eqn:E'; cbn [bind] in H;
      [discriminate|].
    injection H as <-. apply (join_values_throws _ _ _ E').
  - injection H as <-.
    refine (map_c_throws _ (fun e => e = TypeError) items _ _ E).
    intros x e _ Hx. apply (quote_font_throws _ _ Hx).
Qed.

Lemma font_loop_throws prefix g acc e :
  reduce (fun a fe =>
            v <- font_entry (snd fe) ;;
            Normal (obj_set a (pre_of prefix ++ "fontFamily" ++ "-" ++ fst fe) v))
         g acc = Throw e ->
  e = TypeError.
Proof.
  apply (reduce_throws _ (fun e => e = TypeError)).
  intros a [fk fv] e' _ H. cbn [fst snd] in H.
  destruct (font_entry fv) as [w|e''] eqn:E; cbn [bind] in H; [discriminate|].
  injection H as <-. apply (font_entry_throws _ _ E).
Qed.

Lemma flatten_value_throws v :
  forall prefix e, flatten_value v prefix = Throw e -> e = TypeError.
Proof.
  induction v as [|b|n|s|items IH|props IH] using value_induction;
    intros prefix e H; try discriminate.
  rewrite flatten_value_obj, flattenObject_reduce in H.
  unfold flatten_entries in H.
  apply (reduce_throws _ (fun e => e = TypeError) props) in H; [exact H|].
  clear H. intros a [k x] e' Hin H. rewrite Forall_forall in IH.
  specialize (IH _ Hin). cbn [snd] in IH.
  destruct x as [|b|n|s|items|g];
    try (cbn [flatten_callback fst snd] in H; discriminate).
  callback_cases k g; try discriminate.
  - destruct (flatten_value (VObj g) (pre_of prefix ++ k)) as [sub|e''] eqn:E;
      cbn [bind] in H; [discriminate|].
    injection H as <-. apply (IH _ _ E).
  - apply (font_loop_throws _ _ _ _ H).
  - destruct (flatten_value (VObj g) (pre_of prefix ++ k)) as [sub|e''] eqn:E;
      cbn [bind] in H; [discriminate|].
    injection H as <-. apply (IH _ _ E).
Qed.

Lemma flatten_entries_throws prefix acc obj e :
  flatten_entries prefix acc obj = Throw e -> e = TypeError.
Proof.
  unfold flatten_entries.
  apply (reduce_throws _ (fun e => e = TypeError)).
  intros a [k x] e' _ H.
  destruct x as [|b|n|s|items|g];
    try (cbn [flatten_callback fst snd] in H; discriminate).
  callback_cases k g; try discriminate.
  - destruct (flatten_value (VObj g) (pre_of prefix ++ k)) as [sub|e''] eqn:E;
      cbn [bind] in H; [discriminate|].
    injection H as <-. apply (flatten_value_throws _ _ _ E).
  - apply (font_loop_throws _ _ _ _ H).
  - destruct (flatten_value (VObj g) (pre_of prefix ++ k)) as [sub|e''] eqn:E;
      cbn [bind] in H; [discriminate|].
    injection H as <-. apply (flatten_value_throws _ _ _ E).
Qed.

(** X4.  The font loop calls [includes] on every element of a font list.
    In a [fontFamily] object that has no string [value] and no [DEFAULT], a
    list holding anything but strings and arrays (a number, a boolean,
    [null], an object) makes [flattenObject] throw a [TypeError], whatever
    the other properties of the enclosing object are. *)
Theorem font_list_element_must_be_text prefix obj g rest fk items x :
  string_valued g = false ->
  obj_get g "DEFAULT" = None ->
  In (fk, VArr items) g ->
  In x items ->
  has_includes x = false ->
  flattenObject (obj ++ ("fontFamily", VObj g) :: rest)%list prefix
  = Throw TypeError.
Proof.
  intros Hsv Hdef Hfk Hx Htext.
  assert (exists e, flattenObject (obj ++ ("fontFamily", VObj g) :: rest)%list
                      prefix = Throw e) as [e He].
  { rewrite flattenObject_reduce, flatten_entries_app.
    destruct (flatten_entries prefix [] obj) as [acc|e]; cbn [bind];
      [|now exists e].
    rewrite flatten_entries_cons, (callback_fonts _ _ _ _ Hsv Hdef).
    destruct (reduce_stops
                (fun a fe =>
                   v <- font_entry (snd fe) ;;
                   Normal (obj_set a (pre_of prefix ++ "fontFamily" ++ "-" ++ fst fe) v))
                g (fk, VArr items) Hfk) with (init := acc) as [e He].
    - intros a. cbn [fst snd font_entry].
      destruct (map_c_stops quote_font items x TypeError Hx) as [e He].
      { destruct x; try reflexivity; discriminate. }
      rewrite He. now exists e.
    - rewrite He. now exists e. }
  rewrite He. f_equal.
  rewrite flattenObject_reduce in He. apply (flatten_entries_throws _ _ _ _ He).
Qed.


(** *** Values that render

    [ToString] throws on an object with a [toString] property only; the
    flat map of a document without one holds values that render. *)
Lemma ToString_printable v :
  printable v = true -> exists s, ToString v = Normal s.
Proof.
  induction v as [|b|n|s|items IH|props IH] using value_induction; intros Hp.
  - now exists "null".
  - destruct b; eexists; reflexivity.
  - eexists; reflexivity.
  - now exists s.
  - cbn [ToString].
    destruct (map_c_total
                (fun e : @value number =>
                   match e with VNull => Normal EmptyString | _ => ToString e end)
                items) as [parts ->].
    + intros x Hin. rewrite Forall_forall in IH.
      cbn [printable] in Hp. rewrite forallb_forall in Hp.
      destruct x; try (apply (IH _ Hin), Hp, Hin). now exists EmptyString.
    + eexists; reflexivity.
  - cbn [ToString]. cbn [printable] in Hp.
    apply andb_true_iff in Hp as [Hp _].
    destruct (obj_has props "toString"); [discriminate|]. eexists; reflexivity.
Qed.

Lemma printable_property g k x :
  printable (VObj g) = true -> obj_get g k = Some x -> printable x = true.
Proof.
  intros Hp Hget. cbn [printable] in Hp. apply andb_true_iff in Hp as [_ Hp].
  rewrite forallb_forall in Hp. apply (Hp (k, x)). now apply obj_get_In.
Qed.

Lemma font_entry_printable x w :
  printable x = true -> font_entry x = Normal w -> printable w = true.
Proof.
  intros Hp H. destruct x as [|b|n|s|items|g]; cbn [font_entry] in H;
    try (injection H as <-; exact Hp).
  destruct (map_c quote_font items) as [quoted|]; cbn [bind] in H;
    [|discriminate].
  destruct (join_values ", " quoted) as [s|]; cbn [bind] in H; [|discriminate].
  now injection H as <-.
Qed.

Lemma printable_set (acc : @flat number) key v :
  printable v = true ->
  Forall (fun kv => printable (snd kv) = true) acc ->
  Forall (fun kv => printable (snd kv) = true) (obj_set acc key v).
Proof. apply (Forall_obj_set _ (fun v => printable v = true)). Qed.

Lemma printable_put (acc : @flat number) key v :
  printable v = true ->
  Forall (fun kv => printable (snd kv) = true) acc ->
  Forall (fun kv => printable (snd kv) = true) (obj_put acc key v).
Proof. apply (Forall_obj_put _ (fun v => printable v = true)). Qed.

Lemma printable_assign (acc sub : @flat number) :
  Forall (fun kv => printable (snd kv) = true) sub ->
  Forall (fun kv => printable (snd kv) = true) acc ->
  Forall (fun kv => printable (snd kv) = true) (obj_assign acc sub).
Proof. apply (Forall_obj_assign _ (fun v => printable v = true)). Qed.

Lemma flatten_printable v :
  printable v = true ->
  forall prefix m, flatten_value v prefix = Normal m ->
  Forall (fun kv => printable (snd kv) = true) m.
Proof.
  induction v as [|b|n|s|items IH|props IH] using value_induction;
    intros Hp prefix m H;
    try (cbn [flatten_value] in H; injection H as <-; constructor; fail).
  change (flatten_value (VObj props) prefix) with (flattenObject props prefix) in H.
  rewrite (flattenObject_reduce props prefix) in H.
  unfold flatten_entries in H.
  refine (reduce_invariant _
            (fun a => Forall (fun kv => printable (snd kv) = true) a)
            props _ [] m (Forall_nil _) H).
  clear H. intros a [k x] a' Hin Hstep Ha.
  rewrite Forall_forall in IH. specialize (IH _ Hin). cbn [snd] in IH.
  assert (printable x = true) as Hx.
  { cbn [printable] in Hp. apply andb_true_iff in Hp as [_ Hp].
    rewrite forallb_forall in Hp. exact (Hp _ Hin). }
  destruct x as [|b|n|s|items|g];
    try (cbn [flatten_callback fst snd] in Hstep; injection Hstep as <-;
         first [exact Ha | now apply printable_put]).
  callback_cases k g.
  - now injection Hstep as <-.
  - injection Hstep as <-. now apply printable_put.
  - destruct (flatten_value (VObj g) (pre_of prefix ++ k)) as [sub|] eqn:E;
      cbn [bind] in Hstep; [|discriminate].
    injection Hstep as <-. apply printable_assign; [exact (IH Hx _ _ E)|].
    apply printable_put; [|exact Ha].
    exact (printable_property g "DEFAULT" d Hx Hdef).
  - refine (reduce_invariant _
              (fun a => Forall (fun kv => printable (snd kv) = true) a)
              g _ a a' Ha Hstep).
    intros b [fk fv] b' Hfe Hb Hacc. cbn [fst snd] in Hb.
    destruct (font_entry fv) as [w|] eqn:E; cbn [bind] in Hb; [|discriminate].
    injection Hb as <-. apply printable_set; [|exact Hacc].
    apply (font_entry_printable fv w); [|exact E].
    cbn [printable] in Hx. apply andb_true_iff in Hx as [_ Hx].
    rewrite forallb_forall in Hx. exact (Hx _ Hfe).
  - destruct (flatten_value (VObj g) (pre_of prefix ++ k)) as [sub|] eqn:E;
      cbn [bind] in Hstep; [|discriminate].
    injection Hstep as <-. apply printable_assign; [exact (IH Hx _ _ E)|exact Ha].
Qed.


End Flattener.

(** ** The read path *)

Section ReadPath.
Context {number : Type} {NUM : JSNumber number}.
Implicit Types (v d x : @value number) (obj g props : @object number).
Implicit Types (acc sub vars : @flat number) (prefix cp k K : string).

Lemma eqb_append_head a b c : String.eqb (a ++ b) (a ++ c) = String.eqb b c.
Proof.
  induction a as [|ch a IH]; simpl; [reflexivity|].
  now rewrite Ascii.eqb_refl.
Qed.

Lemma obj_get_custom_property acc K :
  obj_get (as_custom_properties acc) ("--prsm-" ++ K) = obj_get acc K.
Proof.
  unfold as_custom_properties.
  induction acc as [|[k0 v0] acc IH]; [reflexivity|].
  cbn [map fst snd obj_get]. rewrite eqb_append_head.
  destruct (String.eqb k0 K); [reflexivity | exact IH].
Qed.

Lemma obj_get_other_property acc K :
  startsWith K "--prsm-" = false ->
  obj_get (as_custom_properties acc) K = None.
Proof.
  intros HK. apply obj_get_None. intros Hin.
  unfold as_custom_properties, keys in Hin. rewrite map_map in Hin.
  apply in_map_iff in Hin as ([k0 v0] & <- & _). cbn [fst snd] in HK.
  now rewrite startsWith_append in HK.
Qed.

Lemma obj_get_assign acc sub K :
  NoDup (keys sub) ->
  obj_get sub "__proto__" = None ->
  obj_get (obj_assign acc sub) K =
  match obj_get sub K with
  | Some w => Some w
  | None => obj_get acc K
  end.
Proof.
  intros Hnd Hproto. destruct (obj_get sub K) as [w|] eqn:E.
  - apply obj_get_assign_source; [|assumption|assumption].
    intros ->. congruence.
  - apply obj_get_assign_frame. now apply obj_get_None.
Qed.

Lemma css_flatten_obj props cp vars :
  css_flatten (VObj props) cp vars =
  fold_left (css_flatten_entry css_flatten cp) props vars.
Proof.
  simpl. revert vars. induction props as [|e props IH]; intros vars;
    simpl; auto.
Qed.

Lemma overlays_set vars vars0 acc K w :
  overlays vars vars0 acc ->
  overlays (obj_set vars ("--prsm-" ++ K) w) vars0 (obj_set acc K w).
Proof.
  intros [H1 H2]. split.
  - intros K'. destruct (string_dec K' K) as [->|Hne].
    + now rewrite !obj_get_set_same.
    + rewrite !obj_get_set_other; auto.
      intros E. now apply append_inv_head in E.
  - intros K' HK'. rewrite obj_get_set_other; auto.
    intros ->. now rewrite startsWith_append in HK'.
Qed.

Lemma overlays_assign vars vars0 acc sub result :
  NoDup (keys sub) ->
  obj_get sub "__proto__" = None ->
  overlays vars vars0 acc ->
  overlays result vars sub ->
  overlays result vars0 (obj_assign acc sub).
Proof.
  intros Hnd Hproto [H1 H2] [R1 R2]. split.
  - intros K. rewrite R1, obj_get_assign by assumption.
    destruct (obj_get sub K); [reflexivity | apply H1].
  - intros K HK. rewrite R2 by assumption. now apply H2.
Qed.

Lemma read_path_overlays v :
  plain v = true ->
  forall props, v = VObj props ->
  forall prefix cp vars,
    "--" ++ cp ++ "-" = "--prsm-" ++ pre_of prefix ->
    exists sub,
      flattenObject props prefix = Normal sub /\
      overlays (css_flatten v cp vars) vars sub.
Proof.
  induction v as [| | | | items _ | props IH] using value_induction;
    intros Hplain props' Hv; try discriminate.
  injection Hv as <-. intros prefix cp vars Hcp.
  rewrite css_flatten_obj, flattenObject_reduce.
  assert (overlays vars vars []) as Hinit by (split; reflexivity).
  simpl in Hplain. rewrite forallb_forall in Hplain.
  rewrite Forall_forall in IH.
  revert Hinit. generalize (@nil (string * @value number)) as acc.
  generalize vars at 1 3 as cur.
  induction props as [|[k x] props IHprops]; intros cur acc Hinv.
  - exists acc. split; [reflexivity | exact Hinv].
  - assert (Hk := Hplain (k, x) (or_introl eq_refl)).
    simpl fst in Hk. simpl snd in Hk.
    apply andb_true_iff in Hk as [Hk Hx].
    apply andb_true_iff in Hk as [Hk Hshape].
    apply andb_true_iff in Hk as [Hk Hproto].
    apply andb_true_iff in Hk as [Hmeta Hne].
    apply negb_true_iff in Hmeta. apply negb_true_iff in Hne.
    apply negb_true_iff in Hproto.
    apply String.eqb_neq in Hne. apply String.eqb_neq in Hproto.
    apply (path_not_proto prefix) in Hproto.
    assert ("--" ++ cp ++ "-" ++ k = "--prsm-" ++ pre_of prefix ++ k) as Hname.
    { rewrite <- (append_assoc "--prsm-"), <- Hcp.
      now rewrite !append_assoc. }
    simpl fold_left. rewrite flatten_entries_cons.
    assert (forall cur' acc',
              overlays cur' vars acc' ->
              exists sub,
                flatten_entries prefix acc' props = Normal sub /\
                overlays (fold_left (css_flatten_entry css_flatten cp) props cur')
                  vars sub) as Hrest.
    { intros cur' acc'. apply IHprops.
      - intros e He. apply IH. now right.
      - intros e He. apply Hplain. now right. }
    unfold css_flatten_entry at 2. simpl fst. simpl snd. rewrite Hmeta, Hname.
    destruct x as [| b | n | s | items | g].
    + simpl bind. now apply Hrest.
    + simpl bind. now apply Hrest.
    + rewrite callback_scalar by reflexivity. simpl bind.
      rewrite (obj_put_set _ _ _ _ Hproto).
      apply Hrest. now apply overlays_set.
    + rewrite callback_scalar by reflexivity. simpl bind.
      rewrite (obj_put_set _ _ _ _ Hproto).
      apply Hrest. now apply overlays_set.
    + discriminate.
    + apply andb_true_iff in Hshape as [Hvalue Hfont].
      apply negb_true_iff in Hvalue. unfold obj_has in Hvalue, Hfont.
      assert (obj_get g "value" = None) as Hnoval
        by (destruct (obj_get g "value"); [discriminate | reflexivity]).
      assert (string_valued g = false) as Hsv
        by (unfold string_valued; now rewrite Hnoval).
      rewrite Hnoval.
      assert ("--" ++ (cp ++ "-" ++ k) ++ "-"
              = "--prsm-" ++ pre_of (pre_of prefix ++ k)) as Hcp'.
      { rewrite (pre_of_nonempty (pre_of prefix ++ k))
          by now apply path_nonempty.
        rewrite <- !append_assoc. rewrite <- !append_assoc in Hname.
        now rewrite Hname. }
      destruct (obj_get g "DEFAULT") as [d|] eqn:Hdef.
      * rewrite (callback_default _ _ _ _ _ _ Hmeta Hsv Hdef).
        rewrite flatten_value_obj, (obj_put_set _ _ _ _ Hproto).
        destruct (IH (k, VObj g) (or_introl eq_refl) Hx g eq_refl
                    (pre_of prefix ++ k) (cp ++ "-" ++ k)
                    (obj_set cur ("--prsm-" ++ pre_of prefix ++ k) d) Hcp')
          as (sub & Hsub & Hover).
        simpl snd in Hsub, Hover. rewrite Hsub. simpl bind.
        apply Hrest.
        apply (overlays_assign _ _ _ _ _ (flattenObject_NoDup _ _ _ Hsub)
                 (flatten_below_no_proto _ _ _ (path_nonempty _ _ Hne) Hsub)
                 (overlays_set _ _ _ _ d Hinv) Hover).
      * destruct (String.eqb k "fontFamily") eqn:Hff; [discriminate|].
        rewrite (callback_generic _ _ _ _ _ Hmeta Hsv Hdef Hff).
        rewrite flatten_value_obj.
        destruct (IH (k, VObj g) (or_introl eq_refl) Hx g eq_refl
                    (pre_of prefix ++ k) (cp ++ "-" ++ k) cur Hcp')
          as (sub & Hsub & Hover).
        simpl snd in Hsub, Hover. rewrite Hsub. simpl bind.
        apply Hrest.
        apply (overlays_assign _ _ _ _ _ (flattenObject_NoDup _ _ _ Hsub)
                 (flatten_below_no_proto _ _ _ (path_nonempty _ _ Hne) Hsub)
                 Hinv Hover).
Qed.

(** On a plain document the read path returns the key/value pairs of the
    build path, each key behind the vendor prefix. *)
Lemma read_path_agrees_on_plain obj :
  plain (VObj obj) = true ->
  exists fl,
    flattenObject obj EmptyString = Normal fl /\
    forall K, obj_get (getCSSVariables (Some obj)) K =
              obj_get (as_custom_properties fl) K.
Proof.
  intros Hplain.
  destruct (read_path_overlays (VObj obj) Hplain obj eq_refl
              EmptyString "prsm" [] eq_refl) as (fl & Hfl & H1 & H2).
  exists fl. split; [exact Hfl|]. intros K. unfold getCSSVariables.
  destruct (startsWith K "--prsm-") eqn:E.
  - apply startsWith_inv in E as [K' ->].
    rewrite H1, obj_get_custom_property. now destruct (obj_get fl K').
  - rewrite (H2 K E), obj_get_other_property by assumption. reflexivity.
Qed.

(** *** Names of the read path *)
Lemma css_flatten_arr_from items cp :
  forall i vars,
  (fix each (i : nat) (entries : list (@value number)) (variables : flat)
     : flat :=
     match entries with
     | [] => variables
     | x :: rest =>
         each (S i) rest
           (css_flatten_entry css_flatten cp variables (index_key i, x))
     end) i items vars =
  fold_left (css_flatten_entry css_flatten cp) (items_from i items) vars.
Proof.
  induction items as [|x items IH]; intros i vars; [reflexivity|].
  cbn [items_from fold_left]. apply IH.
Qed.

Lemma css_flatten_arr items cp vars :
  css_flatten (VArr items) cp vars =
  fold_left (css_flatten_entry css_flatten cp) (items_from 0 items) vars.
Proof. cbn [css_flatten]. apply css_flatten_arr_from. Qed.

Lemma items_from_In (items : list (@value number)) :
  forall i k x, In (k, x) (items_from i items) -> In x items.
Proof.
  induction items as [|y items IH]; intros i k x H; [destruct H|].
  cbn [items_from] in H. destruct H as [H|H].
  - injection H as _ ->. now left.
  - right. exact (IH _ _ _ H).
Qed.

Lemma custom_property_extends cp k :
  startsWith ("--" ++ (cp ++ "-" ++ k) ++ "-") ("--" ++ cp ++ "-") = true.
Proof.
  rewrite (startsWith_app_cancel "--"), !append_assoc.
  rewrite (startsWith_app_cancel cp).
  exact (startsWith_append "-" _).
Qed.

Lemma css_fold_keys cp (entries : list (string * @value number)) :
  (forall k x, In (k, x) entries ->
     forall cp' vars K,
       In K (keys (css_flatten x cp' vars)) ->
       In K (keys vars) \/ startsWith K ("--" ++ cp' ++ "-") = true) ->
  forall vars K,
    In K (keys (fold_left (css_flatten_entry css_flatten cp) entries vars)) ->
    In K (keys vars) \/ startsWith K ("--" ++ cp ++ "-") = true.
Proof.
  induction entries as [|[k x] entries IH]; intros Hin vars K HK;
    [now left|].
  cbn [fold_left] in HK.
  apply IH in HK; [|intros k' x' H'; apply (Hin k' x'); now right].
  destruct HK as [HK|HK]; [|now right].
  assert (forall vars' w, In K (keys (obj_set vars' ("--" ++ cp ++ "-" ++ k) w)) ->
            In K (keys vars') \/ startsWith K ("--" ++ cp ++ "-") = true)
    as Hset.
  { intros vars' w H. apply keys_obj_set in H as [->|H]; [right|now left].
    rewrite (startsWith_app_cancel "--").
    replace (cp ++ "-" ++ k) with ((cp ++ "-") ++ k)
      by apply append_assoc.
    apply startsWith_append. }
  assert (forall vars', In K (keys (css_flatten x (cp ++ "-" ++ k) vars')) ->
            In K (keys vars') \/ startsWith K ("--" ++ cp ++ "-") = true)
    as Hrec.
  { intros vars' H. apply (Hin k x (or_introl eq_refl)) in H as [H|H];
      [now left | right].
    exact (startsWith_trans _ _ _ H (custom_property_extends cp k)). }
  unfold css_flatten_entry in HK. cbn [fst snd] in HK.
  destruct (startsWith k "$"); [now left|].
  destruct x as [|b|n|s|items|g]; try (now left); try (now apply Hset in HK).
  - now apply Hrec in HK.
  - apply Hrec in HK as [HK|HK]; [|now right].
    destruct (obj_get g "value") as [w|].
    + apply Hset in HK as [HK|HK]; [|now right].
      destruct (obj_get g "DEFAULT") as [d|]; [|now left].
      now apply Hset in HK.
    + destruct (obj_get g "DEFAULT") as [d|]; [|now left].
      now apply Hset in HK.
Qed.

Lemma css_flatten_keys v :
  forall cp vars K,
    In K (keys (css_flatten v cp vars)) ->
    In K (keys vars) \/ startsWith K ("--" ++ cp ++ "-") = true.
Proof.
  induction v as [|b|n|s|items IH|props IH] using value_induction;
    intros cp vars K HK; try (now left).
  - rewrite css_flatten_arr in HK. revert vars K HK. apply css_fold_keys.
    intros k x Hin. rewrite Forall_forall in IH.
    apply (IH x (items_from_In _ _ _ _ Hin)).
  - rewrite css_flatten_obj in HK. revert vars K HK. apply css_fold_keys.
    intros k x Hin. rewrite Forall_forall in IH. apply (IH (k, x) Hin).
Qed.

(** X5.  Every name [getCSSVariables] returns is a custom property of the
    theme: it starts with [--prsm-]. *)
Theorem custom_properties_are_prefixed (tokens : option (@object number)) K :
  In K (keys (getCSSVariables tokens)) -> startsWith K "--prsm-" = true.
Proof.
  destruct tokens as [t|]; [|intros []]. unfold getCSSVariables. intros H.
  apply css_flatten_keys in H as [[]|H]. exact H.
Qed.

(** X6.  The read path skips a metadata key whatever it holds, a scalar as
    well as an object or an array: the property can be removed from its
    object without changing what [getCSSVariables] returns. *)
Theorem read_path_skips_metadata obj k v rest :
  startsWith k "$" = true ->
  (forall cp vars,
     css_flatten (VObj (obj ++ (k, v) :: rest)%list) cp vars =
     css_flatten (VObj (obj ++ rest)%list) cp vars)
  /\ getCSSVariables (Some (obj ++ (k, v) :: rest)%list) =
     getCSSVariables (Some (obj ++ rest)%list).
Proof.
  intros Hmeta.
  assert (forall cp vars,
            css_flatten (VObj (obj ++ (k, v) :: rest)%list) cp vars =
            css_flatten (VObj (obj ++ rest)%list) cp vars) as H.
  { intros cp vars. rewrite !css_flatten_obj, !fold_left_app.
    cbn [fold_left]. unfold css_flatten_entry at 2. cbn [fst snd].
    now rewrite Hmeta. }
  split; [exact H | apply H].
Qed.

(** X7.  On a document with no array, no metadata key, no empty key, no
    [__proto__] key, no [value] property in a nested object and no
    [fontFamily] object without a [DEFAULT], the
    read path and the build path agree: [flattenObject] returns, and
    [getCSSVariables] holds exactly its entries, each under its path
    prefixed with [--prsm-]. *)
Theorem plain_document_read_as_built obj :
  plain (VObj obj) = true ->
  exists fl,
    flattenObject obj EmptyString = Normal fl /\
    (forall K, obj_get (getCSSVariables (Some obj)) K =
               obj_get (as_custom_properties fl) K) /\
    (forall K, In K (keys (getCSSVariables (Some obj))) <->
               exists k, In k (keys fl) /\ K = "--prsm-" ++ k).
Proof.
  intros Hplain.
  destruct (read_path_agrees_on_plain obj Hplain) as (fl & Hfl & Hget).
  exists fl. split; [exact Hfl | split; [exact Hget|]].
  intros K.
  assert (In K (keys (getCSSVariables (Some obj))) <->
          In K (keys (as_custom_properties fl))) as ->.
  { split; intros Hin.
    - destruct (obj_get (as_custom_properties fl) K) as [w|] eqn:E.
      + unfold keys. apply in_map_iff. exists (K, w).
        split; [reflexivity | now apply obj_get_In].
      + rewrite <- Hget in E. apply obj_get_None in E. contradiction.
    - destruct (obj_get (getCSSVariables (Some obj)) K) as [w|] eqn:E.
      + unfold keys. apply in_map_iff. exists (K, w).
        split; [reflexivity | now apply obj_get_In].
      + rewrite Hget in E. apply obj_get_None in E. contradiction. }
  unfold as_custom_properties, keys. rewrite map_map. cbn [fst].
  rewrite in_map_iff. split.
  - intros ([k w] & <- & Hin). exists k. split; [|reflexivity].
    apply in_map_iff. now exists (k, w).
  - intros (k & Hin & ->). apply in_map_iff in Hin as ([k' w] & <- & Hin).
    now exists (k', w).
Qed.


End ReadPath.

(** ** The Categorizer *)

Section Categorizer.
Context {number : Type} {NUM : JSNumber number}.
Implicit Types (v : @value number) (fl : @flat number) (c : categories).
Implicit Types (k : string) (b : bucket).

(** The branch chain of the generator is the classification order of the
    specification: a line goes to the bucket of its key and nowhere else,
    and the [shadows] array is never written. *)
Lemma categorize_entry_bucket c k v line :
  css_var k v = Normal line ->
  exists c',
    categorize_entry c (k, v) = Normal c' /\
    (forall b, bucket_lines c' b =
               if bucket_eqb (bucket_of k) b
               then (bucket_lines c b ++ [line])%list
               else bucket_lines c b) /\
    shadows c' = shadows c.
Proof.
  intros Hline. unfold categorize_entry, bucket_of, starts_with_any.
  simpl fst. simpl snd. rewrite Hline. simpl bind. simpl existsb.
  rewrite ?orb_false_r, ?orb_assoc.
  destruct (startsWith k "colors" || startsWith k "slide" || startsWith k "dark");
    [eexists; split; [reflexivity | split; [intros []; reflexivity | reflexivity]]|].
  destruct (startsWith k "typography" || startsWith k "font");
    [eexists; split; [reflexivity | split; [intros []; reflexivity | reflexivity]]|].
  destruct (startsWith k "spacing");
    [eexists; split; [reflexivity | split; [intros []; reflexivity | reflexivity]]|].
  destruct (startsWith k "border" || startsWith k "shadow");
    [eexists; split; [reflexivity | split; [intros []; reflexivity | reflexivity]]|].
  destruct (startsWith k "transition");
    eexists; (split; [reflexivity | split; [intros []; reflexivity | reflexivity]]).
Qed.

Lemma categorize_entry_throws c k v e :
  css_var k v = Throw e -> categorize_entry c (k, v) = Throw e.
Proof. intros H. unfold categorize_entry. simpl. now rewrite H. Qed.

Lemma css_var_throws k v e : css_var k v = Throw e -> ToString v = Throw e.
Proof.
  unfold css_var. destruct (ToString v); simpl; [discriminate | trivial].
Qed.

Lemma categorize_from fl :
  forall c0,
  match reduce categorize_entry fl c0 with
  | Normal c =>
      (forall b, bucket_lines c b =
                 (bucket_lines c0 b ++ map line_of (entries_of_bucket fl b))%list)
      /\ shadows c = shadows c0
  | Throw e => exists k v, In (k, v) fl /\ ToString v = Throw e
  end.
Proof.
  induction fl as [|[k v] fl IH]; intros c0.
  - simpl. split; [intros b; now rewrite app_nil_r | reflexivity].
  - simpl reduce. destruct (css_var k v) as [line|e] eqn:Hline.
    + destruct (categorize_entry_bucket c0 k v line Hline)
        as (c' & -> & Hb & Hs).
      simpl bind. specialize (IH c').
      destruct (reduce categorize_entry fl c') as [c|e].
      * destruct IH as [IHb IHs]. split; [|congruence].
        intros b. rewrite IHb, Hb. unfold entries_of_bucket. simpl filter.
        destruct (bucket_eqb (bucket_of k) b); [|reflexivity].
        simpl map. unfold line_of at 2. simpl fst. simpl snd. rewrite Hline.
        now rewrite <- app_assoc.
      * destruct IH as (k' & v' & Hin & Hv'). exists k', v'.
        split; [now right | assumption].
    + rewrite (categorize_entry_throws c0 k v e Hline). simpl bind.
      exists k, v. split; [now left | now apply (css_var_throws k)].
Qed.

Lemma bucket_eqb_eq a b : bucket_eqb a b = true <-> a = b.
Proof. destruct a, b; simpl; split; congruence. Qed.

(** C8.  The Categorizer assigns every key of a flat map to exactly one of
    the six buckets, the first that matches in the order colors/slide/dark,
    typography/font, spacing, border/shadow, transition, other: each bucket
    holds, in order, the lines of the entries whose key the classification
    order sends there, and every entry is among those of one bucket only.
    On a flat map of scalars it always does so; it stops with an exception
    only at an entry whose value does not render as a string. *)
Theorem categorizer_partitions fl :
  match categorize fl with
  | Normal c =>
      (forall b, bucket_lines c b = map line_of (entries_of_bucket fl b))
      /\ shadows c = []
  | Throw e => exists k v, In (k, v) fl /\ ToString v = Throw e
  end
  /\ ((forall k v, In (k, v) fl -> is_scalar v = true) ->
      exists c, categorize fl = Normal c)
  /\ (forall entry, In entry fl ->
        In entry (entries_of_bucket fl (bucket_of (fst entry))) /\
        forall b, In entry (entries_of_bucket fl b) -> b = bucket_of (fst entry))
  /\ (forall k, In (bucket_of k) all_buckets).
Proof.
  assert (match categorize fl with
          | Normal c =>
              (forall b, bucket_lines c b = map line_of (entries_of_bucket fl b))
              /\ shadows c = []
          | Throw e => exists k v, In (k, v) fl /\ ToString v = Throw e
          end) as Hmain.
  { unfold categorize. pose proof (categorize_from fl empty_categories) as H.
    destruct (reduce categorize_entry fl empty_categories); [|exact H].
    destruct H as [Hb Hs]. split; [|exact Hs].
    intros b. rewrite Hb. now destruct b. }
  split; [exact Hmain | split; [|split]].
  - intros Hscalar. destruct (categorize fl) as [c|e]; [now exists c|].
    destruct Hmain as (k & v & Hin & Hv). specialize (Hscalar k v Hin).
    destruct v; simpl in Hscalar, Hv; discriminate.
  - intros entry Hin. unfold entries_of_bucket. split.
    + apply filter_In. split; [assumption|]. now apply bucket_eqb_eq.
    + intros b Hb. apply filter_In in Hb as [_ Hb].
      apply bucket_eqb_eq in Hb. congruence.
  - intros k. unfold all_buckets. destruct (bucket_of k); simpl; tauto.
Qed.

End Categorizer.

(** ** The Orchestrator *)

Section Orchestrator.
Context {number : Type} {NUM : JSNumber number}.
Implicit Types (env : @environment) (variables : @object number).
Implicit Types (fs : files) (rs : list artifact).

Lemma run_generator_success env variables i name (g : @generator number) rs fs :
  (forall p, writable env p = true) ->
  map success (fst (run_generator env variables i (name, g) (rs, fs))) =
  (map success rs ++ [succeeded (g (clock env i) variables)])%list.
Proof.
  intros Hw. unfold run_generator, writeFileSync. simpl fst. simpl snd.
  destruct (g (clock env i) variables) as [content|e]; simpl bind.
  - rewrite Hw. simpl. now rewrite map_app.
  - simpl. now rewrite map_app.
Qed.

Lemma run_generators_success env variables
  (gens : list (string * @generator number)) :
  (forall p, writable env p = true) ->
  forall i st,
  map success (fst (run_generators env variables i gens st)) =
  (map success (fst st)
   ++ map (fun jg => succeeded (snd (snd jg) (clock env (fst jg)) variables))
        (combine (seq i (length gens)) gens))%list.
Proof.
  intros Hw. induction gens as [|[name g] gens IH]; intros i [rs fs].
  - simpl. now rewrite app_nil_r.
  - simpl run_generators. rewrite IH.
    destruct (run_generator env variables i (name, g) (rs, fs)) as [rs' fs'] eqn:E.
    pose proof (run_generator_success env variables i name g rs fs Hw) as H.
    rewrite E in H. simpl fst in *. rewrite H. simpl.
    now rewrite <- app_assoc.
Qed.

Lemma build_results_success env variables fs :
  (forall p, writable env p = true) ->
  map success (fst (build_results env variables fs)) =
  map (fun i => succeeded (generator_outcome env variables i)) (seq 0 5).
Proof.
  intros Hw. unfold build_results.
  rewrite (run_generators_success env variables generators Hw). reflexivity.
Qed.

Lemma filter_map_length {A B : Type} (f : A -> B) (p : B -> bool) (l : list A) :
  length (filter p (map f l)) = length (filter (fun a => p (f a)) l).
Proof.
  induction l as [|a l IH]; simpl; [reflexivity|].
  destruct (p (f a)); simpl; now rewrite IH.
Qed.

Lemma filter_split_length {A : Type} (p : A -> bool) (l : list A) :
  length (filter p l) + length (filter (fun a => negb (p a)) l) = length l.
Proof.
  induction l as [|a l IH]; simpl; [reflexivity|].
  destruct (p a); simpl; lia.
Qed.

(** C9, as amended.  Where every destination can be written, [build] keeps
    five artifacts, each marked by the outcome of its own generator alone,
    and the flag it returns is the conjunction of the five marks, for
    every token document; a document that makes exactly one of the five
    generators throw gives one artifact marked failed and four marked
    succeeded, and the flag [false]. *)
Theorem build_isolates_failure env variables fs :
  (forall p, writable env p = true) ->
  exists a0 a1 a2 a3 a4,
    fst (build_results env variables fs) = [a0; a1; a2; a3; a4] /\
    map success [a0; a1; a2; a3; a4] =
      map (fun i => succeeded (generator_outcome env variables i)) (seq 0 5) /\
    build env variables fs =
      success a0 && success a1 && success a2 && success a3 && success a4 /\
    (length (filter (fun i => negb (succeeded (generator_outcome env variables i)))
               (seq 0 5)) = 1 ->
     length (filter failed [a0; a1; a2; a3; a4]) = 1 /\
     length (filter success [a0; a1; a2; a3; a4]) = 4 /\
     build env variables fs = false).
Proof.
  intros Hw.
  pose proof (build_results_success env variables fs Hw) as Hmap.
  unfold build. remember (fst (build_results env variables fs)) as results.
  assert (length results = 5) as Hlen
    by (rewrite <- (length_map success), Hmap, length_map; reflexivity).
  destruct results as [|a0 [|a1 [|a2 [|a3 [|a4 [|]]]]]]; try discriminate.
  exists a0, a1, a2, a3, a4.
  split; [reflexivity | split; [exact Hmap | split]].
  - simpl. now rewrite andb_true_r, !andb_assoc.
  - intros Hone.
    assert (length (filter failed [a0; a1; a2; a3; a4]) = 1) as Hfailed.
    { unfold failed.
      rewrite <- (filter_map_length success negb), Hmap, filter_map_length.
      exact Hone. }
    split; [exact Hfailed | split].
    + assert (length (filter success [a0; a1; a2; a3; a4])
              + length (filter failed [a0; a1; a2; a3; a4]) = 5) as H
        by exact (filter_split_length success [a0; a1; a2; a3; a4]).
      lia.
    + destruct (forallb success [a0; a1; a2; a3; a4]) eqn:Hall;
        [exfalso | reflexivity].
      rewrite forallb_forall in Hall.
      destruct (filter failed [a0; a1; a2; a3; a4]) as [|a rest] eqn:E;
        [discriminate|].
      assert (In a (filter failed [a0; a1; a2; a3; a4])) as Hin
        by (rewrite E; now left).
      apply filter_In in Hin as [Hin Hf]. unfold failed in Hf.
      rewrite (Hall a Hin) in Hf. discriminate.
Qed.

(** *** The artifacts and the files, in any environment *)
Lemma run_generator_step env variables i name (g : @generator number) rs fs :
  run_generator env variables i (name, g) (rs, fs) =
  match g (clock env i) variables with
  | Normal content =>
      if writable env (output_path env (output_file name))
      then ((rs ++ [mkArtifact name true
                      (Some (output_path env (output_file name))) None])%list,
            obj_set fs (output_path env (output_file name)) content)
      else ((rs ++ [mkArtifact name false None (Some SystemError)])%list, fs)
  | Throw e => ((rs ++ [mkArtifact name false None (Some e)])%list, fs)
  end.
Proof.
  unfold run_generator, writeFileSync, output_file. cbn [fst snd].
  destruct (g (clock env i) variables) as [content|e]; cbn [bind];
    [|reflexivity].
  now destruct (writable env _).
Qed.

Lemma run_generators_results env variables
  (gens : list (string * @generator number)) :
  forall i rs fs,
  fst (run_generators env variables i gens (rs, fs)) =
  (rs ++ map (fun jg =>
                match snd (snd jg) (clock env (fst jg)) variables with
                | Normal _ =>
                    if writable env (output_path env (output_file (fst (snd jg))))
                    then mkArtifact (fst (snd jg)) true
                           (Some (output_path env (output_file (fst (snd jg)))))
                           None
                    else mkArtifact (fst (snd jg)) false None (Some SystemError)
                | Throw e => mkArtifact (fst (snd jg)) false None (Some e)
                end)
          (combine (seq i (length gens)) gens))%list.
Proof.
  induction gens as [|[name g] gens IH]; intros i rs fs.
  - cbn. now rewrite app_nil_r.
  - cbn [run_generators]. rewrite run_generator_step.
    cbn [length seq combine map fst snd].
    destruct (g (clock env i) variables) as [content|e].
    + destruct (writable env _); rewrite IH, <- app_assoc; reflexivity.
    + rewrite IH, <- app_assoc. reflexivity.
Qed.

Lemma run_generators_frame env variables
  (gens : list (string * @generator number)) p :
  ~ In p (map (fun g => output_path env (output_file (fst g))) gens) ->
  forall i rs fs,
  obj_get (snd (run_generators env variables i gens (rs, fs))) p = obj_get fs p.
Proof.
  induction gens as [|[name g] gens IH]; intros Hp i rs fs; [reflexivity|].
  cbn [run_generators]. rewrite run_generator_step.
  cbn [map fst In] in Hp.
  assert (p <> output_path env (output_file name)) as Hne
    by (intros ->; apply Hp; now left).
  assert (~ In p (map (fun g => output_path env (output_file (fst g))) gens))
    as Hrest by (intros H; apply Hp; now right).
  destruct (g (clock env i) variables) as [content|e].
  - destruct (writable env _); rewrite (IH Hrest); [|reflexivity].
    now apply obj_get_set_other.
  - now rewrite (IH Hrest).
Qed.

Lemma run_generators_written env variables
  (gens : list (string * @generator number)) :
  NoDup (map (fun g => output_path env (output_file (fst g))) gens) ->
  forall j i rs fs name g,
  nth_error gens j = Some (name, g) ->
  obj_get (snd (run_generators env variables i gens (rs, fs)))
    (output_path env (output_file name)) =
  match g (clock env (i + j)) variables with
  | Normal content =>
      if writable env (output_path env (output_file name)) then Some content
      else obj_get fs (output_path env (output_file name))
  | Throw _ => obj_get fs (output_path env (output_file name))
  end.
Proof.
  induction gens as [|[name0 g0] gens IH]; intros Hnd j i rs fs name g Hj.
  - destruct j; discriminate.
  - cbn [map fst] in Hnd. apply NoDup_cons_iff in Hnd as [Hfresh Hnd].
    cbn [run_generators]. rewrite run_generator_step.
    destruct j as [|j]; cbn [nth_error] in Hj.
    + injection Hj as -> ->. rewrite Nat.add_0_r.
      destruct (g (clock env i) variables) as [content|e].
      * destruct (writable env _);
          rewrite (run_generators_frame _ _ _ _ Hfresh); [|reflexivity].
        apply obj_get_set_same.
      * now rewrite (run_generators_frame _ _ _ _ Hfresh).
    + assert (output_path env (output_file name)
              <> output_path env (output_file name0)) as Hne.
      { intros Heq. apply Hfresh. rewrite <- Heq.
        apply nth_error_In in Hj.
        exact (in_map (fun g => output_path env (output_file (fst g)))
                 _ _ Hj). }
      replace (i + S j) with (S i + j) by lia.
      destruct (g0 (clock env i) variables) as [content|e].
      * destruct (writable env (output_path env (output_file name0)));
          rewrite (IH Hnd j (S i) _ _ name g Hj); [|reflexivity].
        now rewrite (obj_get_set_other _ _ _ _ _ Hne).
      * now rewrite (IH Hnd j (S i) _ _ name g Hj).
Qed.

Lemma destinations_of_generators env :
  map (fun g : string * @generator number =>
         output_path env (output_file (fst g))) generators =
  map (destination env) (seq 0 5).
Proof. reflexivity. Qed.

Lemma generator_at i :
  i < 5 ->
  exists g : @generator number,
    nth_error generators i = Some (nth i artifact_names EmptyString, g).
Proof.
  intros Hi.
  destruct i as [|[|[|[|[|i]]]]]; try lia; eexists; reflexivity.
Qed.

Lemma generator_outcome_at env variables i (g : @generator number) name :
  nth_error generators i = Some (name, g) ->
  generator_outcome env variables i = g (clock env i) variables.
Proof. intros H. unfold generator_outcome. now rewrite H. Qed.

Lemma generator_outcome_range env variables i :
  succeeded (generator_outcome env variables i) = true -> i < 5.
Proof.
  unfold generator_outcome.
  destruct i as [|[|[|[|[|i]]]]]; try lia.
  cbn [nth_error generators]. destruct i; discriminate.
Qed.

Lemma build_results_file env variables fs i :
  NoDup (map (destination env) (seq 0 5)) ->
  i < 5 ->
  obj_get (snd (build_results env variables fs)) (destination env i) =
  match generator_outcome env variables i with
  | Normal content =>
      if writable env (destination env i) then Some content
      else obj_get fs (destination env i)
  | Throw _ => obj_get fs (destination env i)
  end.
Proof.
  intros Hnd Hi. destruct (generator_at i Hi) as [g Hg].
  rewrite <- destinations_of_generators in Hnd.
  unfold build_results.
  pose proof (run_generators_written env variables generators Hnd
                i 0 [] fs _ g Hg) as H.
  cbn [Nat.add] in H.
  rewrite <- (generator_outcome_at env variables i g _ Hg) in H.
  exact H.
Qed.

Lemma build_results_expected env variables fs :
  fst (build_results env variables fs) =
  map (expected_artifact env variables) (seq 0 5).
Proof. unfold build_results. rewrite run_generators_results. reflexivity. Qed.

(** X8.  Whatever can or cannot be written, [build] keeps five records in
    the order base, slidev, reveal, webslides, tailwind; each is read off
    its own generator's outcome and its own destination, not off the file
    system or the other generators; and [build] returns [true] exactly when
    every generator returned and every destination could be written. *)
Theorem build_records_each_attempt env variables fs :
  fst (build_results env variables fs) =
    map (expected_artifact env variables) (seq 0 5)
  /\ (build env variables fs = true <->
      forall i, i < 5 ->
        succeeded (generator_outcome env variables i) = true /\
        writable env (destination env i) = true).
Proof.
  split; [apply build_results_expected|].
  unfold build. rewrite build_results_expected, forallb_forall. split.
  - intros H i Hi.
    assert (success (expected_artifact env variables i) = true) as Hs.
    { apply H, in_map, in_seq. lia. }
    unfold expected_artifact in Hs.
    destruct (generator_outcome env variables i); [|discriminate].
    destruct (writable env (destination env i)); [|discriminate].
    split; reflexivity.
  - intros H a Ha. apply in_map_iff in Ha as (i & <- & Hi).
    apply in_seq in Hi. destruct (H i ltac:(lia)) as [Hg Hw].
    unfold expected_artifact.
    destruct (generator_outcome env variables i); [|discriminate].
    now rewrite Hw.
Qed.

(** X9.  Where the five destinations are distinct, the file at the
    destination of a generator that returned, and whose destination could
    be written, holds after [build] exactly what the generator returned. *)
Theorem build_writes_what_generators_return env variables fs i content :
  NoDup (map (destination env) (seq 0 5)) ->
  generator_outcome env variables i = Normal content ->
  writable env (destination env i) = true ->
  obj_get (snd (build_results env variables fs)) (destination env i)
  = Some content.
Proof.
  intros Hnd Hout Hw.
  assert (i < 5) as Hi
    by (apply (generator_outcome_range env variables); now rewrite Hout).
  now rewrite (build_results_file env variables fs i Hnd Hi), Hout, Hw.
Qed.



End Orchestrator.

(** ** The generators and the clock *)

Section Generators.
Context {number : Type} {NUM : JSNumber number}.
Implicit Types (variables : @object number) (g : @generator number).

Lemma stamped_base variables : stamped generateBaseCSS variables.
Proof.
  unfold stamped, generateBaseCSS.
  destruct (flattenObject variables EmptyString) as [fl|e];
    [|left; exists e; reflexivity].
  cbn [bind].
  destruct (categorize fl) as [c|e]; [|left; exists e; reflexivity].
  cbn [bind]. right.
  exists base_head, (base_open ++ base_sections c ++ base_dark_mode).
  intros now. unfold base_header. now rewrite !append_assoc.
Qed.

(** The framework generators read their interpolations, then fill the
    template. *)
Ltac read_interpolations :=
  repeat match goal with
         | |- context [bind (or_default ?v ?d) _] =>
             let e := fresh "e" in
             destruct (or_default v d) as [?|e];
             [cbn [bind] | left; exists e; reflexivity]
         end.

Lemma stamped_slidev variables : stamped generateSlidevCSS variables.
Proof.
  unfold stamped, generateSlidevCSS. read_interpolations.
  right. do 2 eexists. intros now. reflexivity.
Qed.

Lemma stamped_reveal variables : stamped generateRevealCSS variables.
Proof.
  unfold stamped, generateRevealCSS. read_interpolations.
  right. do 2 eexists. intros now. reflexivity.
Qed.

Lemma stamped_webslides variables : stamped generateWebSlidesCSS variables.
Proof.
  unfold stamped, generateWebSlidesCSS. read_interpolations.
  right. do 2 eexists. intros now. reflexivity.
Qed.

Lemma stamped_tailwind variables : stamped generateTailwindConfig variables.
Proof.
  unfold stamped, generateTailwindConfig.
  destruct (tailwind_config variables) as [config|e];
    [|left; exists e; reflexivity].
  cbn [bind]. right.
  eexists tailwind_head, _. intros now. unfold tailwind_header.
  rewrite !append_assoc. reflexivity.
Qed.

Lemma stamped_agree g variables :
  stamped g variables -> agree_with_clock g variables.
Proof.
  intros [[e He] | (before & after & Hg)] now1 now2 a1 a2 H1 H2.
  - rewrite He in H1. discriminate.
  - rewrite Hg in H1, H2. injection H1 as <-. injection H2 as <-. split.
    + intros H. apply append_inv_head in H. now apply append_inv_tail in H.
    + now intros ->.
Qed.

(** C1, as amended.  For every token document, each of the five generator
    outputs (base, slidev, reveal, webslides, tailwind config) is a fixed
    text around the timestamp of its generated-at line, or a fixed
    exception: two compilations of the same document yield byte-identical
    artifacts exactly when the clock reads the same at both, and differ in
    that timestamp alone otherwise. *)
Theorem artifacts_agree_up_to_timestamp variables :
  Forall (fun entry => stamped (snd entry) variables
                       /\ agree_with_clock (snd entry) variables)
         generators
  /\ map fst (@generators number NUM) =
     ["base"; "slidev"; "reveal"; "webslides"; "tailwind"].
Proof.
  split; [|reflexivity].
  unfold generators.
  repeat (constructor;
          [split; [|apply stamped_agree]; simpl snd;
           first [ apply stamped_base | apply stamped_slidev
                 | apply stamped_reveal | apply stamped_webslides
                 | apply stamped_tailwind ] |]).
  constructor.
Qed.

End Generators.

(** ** What the generators need of a document *)

Section Requirements.
Context {number : Type} {NUM : JSNumber number}.
Implicit Types (v x : @value number) (variables : @object number).

(** A property read throws on [null] and [undefined], and there only. *)
Lemma prop_defined (v : @jsval number) key :
  prop v key = if nullish v then Throw TypeError else Normal (opt_prop v key).
Proof. destruct v as [[]|]; reflexivity. Qed.


Lemma prop_Normal_inv (v r : @jsval number) key :
  prop v key = Normal r -> nullish v = false /\ r = opt_prop v key.
Proof.
  rewrite prop_defined. destruct (nullish v); [discriminate|].
  intros H. injection H as <-. split; reflexivity.
Qed.


Lemma tailwind_generator_outcome now variables :
  succeeded (generateTailwindConfig now variables)
  = succeeded (tailwind_config variables)
  /\ (forall e, generateTailwindConfig now variables = Throw e ->
                tailwind_config variables = Throw e).
Proof.
  unfold generateTailwindConfig.
  destruct (tailwind_config variables) as [config|e0]; cbn [bind succeeded];
    split; try reflexivity; intros e1 H;
    [discriminate | now injection H as <-].
Qed.

Lemma tailwind_config_outcome variables :
  succeeded (tailwind_config variables) = tailwind_ready variables
  /\ forall e, tailwind_config variables = Throw e -> e = TypeError.
Proof.
  unfold tailwind_config, tailwind_ready.
  rewrite !prop_defined.
  destruct (nullish (obj_get variables "colors")); cbn [bind negb andb succeeded];
    [split; [reflexivity | intros e H; now injection H as <-]|].
  destruct (nullish (obj_get variables "typography"));
    cbn [bind negb andb succeeded];
    [split; [reflexivity | intros e H; now injection H as <-]|].
  rewrite !prop_defined.
  destruct (nullish (opt_prop (obj_get variables "typography") "fontFamily"));
    cbn [bind negb andb succeeded];
    [split; [reflexivity | intros e H; now injection H as <-]|].
  destruct (opt_prop (obj_get variables "typography") "fontSize")
    as [fontSize|] eqn:Hfs;
    [|split; [reflexivity | intros e H; now injection H as <-]].
  destruct (nullish (Some fontSize)) eqn:Hn.
  - destruct fontSize; try discriminate. cbn [Object_entries bind succeeded].
    split; [reflexivity | intros e H; now injection H as <-].
  - assert (Object_entries (Some fontSize) = Normal (own_entries fontSize))
      as -> by (destruct fontSize; try reflexivity; discriminate).
    cbn [bind negb andb spread_entries].
    assert (forallb (fun kv : string * @value number =>
                       succeeded (v <- font_size_value (snd kv) ;;
                                  Normal (fst kv, CVal v)))
              (own_entries fontSize)
            = forallb (fun kv => negb (is_null (snd kv)))
                (own_entries fontSize)) as Hsame.
    { induction (own_entries fontSize) as [|[k x] l IH]; [reflexivity|].
      cbn [forallb]. rewrite IH. now destruct x. }
    pose proof (map_c_succeeded
                  (fun kv : string * @value number =>
                     v <- font_size_value (snd kv) ;; Normal (fst kv, CVal v))
                  (own_entries fontSize)) as Hmap.
    cbv beta in Hmap. rewrite Hsame in Hmap. rewrite <- Hmap.
    split.
    + now destruct (map_c _ (own_entries fontSize)).
    + intros e H.
      destruct (map_c _ (own_entries fontSize)) as [pairs|e'] eqn:E;
        cbn [bind] in H; [discriminate|].
      injection H as <-.
      refine (map_c_throws _ (fun e => e = TypeError) _ _ _ E).
      intros [k x] e _ Hx. cbn [fst snd] in Hx.
      destruct x; try discriminate. now injection Hx as <-.
Qed.

(** X11.  [generateTailwindConfig] returns exactly on the documents that
    have [colors], [typography], [typography.fontFamily] and
    [typography.fontSize], none of them [null], with no [null] among the
    font sizes; on every other document it throws a [TypeError].  Missing
    [borderRadius] or [shadows] do not make it throw. *)
Theorem tailwind_config_requirements now variables :
  succeeded (generateTailwindConfig now variables) = tailwind_ready variables
  /\ forall e, generateTailwindConfig now variables = Throw e -> e = TypeError.
Proof.
  destruct (tailwind_generator_outcome now variables) as [Hsame Hthrow].
  destruct (tailwind_config_outcome variables) as [Hs He].
  split; [now rewrite Hsame|]. intros e H. apply He, Hthrow, H.
Qed.


Lemma printable_opt_prop (v : @jsval number) k x :
  (forall y, v = Some y -> printable y = true) ->
  opt_prop v k = Some x -> printable x = true.
Proof.
  intros Hv H. destruct v as [[| | | | |g]|]; try discriminate.
  exact (printable_property g k x (Hv _ eq_refl) H).
Qed.

Lemma or_default_printable (v : @jsval number) fallback :
  (forall y, v = Some y -> printable y = true) ->
  exists s, or_default v fallback = Normal s.
Proof.
  intros Hv. unfold or_default. destruct v as [y|]; [|now exists fallback].
  destruct (truthy (Some y)); [|now exists fallback].
  apply ToString_printable, Hv. reflexivity.
Qed.

Lemma stylesheets_return now variables :
  strings_only (VObj variables) = true ->
  printable (VObj variables) = true ->
  succeeded (generateBaseCSS now variables) = true
  /\ succeeded (generateSlidevCSS now variables) = true
  /\ succeeded (generateRevealCSS now variables) = true
  /\ succeeded (generateWebSlidesCSS now variables) = true.
Proof.
  intros Hso Hp.
  assert (forall k1 k2 k3 y,
            opt_prop (opt_prop (obj_get variables k1) k2) k3 = Some y ->
            printable y = true) as H3.
  { intros k1 k2 k3 y. apply printable_opt_prop. intros z. apply printable_opt_prop.
    intros u. apply (printable_property variables k1 u Hp). }
  assert (forall k1 k2 k3 k4 y,
            opt_prop (opt_prop (opt_prop (obj_get variables k1) k2) k3) k4 = Some y ->
            printable y = true) as H4.
  { intros k1 k2 k3 k4 y. apply printable_opt_prop. intros z. apply H3. }
  split; [|split; [|split]].
  - unfold generateBaseCSS.
    destruct (flatten_total (VObj variables) Hso EmptyString) as [fl Hfl].
    unfold flattenObject. rewrite Hfl. cbn [bind].
    pose proof (flatten_printable _ Hp _ _ Hfl) as Hfl'.
    pose proof (categorize_from fl empty_categories) as Hc.
    unfold categorize.
    destruct (reduce categorize_entry fl empty_categories) as [c|e];
      [reflexivity|].
    destruct Hc as (k & v & Hin & Hv). rewrite Forall_forall in Hfl'.
    destruct (ToString_printable v (Hfl' _ Hin)) as [s Hs]. congruence.
  - unfold generateSlidevCSS.
    destruct (or_default_printable _ "980" (H4 "slide" "dimensions" "slidev" "width"))
      as [w ->].
    destruct (or_default_printable _ "552" (H4 "slide" "dimensions" "slidev" "height"))
      as [h ->].
    destruct (or_default_printable _ "40px" (H3 "slide" "padding" "slidev"))
      as [p ->].
    destruct (or_default_printable _ "4px" (H3 "components" "blockquote" "borderWidth"))
      as [b ->].
    reflexivity.
  - unfold generateRevealCSS.
    destruct (or_default_printable _ "40px 80px" (H3 "slide" "padding" "reveal"))
      as [p ->].
    destruct (or_default_printable _ "4px" (H3 "components" "blockquote" "borderWidth"))
      as [b ->].
    reflexivity.
  - unfold generateWebSlidesCSS.
    destruct (or_default_printable _ "80px" (H3 "slide" "padding" "webslides"))
      as [p ->].
    destruct (or_default_printable _ "4px" (H3 "components" "blockquote" "borderWidth"))
      as [b ->].
    reflexivity.
Qed.

(** X12.  On a document whose arrays hold strings only and in which no
    object has a property named [toString], the four stylesheet generators
    return, at any reading of the clock; if the document also has what the
    configuration generator needs and the five destinations can be
    written, [build] returns [true]. *)
Theorem printable_documents_build variables :
  strings_only (VObj variables) = true ->
  printable (VObj variables) = true ->
  (forall now,
     succeeded (generateBaseCSS now variables) = true
     /\ succeeded (generateSlidevCSS now variables) = true
     /\ succeeded (generateRevealCSS now variables) = true
     /\ succeeded (generateWebSlidesCSS now variables) = true)
  /\ (tailwind_ready variables = true ->
      forall env fs,
        (forall i, i < 5 -> writable env (destination env i) = true) ->
        build env variables fs = true).
Proof.
  intros Hso Hp.
  split; [intros now; now apply stylesheets_return|].
  intros Hready env fs Hw. unfold build.
  rewrite build_results_expected, forallb_forall.
  intros a Ha. apply in_map_iff in Ha as (i & <- & Hi). apply in_seq in Hi.
  unfold expected_artifact. rewrite (Hw i ltac:(lia)).
  assert (succeeded (generator_outcome env variables i) = true) as Hg.
  { destruct (stylesheets_return (clock env i) variables Hso Hp)
      as (Hbase & Hslidev & Hreveal & Hwebslides).
    destruct i as [|[|[|[|[|i]]]]]; try lia;
      [ exact Hbase | exact Hslidev | exact Hreveal | exact Hwebslides |].
    change (succeeded (generateTailwindConfig (clock env 4) variables) = true).
    destruct (tailwind_generator_outcome (clock env 4) variables) as [-> _].
    destruct (tailwind_config_outcome variables) as [-> _]. exact Hready. }
  destruct (generator_outcome env variables i); [reflexivity | discriminate].
Qed.

(** X21.  The palette of the configuration spreads the semantic colours
    over the three ramps: under [theme.extend.colors.prsm] a name holds the
    semantic colour of that name if there is one, and otherwise, for
    [primary], [secondary] and [neutral], the ramp of the document; a
    semantic colour called [primary] replaces the primary ramp. *)
Theorem semantic_colours_override_the_palette variables config :
  tailwind_config variables = Normal config ->
  NoDup (keys (spread_entries
                 (opt_prop (obj_get variables "colors") "semantic"))) ->
  exists prsm,
    cfg_prop (cfg_prop (cfg_prop (cfg_prop (Some config) "theme") "extend")
                "colors") "prsm" = Some (CObj prsm) /\
    forall k,
      obj_get prsm k =
      match obj_get (spread_entries
                       (opt_prop (obj_get variables "colors") "semantic")) k with
      | Some v => Some (CVal (Some v))
      | None =>
          obj_get
            [("primary", CVal (opt_prop (obj_get variables "colors") "primary"));
             ("secondary", CVal (opt_prop (obj_get variables "colors") "secondary"));
             ("neutral", CVal (opt_prop (obj_get variables "colors") "neutral"))]
            k
      end.
Proof.
  intros H Hnd. unfold tailwind_config in H.
  apply bind_Normal_inv in H as (primary & Hp & H).
  apply bind_Normal_inv in H as (secondary & Hs & H).
  apply bind_Normal_inv in H as (neutral & Hn & H).
  apply bind_Normal_inv in H as (semantic & Hsem & H).
  apply bind_Normal_inv in H as (fontFamily & _ & H).
  apply bind_Normal_inv in H as (sans & _ & H).
  apply bind_Normal_inv in H as (heading & _ & H).
  apply bind_Normal_inv in H as (mono & _ & H).
  apply bind_Normal_inv in H as (display & _ & H).
  apply bind_Normal_inv in H as (fontSize & _ & H).
  apply bind_Normal_inv in H as (sizes & _ & H).
  apply bind_Normal_inv in H as (pairs & _ & H).
  injection H as <-.
  apply prop_Normal_inv in Hp as [_ ->].
  apply prop_Normal_inv in Hs as [_ ->].
  apply prop_Normal_inv in Hn as [_ ->].
  apply prop_Normal_inv in Hsem as [_ ->].
  eexists. split; [reflexivity|].
  intros k.
  exact (obj_get_fold_set _ _ (fun v => CVal (Some v)) _ Hnd _ k).
Qed.

Lemma or_default_falsy (v : @jsval number) fallback :
  truthy v = false -> or_default v fallback = Normal fallback.
Proof.
  intros H. unfold or_default. destruct v as [y|]; [|reflexivity].
  now rewrite H.
Qed.

(** X13.  A token the framework generators interpolate that is missing or
    falsy ([0], the empty string, [null], [false]) is replaced by the
    fallback of the template: 980 by 552 pixels and a padding of [40px] for
    Slidev, [40px 80px] for Reveal.js, [80px] for WebSlides, and a
    blockquote border of [4px]. *)
Theorem framework_stylesheets_fall_back now variables :
  (truthy (opt_prop (opt_prop (opt_prop (obj_get variables "slide") "dimensions") "slidev") "width") = false ->
   truthy (opt_prop (opt_prop (opt_prop (obj_get variables "slide") "dimensions") "slidev") "height") = false ->
   truthy (opt_prop (opt_prop (obj_get variables "slide") "padding") "slidev") = false ->
   truthy (opt_prop (opt_prop (obj_get variables "components") "blockquote") "borderWidth") = false ->
   generateSlidevCSS now variables =
   Normal (slidev_head ++ now ++ slidev_body "980" "552" "40px" "4px"))
  /\ (truthy (opt_prop (opt_prop (obj_get variables "slide") "padding") "reveal") = false ->
      truthy (opt_prop (opt_prop (obj_get variables "components") "blockquote") "borderWidth") = false ->
      generateRevealCSS now variables =
      Normal (reveal_head ++ now ++ reveal_body "40px 80px" "4px"))
  /\ (truthy (opt_prop (opt_prop (obj_get variables "slide") "padding") "webslides") = false ->
      truthy (opt_prop (opt_prop (obj_get variables "components") "blockquote") "borderWidth") = false ->
      generateWebSlidesCSS now variables =
      Normal (webslides_head ++ now ++ webslides_body "80px" "4px")).
Proof.
  split; [|split].
  - intros Hw Hh Hp Hb. unfold generateSlidevCSS.
    rewrite (or_default_falsy _ _ Hw), (or_default_falsy _ _ Hh),
      (or_default_falsy _ _ Hp), (or_default_falsy _ _ Hb).
    reflexivity.
  - intros Hp Hb. unfold generateRevealCSS.
    rewrite (or_default_falsy _ _ Hp), (or_default_falsy _ _ Hb). reflexivity.
  - intros Hp Hb. unfold generateWebSlidesCSS.
    rewrite (or_default_falsy _ _ Hp), (or_default_falsy _ _ Hb). reflexivity.
Qed.


End Requirements.

(** ** The framework router *)

(** X14.  The decision of the router: WebSlides exactly for responsive
    marketing content without live code, Vue components or Mermaid diagrams;
    Reveal.js exactly when none of these holds and either PDF export is
    asked or the content is corporate without LaTeX; Slidev otherwise. *)
Theorem selectFramework_decision (o : options) :
  (selectFramework o = FRAMEWORKS.WEBSLIDES <->
     hasLiveCode o || needsVueComponents o || hasMermaid o = false /\
     String.eqb (contentType o) CONTENT_TYPES.MARKETING && responsive o = true)
  /\ (selectFramework o = FRAMEWORKS.REVEAL <->
        hasLiveCode o || needsVueComponents o || hasMermaid o = false /\
        String.eqb (contentType o) CONTENT_TYPES.MARKETING && responsive o = false /\
        is_pdf (exportFormat o)
        || negb (hasLatex o) && String.eqb (contentType o) CONTENT_TYPES.CORPORATE
        = true)
  /\ (selectFramework o = FRAMEWORKS.SLIDEV \/
      selectFramework o = FRAMEWORKS.REVEAL \/
      selectFramework o = FRAMEWORKS.WEBSLIDES).
Proof.
  unfold selectFramework.
  destruct (hasLiveCode o), (needsVueComponents o), (hasMermaid o),
    (String.eqb (contentType o) CONTENT_TYPES.MARKETING), (responsive o),
    (is_pdf (exportFormat o)), (hasLatex o),
    (String.eqb (contentType o) CONTENT_TYPES.CORPORATE);
    cbn; repeat split; intros; try discriminate; try tauto;
    try (destruct H; discriminate);
    try (destruct H as [? [? ?]]; discriminate).
Qed.

(** X15.  The router against the capabilities matrix: the framework chosen
    is in the matrix, and it supports live code, Vue components and Mermaid
    diagrams whenever they are asked for; it lacks LaTeX and PDF export
    exactly when it is WebSlides, which is chosen for responsive marketing
    content even when LaTeX or PDF export is asked. *)
Theorem selected_framework_capabilities (o : options) :
  exists c,
    obj_get FRAMEWORK_CAPABILITIES (selectFramework o) = Some c /\
    (hasLiveCode o = true -> liveCode c = true) /\
    (needsVueComponents o = true -> vueComponents c = true) /\
    (hasMermaid o = true -> mermaidDiagrams c = true) /\
    animations c = true /\
    latexMath c = negb (String.eqb (selectFramework o) FRAMEWORKS.WEBSLIDES) /\
    pdfExport c = negb (String.eqb (selectFramework o) FRAMEWORKS.WEBSLIDES) /\
    (String.eqb (selectFramework o) FRAMEWORKS.WEBSLIDES =
     negb (hasLiveCode o || needsVueComponents o || hasMermaid o)
     && String.eqb (contentType o) CONTENT_TYPES.MARKETING && responsive o).
Proof.
  unfold selectFramework.
  destruct (hasLiveCode o), (needsVueComponents o), (hasMermaid o),
    (String.eqb (contentType o) CONTENT_TYPES.MARKETING), (responsive o),
    (is_pdf (exportFormat o)), (hasLatex o),
    (String.eqb (contentType o) CONTENT_TYPES.CORPORATE);
    eexists; (split; [reflexivity|]); cbn; repeat split;
    intros; try reflexivity; try discriminate.
Qed.

(** X16.  What [parseContent] recommends: Slidev for every Markdown file,
    whatever features it detected; never Slidev for an HTML file, Reveal.js
    when the file is a Reveal.js one, the two HTML characteristics never
    both true, and Reveal.js also for an HTML file that is neither (no
    section, no WebSlides container). *)
Theorem parsed_file_recommendations :
  (forall hasLiveCode hasMermaid hasLatex hasVueComponents,
     markdown_recommendation hasLiveCode hasMermaid hasLatex hasVueComponents
     = FRAMEWORKS.SLIDEV)
  /\ (forall isWebSlides slideMatches,
        String.eqb (html_recommendation isWebSlides) FRAMEWORKS.SLIDEV = false /\
        (html_isReveal isWebSlides slideMatches = true ->
         html_recommendation isWebSlides = FRAMEWORKS.REVEAL) /\
        html_isReveal isWebSlides slideMatches && isWebSlides = false /\
        (isWebSlides = false -> slideMatches = 0 ->
         html_isReveal isWebSlides slideMatches = false /\
         html_recommendation isWebSlides = FRAMEWORKS.REVEAL)).
Proof.
  split.
  - intros [] [] [] []; reflexivity.
  - intros [] n; repeat split; try reflexivity; try discriminate.
    + unfold html_isReveal. cbn. now rewrite andb_false_r.
    + subst n. reflexivity.
Qed.


(** ** The core module *)

Section Core.
Context {number : Type} {NUM : JSNumber number}.
Implicit Types (tokens t : @value number).

(** *** The token cache *)
Lemma token_calls_cached t :
  truthy (Some t) = true ->
  forall disks, token_calls t disks = map (fun _ => Normal t) disks.
Proof.
  intros Ht. induction disks as [|disk later IH]; [reflexivity|].
  cbn [token_calls map]. unfold getDesignTokens. rewrite Ht. cbn [negb].
  now rewrite IH.
Qed.

(** X17.  [getDesignTokens] loads once: while the token file is missing or
    unreadable every call answers [null] or throws, and tries again; from
    the first call that parses a truthy document every later call answers
    that document, whatever the disk holds by then. *)
Theorem token_cache_never_reloads t
  (before after : list (option (completion (@value number)))) :
  truthy (Some t) = true ->
  forallb unloaded before = true ->
  token_calls VNull (before ++ Some (Normal t) :: after) =
  (map unloaded_answer before
   ++ Normal t :: map (fun _ => Normal t) after)%list.
Proof.
  intros Ht Hbefore. induction before as [|disk before IH].
  - cbn [app map token_calls]. unfold getDesignTokens.
    cbn [truthy negb bind]. now rewrite token_calls_cached.
  - cbn [forallb] in Hbefore. apply andb_true_iff in Hbefore as [Hd Hb].
    cbn [app map token_calls]. unfold getDesignTokens. cbn [truthy negb].
    destruct disk as [[v|e]|]; [discriminate| |]; cbn [bind unloaded_answer];
      now rewrite (IH Hb).
Qed.

(** *** Inline styles *)
Lemma link_of_defined (v : @jsval number) :
  succeeded (link_of v) = negb (nullish v).
Proof. destruct v as [[]|]; reflexivity. Qed.

(** X18.  [getInlineStyles] returns exactly when the tokens are falsy (the
    result is then empty) or hold [colors], the colour scheme under it
    ([colors.dark] for dark, [colors.slide] otherwise),
    [typography.fontFamily] and an array at [typography.fontFamily.sans]
    whose elements render; otherwise it throws. *)
Theorem inline_styles_requirements tokens dark :
  succeeded (getInlineStyles tokens dark) =
  negb (truthy (Some tokens)) || inline_ready tokens dark.
Proof.
  unfold getInlineStyles, inline_ready.
  destruct (truthy (Some tokens)) eqn:Ht; cbn [negb orb]; [|reflexivity].
  rewrite (prop_defined (Some tokens) "colors").
  assert (nullish (Some tokens) = false) as Hn
    by (destruct tokens; try reflexivity; discriminate).
  rewrite Hn. cbn [bind].
  assert ((if dark then prop (opt_prop (Some tokens) "colors") "dark"
           else prop (opt_prop (Some tokens) "colors") "slide")
          = prop (opt_prop (Some tokens) "colors")
              (if dark then "dark" else "slide")) as -> by now destruct dark.
  rewrite !prop_defined, Hn.
  destruct (nullish (opt_prop (Some tokens) "colors")); [reflexivity|].
  cbn [bind negb andb].
  rewrite (prop_defined (opt_prop (Some tokens) "typography")).
  destruct (nullish (opt_prop (opt_prop (Some tokens) "colors")
                       (if dark then "dark" else "slide"))) eqn:Hs.
  - cbn [negb andb].
    destruct (nullish (opt_prop (Some tokens) "typography")); [reflexivity|].
    cbn [bind]. rewrite prop_defined.
    destruct (nullish (opt_prop (opt_prop (Some tokens) "typography") "fontFamily"));
      [reflexivity|].
    cbn [bind].
    destruct (opt_prop (opt_prop (opt_prop (Some tokens) "typography") "fontFamily") "sans")
      as [[| | | |items|]|]; try reflexivity.
    rewrite succeeded_bind. destruct (join_values ", " items); [|reflexivity].
    rewrite prop_defined, Hs. reflexivity.
  - cbn [negb andb].
    destruct (nullish (opt_prop (Some tokens) "typography")); [reflexivity|].
    cbn [bind negb andb]. rewrite prop_defined.
    destruct (nullish (opt_prop (opt_prop (Some tokens) "typography") "fontFamily"));
      [reflexivity|].
    cbn [bind negb andb].
    destruct (opt_prop (opt_prop (opt_prop (Some tokens) "typography") "fontFamily") "sans")
      as [[| | | |items|]|]; try reflexivity.
    rewrite succeeded_bind. destruct (join_values ", " items); [|reflexivity].
    rewrite !prop_defined, Hs. cbn [bind]. rewrite succeeded_bind.
    pose proof (link_of_defined (opt_prop (opt_prop (Some tokens) "colors")
                  (if dark then "dark" else "slide"))) as Hl.
    rewrite Hs in Hl.
    destruct (link_of _); [reflexivity | discriminate].
Qed.


Lemma getInlineStyles_font tokens dark styles :
  truthy (Some tokens) = true ->
  getInlineStyles tokens dark = Normal styles ->
  exists items joined,
    opt_prop (opt_prop (opt_prop (Some tokens) "typography") "fontFamily") "sans"
      = Some (VArr items) /\
    join_values ", " items = Normal joined /\
    obj_get styles "fontFamily" = Some (Token (Some (VStr joined))).
Proof.
  intros Ht H. unfold getInlineStyles in H. rewrite Ht in H. cbn [negb] in H.
  apply bind_Normal_inv in H as (colors & _ & H).
  apply bind_Normal_inv in H as (colorScheme & _ & H).
  apply bind_Normal_inv in H as (typography & Hty & H).
  apply bind_Normal_inv in H as (fontFamily & Hff & H).
  apply bind_Normal_inv in H as (sans & Hsans & H).
  apply bind_Normal_inv in H as (joined & Hj & H).
  apply bind_Normal_inv in H as (background & _ & H).
  apply bind_Normal_inv in H as (text & _ & H).
  apply bind_Normal_inv in H as (heading & _ & H).
  apply bind_Normal_inv in H as (link & _ & H).
  injection H as <-.
  apply prop_Normal_inv in Hty as [_ ->].
  apply prop_Normal_inv in Hff as [_ ->].
  apply prop_Normal_inv in Hsans as [_ ->].
  destruct (opt_prop (opt_prop (opt_prop (Some tokens) "typography") "fontFamily") "sans")
    as [[| | | |items|]|]; try discriminate.
  exists items, joined. split; [reflexivity | split; [exact Hj | reflexivity]].
Qed.

Lemma quote_name_length n :
  String.length (quote_name n) =
  String.length n + (if includes n " " then 2 else 0).
Proof.
  unfold quote_name. destruct (includes n " "); [|lia].
  rewrite !append_length. cbn. lia.
Qed.

Lemma font_list_length (names : list string) :
  String.length (font_list names) =
  String.length (join ", " names)
  + 2 * length (filter (fun n => includes n " ") names).
Proof.
  unfold font_list. induction names as [|n rest IH]; [reflexivity|].
  destruct rest as [|m rest].
  - cbn [map join filter]. rewrite quote_name_length.
    destruct (includes n " "); cbn [length]; lia.
  - change (join ", " (map quote_name (n :: m :: rest)))
      with (quote_name n ++ ", " ++ join ", " (map quote_name (m :: rest))).
    change (join ", " (n :: m :: rest))
      with (n ++ ", " ++ join ", " (m :: rest)).
    rewrite !append_length, IH, quote_name_length.
    cbn [filter]. destruct (includes n " "); cbn [length]; lia.
Qed.

Lemma font_list_unquoted (names : list string) :
  font_list names = join ", " names <->
  forallb (fun n => negb (includes n " ")) names = true.
Proof.
  split.
  - intros H. apply (f_equal String.length) in H.
    rewrite font_list_length in H.
    assert (length (filter (fun n => includes n " ") names) = 0) as H0 by lia.
    apply length_zero_iff_nil in H0. apply forallb_forall. intros n Hn.
    destruct (includes n " ") eqn:E; [|reflexivity].
    assert (In n (filter (fun n => includes n " ") names)) as Hin
      by (apply filter_In; now split).
    rewrite H0 in Hin. destruct Hin.
  - intros H. unfold font_list. f_equal.
    rewrite <- (map_id names) at 2. apply map_ext_in. intros n Hn.
    rewrite forallb_forall in H. specialize (H n Hn).
    unfold quote_name. now destruct (includes n " ").
Qed.

(** X19.  The [fontFamily] of the inline styles is the [sans] list joined
    with a comma and a space, without the quotes the build path puts around
    a name with a space: the two renderings of a list of names are equal
    exactly when no name has a space. *)
Theorem inline_font_family_unquoted tokens dark styles (names : list string) :
  truthy (Some tokens) = true ->
  getInlineStyles tokens dark = Normal styles ->
  opt_prop (opt_prop (opt_prop (Some tokens) "typography") "fontFamily") "sans"
    = Some (VArr (map (@VStr number) names)) ->
  obj_get styles "fontFamily" = Some (Token (Some (VStr (join ", " names))))
  /\ font_entry (VArr (map (@VStr number) names))
     = Normal (VStr (font_list names))
  /\ (font_list names = join ", " names <->
      forallb (fun n => negb (includes n " ")) names = true).
Proof.
  intros Ht H Hsans.
  destruct (getInlineStyles_font tokens dark styles Ht H)
    as (items & joined & Hitems & Hj & Hget).
  rewrite Hsans in Hitems. injection Hitems as <-.
  rewrite join_values_strings in Hj. injection Hj as <-.
  split; [exact Hget | split].
  - apply font_entry_names.
  - apply font_list_unquoted.
Qed.

(** *** Theme files *)
Lemma stylesheet_destination env i :
  i < 4 ->
  destination env i =
  output_path env (nth i artifact_names EmptyString ++ ".css").
Proof.
  intros Hi. destruct i as [|[|[|[|i]]]]; try lia; reflexivity.
Qed.

(** X20.  Where the core module reads the directory [build] writes, and
    the five destinations are distinct, [getThemePath] and [getThemeCSS]
    asked for base, slidev, reveal or webslides (in any letter case) after
    a build find the stylesheet its generator returned. *)
Theorem theme_css_is_the_built_stylesheet env (dist : string -> string)
  (variables : @object number) fs i framework content :
  (forall file, dist file = output_path env file) ->
  NoDup (map (destination env) (seq 0 5)) ->
  i < 4 ->
  toLowerCase framework = nth i artifact_names EmptyString ->
  generator_outcome env variables i = Normal content ->
  writable env (destination env i) = true ->
  destination env i <> EmptyString ->
  getThemePath dist (snd (build_results env variables fs)) framework
    = Some (destination env i)
  /\ getThemeCSS dist (snd (build_results env variables fs)) framework
    = Some content.
Proof.
  intros Hdist Hnd Hi Hname Hout Hw Hne.
  pose proof (build_results_file env variables fs i Hnd ltac:(lia)) as Hfile.
  rewrite Hout, Hw in Hfile.
  assert (getThemePath dist (snd (build_results env variables fs)) framework
          = Some (destination env i)) as Hpath.
  { unfold getThemePath. rewrite Hname, Hdist, <- (stylesheet_destination env i Hi).
    unfold obj_has. now rewrite Hfile. }
  split; [exact Hpath|].
  unfold getThemeCSS. rewrite Hpath.
  destruct (String.eqb (destination env i) EmptyString) eqn:E.
  - apply String.eqb_eq in E. contradiction.
  - exact Hfile.
Qed.


End Core.

(** * Worked examples *)

#[local] Existing Instance Z_number.

Lemma completion_neq (a b : completion string) :
  match a, b with
  | Normal x, Normal y => String.eqb x y
  | Throw _, Throw _ => true
  | _, _ => false
  end = false ->
  a <> b.
Proof.
  intros H ->. destruct b as [x|e]; [|discriminate].
  rewrite String.eqb_refl in H. discriminate.
Qed.

(** Counterexample to C1: the same document compiled at two readings of the
    clock gives five pairs of artifacts that all differ. *)
Lemma timestamps_break_idempotence :
  generateBaseCSS first_run theme_document
    <> generateBaseCSS second_run theme_document
  /\ generateSlidevCSS first_run theme_document
    <> generateSlidevCSS second_run theme_document
  /\ generateRevealCSS first_run theme_document
    <> generateRevealCSS second_run theme_document
  /\ generateWebSlidesCSS first_run theme_document
    <> generateWebSlidesCSS second_run theme_document
  /\ generateTailwindConfig first_run theme_document
    <> generateTailwindConfig second_run theme_document.
Proof.
  repeat split; apply completion_neq; vm_compute; reflexivity.
Qed.

(** Counterexample to C2: an array of numbers at a token path raises
    nothing; the key vanishes from the flat map and the base generator
    succeeds. *)
Lemma number_array_dropped_silently :
  flattenObject shadow_list_document EmptyString
    = Normal [("spacing-sm", VStr "8px")]
  /\ succeeded (generateBaseCSS first_run shadow_list_document) = true.
Proof. split; vm_compute; reflexivity. Qed.

(** C3 at its failing input: the build path emits the scalar held by a
    metadata key, and skips only the metadata key that holds an object; the
    read path skips both. *)
Theorem scalar_metadata_key_emitted :
  flattenObject versioned_document EmptyString
    = Normal [("$version", VStr "1.0.0"); ("spacing-sm", VStr "8px")]
  /\ getCSSVariables (Some versioned_document)
    = [("--prsm-spacing-sm", VStr "8px")].
Proof. split; vm_compute; reflexivity. Qed.

(** C4 at its failing input: on the font list of the specification's own
    example the read path names one property per font, the build path one
    property holding the joined list. *)
Theorem read_path_drifts_from_build_path :
  flattenObject font_document EmptyString
    = Normal [("typography-fontFamily-sans", VStr "Inter, system-ui")]
  /\ getCSSVariables (Some font_document)
    = [("--prsm-typography-fontFamily-sans-0", VStr "Inter");
       ("--prsm-typography-fontFamily-sans-1", VStr "system-ui")]
  /\ (forall fl, flattenObject font_document EmptyString = Normal fl ->
                 as_custom_properties fl <> getCSSVariables (Some font_document)).
Proof.
  split; [vm_compute; reflexivity | split; [vm_compute; reflexivity |]].
  intros fl H. vm_compute in H. injection H as <-. vm_compute. discriminate.
Qed.

(** On the colour ramp of the specification's example, a plain document,
    the two paths agree. *)
Lemma read_path_agrees_on_ramp :
  exists fl,
    flattenObject ramp_document EmptyString = Normal fl /\
    forall K, obj_get (getCSSVariables (Some ramp_document)) K =
              obj_get (as_custom_properties fl) K.
Proof. apply read_path_agrees_on_plain. reflexivity. Qed.

(** Counterexample to C5: a wrapper holding a number is not collapsed; the
    flat map has no entry at the parent path and one through the wrapper. *)
Lemma number_wrapper_not_collapsed :
  exists fl,
    flattenObject number_wrapper_document EmptyString = Normal fl /\
    obj_get fl "zIndex-modal" = None /\
    obj_get fl "zIndex-modal-value" = Some (VNum 50%Z).
Proof. eexists. repeat split; vm_compute; reflexivity. Qed.

(** At the path [__proto__] the assignment creates no entry: the wrapper
    under that key leaves nothing in the flat map. *)
Lemma proto_path_holds_no_entry :
  flattenObject [("__proto__", VObj [("value", @VStr Z "1rem")]);
                 ("spacing", VObj [("sm", VStr "8px")])] EmptyString
  = Normal [("spacing-sm", VStr "8px")].
Proof. reflexivity. Qed.

(** The font-size wrapper of a theme, collapsed. *)
Lemma string_wrapper_collapses_witness :
  startsWith "base" "$" = false
  /\ pre_of "fontSize" ++ "base" <> "__proto__"
  /\ obj_get [("value", @VStr Z "1rem"); ("lineHeight", VStr "1.5")] "value"
     = Some (VStr "1rem")
  /\ flattenObject
       [("base", VObj [("value", @VStr Z "1rem"); ("lineHeight", VStr "1.5")])]
       "fontSize"
     = Normal [("fontSize-base", VStr "1rem")].
Proof.
  assert (pre_of "fontSize" ++ "base" <> "__proto__") as Hproto
    by discriminate.
  split; [reflexivity | split; [exact Hproto | split; [reflexivity|]]].
  exact (proj2 (string_wrapper_collapses "fontSize" "base"
                  [("value", VStr "1rem"); ("lineHeight", VStr "1.5")] "1rem"
                  eq_refl Hproto eq_refl)).
Defined.



(** Counterexample to C7: in a font-family group with a [DEFAULT] entry no
    sequence is joined; the flat map holds the [DEFAULT] array at the group's
    path and no entry for [sans]. *)
Lemma default_key_preempts_font_join :
  exists fl,
    flattenObject default_font_document EmptyString = Normal fl /\
    obj_get fl "typography-fontFamily-sans" = None /\
    obj_get fl "typography-fontFamily" = Some (VArr [VStr "Inter"]).
Proof. eexists. repeat split; vm_compute; reflexivity. Qed.

(** Two font lists, one with a name in two words. *)
Lemma font_family_joined_witness :
  ~ In "DEFAULT" (map fst [("sans", ["Inter"; "system-ui"]);
                           ("heading", ["Space Grotesk"; "Geist"])])
  /\ NoDup (map fst [("sans", ["Inter"; "system-ui"]);
                     ("heading", ["Space Grotesk"; "Geist"])])
  /\ flattenObject
       [("fontFamily",
         VObj [("sans", VArr [@VStr Z "Inter"; VStr "system-ui"]);
               ("heading", VArr [VStr "Space Grotesk"; VStr "Geist"])])]
       "typography"
     = Normal [("typography-fontFamily-sans", VStr "Inter, system-ui");
               ("typography-fontFamily-heading",
                VStr (dquote ++ "Space Grotesk" ++ dquote ++ ", Geist"))].
Proof.
  assert (~ In "DEFAULT" (map fst [("sans", ["Inter"; "system-ui"]);
                                   ("heading", ["Space Grotesk"; "Geist"])]))
    as Hdef by (simpl; intuition discriminate).
  assert (NoDup (map fst [("sans", ["Inter"; "system-ui"]);
                          ("heading", ["Space Grotesk"; "Geist"])]))
    as Hnd by (repeat constructor; simpl; intuition discriminate).
  split; [exact Hdef | split; [exact Hnd|]].
  exact (proj1 (@font_family_joined Z Z_number "typography"
                  [("sans", ["Inter"; "system-ui"]);
                   ("heading", ["Space Grotesk"; "Geist"])] Hdef Hnd)).
Defined.



(** A document with colours only fails the configuration generator and no
    other. *)
Lemma build_isolates_failure_witness :
  (forall p, writable dist_environment p = true)
  /\ length (filter (fun i => negb (succeeded
                       (generator_outcome dist_environment colors_only_document i)))
               (seq 0 5)) = 1
  /\ exists a0 a1 a2 a3 a4,
       fst (build_results dist_environment colors_only_document [])
         = [a0; a1; a2; a3; a4] /\
       map success [a0; a1; a2; a3; a4] =
         map (fun i => succeeded
                (generator_outcome dist_environment colors_only_document i))
           (seq 0 5) /\
       build dist_environment colors_only_document [] =
         success a0 && success a1 && success a2 && success a3 && success a4 /\
       (length (filter (fun i => negb (succeeded
                          (generator_outcome dist_environment
                             colors_only_document i)))
                  (seq 0 5)) = 1 ->
        length (filter failed [a0; a1; a2; a3; a4]) = 1 /\
        length (filter success [a0; a1; a2; a3; a4]) = 4 /\
        build dist_environment colors_only_document [] = false).
Proof.
  assert (forall p, writable dist_environment p = true) as Hw
    by (intros p; reflexivity).
  assert (length (filter (fun i => negb (succeeded
                    (generator_outcome dist_environment colors_only_document i)))
            (seq 0 5)) = 1) as Hone by (vm_compute; reflexivity).
  split; [exact Hw | split; [exact Hone|]].
  exact (build_isolates_failure dist_environment colors_only_document [] Hw).
Defined.

(** Counterexample to C9: with a destination that cannot be written, a
    document that makes exactly one generator throw leaves two artifacts
    marked failed, the one of the generator that threw and the one whose
    write failed. *)
Lemma failed_write_marks_a_second_artifact :
  length (filter (fun i => negb (succeeded
                    (generator_outcome readonly_base_environment
                       colors_only_document i)))
            (seq 0 5)) = 1
  /\ length (filter failed
               (fst (build_results readonly_base_environment
                       colors_only_document []))) = 2
  /\ length (filter success
               (fst (build_results readonly_base_environment
                       colors_only_document []))) = 3.
Proof. repeat split; vm_compute; reflexivity. Qed.

(** The destinations of the worked environment are five files. *)
Lemma dist_destinations_distinct :
  NoDup (map (destination dist_environment) (seq 0 5)).
Proof.
  repeat constructor; cbn; intuition discriminate.
Qed.

(** A colour group with one shade emits at [colors-primary] only. *)
Lemma nested_group_emits_below_its_path_witness :
  startsWith "colors" "$" = false
  /\ string_valued [("primary", @VStr Z "#0057e6")] = false
  /\ obj_get [("primary", @VStr Z "#0057e6")] "DEFAULT" = None
  /\ pre_of EmptyString ++ "colors" <> EmptyString
  /\ flattenObject [("colors", VObj [("primary", @VStr Z "#0057e6")])] EmptyString
     = Normal [("colors-primary", VStr "#0057e6")]
  /\ obj_get [("colors-primary", @VStr Z "#0057e6")] (pre_of EmptyString ++ "colors")
     = None
  /\ forall K, In K (keys [("colors-primary", @VStr Z "#0057e6")]) ->
               startsWith K (pre_of EmptyString ++ "colors" ++ "-") = true.
Proof.
  assert (pre_of EmptyString ++ "colors" <> EmptyString) as Hpath
    by discriminate.
  do 5 (split; [first [reflexivity | exact Hpath]|]).
  exact (nested_group_emits_below_its_path EmptyString "colors"
           [("primary", VStr "#0057e6")] [("colors-primary", VStr "#0057e6")]
           eq_refl eq_refl eq_refl Hpath eq_refl).
Defined.

(** A shade under [colors-primary] and under [primary] inside [colors]. *)
Lemma dashed_key_is_nested_path_witness :
  startsWith "colors" "$" = false
  /\ pre_of EmptyString ++ "colors" <> EmptyString
  /\ String.eqb "primary" "value" = false
  /\ String.eqb "primary" "DEFAULT" = false
  /\ is_scalar (@VStr Z "#0057e6") = true
  /\ flattenObject [("colors", VObj [("primary", @VStr Z "#0057e6")])] EmptyString
     = flattenObject [("colors-primary", @VStr Z "#0057e6")] EmptyString.
Proof.
  assert (pre_of EmptyString ++ "colors" <> EmptyString) as Hpath
    by discriminate.
  do 5 (split; [first [reflexivity | exact Hpath]|]).
  exact (dashed_key_is_nested_path EmptyString [] [] "colors" "primary"
           (VStr "#0057e6") eq_refl Hpath eq_refl eq_refl eq_refl).
Defined.

(** A font list with a number in it stops the build path. *)
Lemma font_list_element_must_be_text_witness :
  string_valued numbered_font_group = false
  /\ obj_get numbered_font_group "DEFAULT" = None
  /\ In ("sans", VArr [VStr "Inter"; VNum 1%Z]) numbered_font_group
  /\ In (VNum 1%Z) [@VStr Z "Inter"; VNum 1%Z]
  /\ has_includes (@VNum Z 1%Z) = false
  /\ flattenObject [("fontFamily", VObj numbered_font_group)] "typography"
     = Throw TypeError.
Proof.
  assert (In ("sans", VArr [VStr "Inter"; VNum 1%Z]) numbered_font_group)
    as Hgroup by (left; reflexivity).
  assert (In (VNum 1%Z) [@VStr Z "Inter"; VNum 1%Z]) as Helement
    by (right; left; reflexivity).
  do 5 (split; [first [reflexivity | exact Hgroup | exact Helement]|]).
  exact (font_list_element_must_be_text "typography" [] numbered_font_group []
           "sans" [VStr "Inter"; VNum 1%Z] (VNum 1%Z)
           eq_refl eq_refl Hgroup Helement eq_refl).
Defined.

(** A name the read path returns for the colour ramp. *)
Lemma custom_properties_are_prefixed_witness :
  In "--prsm-colors-primary-500" (keys (getCSSVariables (Some ramp_document)))
  /\ startsWith "--prsm-colors-primary-500" "--prsm-" = true.
Proof.
  assert (In "--prsm-colors-primary-500"
            (keys (getCSSVariables (Some ramp_document)))) as Hin
    by (right; left; reflexivity).
  split; [exact Hin|].
  exact (custom_properties_are_prefixed (Some ramp_document)
           "--prsm-colors-primary-500" Hin).
Defined.

(** The version stamp of a document is invisible to the read path. *)
Lemma read_path_skips_metadata_witness :
  startsWith "$version" "$" = true
  /\ (forall cp vars,
        css_flatten (VObj versioned_document) cp vars =
        css_flatten
          (VObj [("$meta", VObj [("author", @VStr Z "PRSMTECH")]);
                 ("spacing", VObj [("sm", VStr "8px")])]) cp vars)
  /\ getCSSVariables (Some versioned_document) =
     getCSSVariables
       (Some [("$meta", VObj [("author", @VStr Z "PRSMTECH")]);
              ("spacing", VObj [("sm", VStr "8px")])]).
Proof.
  split; [reflexivity|].
  exact (read_path_skips_metadata [] "$version" (VStr "1.0.0")
           [("$meta", VObj [("author", VStr "PRSMTECH")]);
            ("spacing", VObj [("sm", VStr "8px")])] eq_refl).
Defined.

(** The colour ramp is read as it is built. *)
Lemma plain_document_read_as_built_witness :
  plain (VObj ramp_document) = true
  /\ exists fl,
       flattenObject ramp_document EmptyString = Normal fl /\
       (forall K, obj_get (getCSSVariables (Some ramp_document)) K =
                  obj_get (as_custom_properties fl) K) /\
       (forall K, In K (keys (getCSSVariables (Some ramp_document))) <->
                  exists k, In k (keys fl) /\ K = "--prsm-" ++ k).
Proof.
  split; [reflexivity|].
  exact (plain_document_read_as_built ramp_document eq_refl).
Defined.

(** The Reveal.js stylesheet of the worked theme, as written to disk. *)
Lemma build_writes_what_generators_return_witness :
  NoDup (map (destination dist_environment) (seq 0 5))
  /\ generator_outcome dist_environment theme_document 2
     = Normal (reveal_head ++ first_run ++ reveal_body "40px 80px" "4px")
  /\ writable dist_environment (destination dist_environment 2) = true
  /\ obj_get (snd (build_results dist_environment theme_document []))
       (destination dist_environment 2)
     = Some (reveal_head ++ first_run ++ reveal_body "40px 80px" "4px").
Proof.
  assert (generator_outcome dist_environment theme_document 2
          = Normal (reveal_head ++ first_run ++ reveal_body "40px 80px" "4px"))
    as Hout by reflexivity.
  split; [exact dist_destinations_distinct|].
  split; [exact Hout|]. split; [reflexivity|].
  exact (build_writes_what_generators_return dist_environment theme_document []
           2 _ dist_destinations_distinct Hout eq_refl).
Defined.


(** The worked theme has no [toString] and only strings in its arrays, and
    what the configuration generator needs. *)
Lemma printable_documents_build_witness :
  strings_only (VObj theme_document) = true
  /\ printable (VObj theme_document) = true
  /\ (forall now,
        succeeded (generateBaseCSS now theme_document) = true
        /\ succeeded (generateSlidevCSS now theme_document) = true
        /\ succeeded (generateRevealCSS now theme_document) = true
        /\ succeeded (generateWebSlidesCSS now theme_document) = true)
  /\ (tailwind_ready theme_document = true ->
      forall env fs,
        (forall i, i < 5 -> writable env (destination env i) = true) ->
        build env theme_document fs = true).
Proof.
  split; [reflexivity|]. split; [reflexivity|].
  exact (printable_documents_build theme_document eq_refl eq_refl).
Defined.

(** The token file appears at the third call and is gone at the fourth. *)
Lemma token_cache_never_reloads_witness :
  truthy (Some (VObj ramp_document)) = true
  /\ forallb (@unloaded Z) [None; Some (Throw TypeError)] = true
  /\ token_calls VNull
       ([None; Some (Throw TypeError)]
        ++ Some (Normal (VObj ramp_document)) :: [None; Some (Normal VNull)])%list
     = (map (@unloaded_answer Z) [None; Some (Throw TypeError)]
        ++ Normal (VObj ramp_document)
           :: map (fun _ => Normal (VObj ramp_document))
                [None; Some (Normal (@VNull Z))])%list.
Proof.
  split; [reflexivity|]. split; [reflexivity|].
  exact (token_cache_never_reloads (VObj ramp_document)
           [None; Some (Throw TypeError)] [None; Some (Normal VNull)]
           eq_refl eq_refl).
Defined.

(** The inline font family of a theme with a two-word font name. *)
Lemma inline_font_family_unquoted_witness :
  truthy (Some inline_document) = true
  /\ getInlineStyles inline_document false
     = Normal [("fontFamily", Token (Some (VStr "Inter, Space Grotesk")));
               ("backgroundColor", Token (Some (VStr "#ffffff")));
               ("color", Token (Some (VStr "#1a1a1a")));
               ("--heading-color", Token (Some (VStr "#0057e6")));
               ("--link-color", Token (Some (VStr "#0046b3")))]
  /\ opt_prop (opt_prop (opt_prop (Some inline_document) "typography")
                 "fontFamily") "sans"
     = Some (VArr (map (@VStr Z) ["Inter"; "Space Grotesk"]))
  /\ obj_get [("fontFamily", Token (Some (@VStr Z "Inter, Space Grotesk")));
              ("backgroundColor", Token (Some (VStr "#ffffff")));
              ("color", Token (Some (VStr "#1a1a1a")));
              ("--heading-color", Token (Some (VStr "#0057e6")));
              ("--link-color", Token (Some (VStr "#0046b3")))] "fontFamily"
     = Some (Token (Some (VStr (join ", " ["Inter"; "Space Grotesk"]))))
  /\ font_entry (VArr (map (@VStr Z) ["Inter"; "Space Grotesk"]))
     = Normal (VStr (font_list ["Inter"; "Space Grotesk"]))
  /\ (font_list ["Inter"; "Space Grotesk"] = join ", " ["Inter"; "Space Grotesk"]
      <-> forallb (fun n => negb (includes n " ")) ["Inter"; "Space Grotesk"]
          = true).
Proof.
  split; [reflexivity|]. split; [reflexivity|]. split; [reflexivity|].
  exact (inline_font_family_unquoted inline_document false _
           ["Inter"; "Space Grotesk"] eq_refl eq_refl eq_refl).
Defined.

(** The Reveal.js stylesheet of the worked theme, read back after the
    build under the name [Reveal]. *)
Lemma theme_css_is_the_built_stylesheet_witness :
  (forall file, "dist/" ++ file = output_path dist_environment file)
  /\ NoDup (map (destination dist_environment) (seq 0 5))
  /\ 2 < 4
  /\ toLowerCase "Reveal" = nth 2 artifact_names EmptyString
  /\ generator_outcome dist_environment theme_document 2
     = Normal (reveal_head ++ first_run ++ reveal_body "40px 80px" "4px")
  /\ writable dist_environment (destination dist_environment 2) = true
  /\ destination dist_environment 2 <> EmptyString
  /\ getThemePath (fun file => "dist/" ++ file)
       (snd (build_results dist_environment theme_document [])) "Reveal"
     = Some (destination dist_environment 2)
  /\ getThemeCSS (fun file => "dist/" ++ file)
       (snd (build_results dist_environment theme_document [])) "Reveal"
     = Some (reveal_head ++ first_run ++ reveal_body "40px 80px" "4px").
Proof.
  assert (forall file, "dist/" ++ file = output_path dist_environment file)
    as Hdist by reflexivity.
  assert (2 < 4) as Hi by (repeat constructor).
  assert (generator_outcome dist_environment theme_document 2
          = Normal (reveal_head ++ first_run ++ reveal_body "40px 80px" "4px"))
    as Hout by reflexivity.
  assert (destination dist_environment 2 <> EmptyString) as Hne
    by discriminate.
  split; [exact Hdist|]. split; [exact dist_destinations_distinct|].
  split; [exact Hi|]. split; [reflexivity|]. split; [exact Hout|].
  split; [reflexivity|]. split; [exact Hne|].
  exact (theme_css_is_the_built_stylesheet dist_environment
           (fun file => "dist/" ++ file) theme_document [] 2 "Reveal" _
           Hdist dist_destinations_distinct Hi eq_refl Hout eq_refl Hne).
Defined.

(** The semantic colour [primary] takes the place of the primary ramp. *)
Lemma semantic_colours_override_the_palette_witness :
  exists config,
    tailwind_config semantic_primary_document = Normal config
    /\ NoDup (keys (spread_entries
                      (opt_prop (obj_get semantic_primary_document "colors")
                         "semantic")))
    /\ exists prsm,
         cfg_prop (cfg_prop (cfg_prop (cfg_prop (Some config) "theme") "extend")
                     "colors") "prsm" = Some (CObj prsm) /\
         forall k,
           obj_get prsm k =
           match obj_get (spread_entries
                            (opt_prop (obj_get semantic_primary_document "colors")
                               "semantic")) k with
           | Some v => Some (CVal (Some v))
           | None =>
               obj_get
                 [("primary",
                   CVal (opt_prop (obj_get semantic_primary_document "colors")
                           "primary"));
                  ("secondary",
                   CVal (opt_prop (obj_get semantic_primary_document "colors")
                           "secondary"));
                  ("neutral",
                   CVal (opt_prop (obj_get semantic_primary_document "colors")
                           "neutral"))]
                 k
           end.
Proof.
  assert (NoDup (keys (spread_entries
                         (opt_prop (obj_get semantic_primary_document "colors")
                            "semantic")))) as Hnd
    by (repeat constructor; intros []).
  eexists. split; [reflexivity|]. split; [exact Hnd|].
  exact (semantic_colours_override_the_palette semantic_primary_document _
           eq_refl Hnd).
Defined.
